(** * Reactive collection engine and resource lifecycle of nionswift

    A shallow embedding of
    - [collections.Counter] as it is used for the counted aggregates of
      [DataItemsInContainerBinding] (src/DataItemsBinding.py) and
      [DataGroup] (src/nion/swift/model/DataGroup.py),
    - the bindings of src/DataItemsBinding.py with their reconciliation
      pass [_update_data_items],
    - the data reference counting of [BufferedDataSource] and the
      transaction / write-delay state of [DataItem]
      (src/nion/swift/model/DataItem.py),
    followed by the properties the specification states about them. *)

From stdpp Require Import base option list strings gmap fin_maps sorting.
From Stdlib Require Import ZArith Lia.

Open Scope Z_scope.

(** * Exceptions

    A Python method either returns or raises; in both cases the mutations
    it has performed on [self] so far stay.  [Returned s] is a normal
    return leaving state [s], [Raised s] an exception ([AssertionError],
    [IndexError]) that propagates out of the method leaving state [s]. *)

Inductive outcome (S : Type) : Type :=
  | Returned (s : S)
  | Raised (s : S).
Arguments Returned {S} s.
Arguments Raised {S} s.

Definition state_of {S} (o : outcome S) : S :=
  match o with Returned s => s | Raised s => s end.

Definition returns {S} (o : outcome S) : bool :=
  match o with Returned _ => true | Raised _ => false end.

(** Sequencing: an exception skips the rest. *)
Definition and_then {S} (o : outcome S) (k : S → outcome S) : outcome S :=
  match o with
  | Returned s => k s
  | Raised s => Raised s
  end.

Notation "o >>> k" := (and_then o k) (at level 61, left associativity).

(** [assert c] *)
Definition assert {S} (c : bool) (s : S) : outcome S :=
  if c then Returned s else Raised s.

(** [assert c] where [c] reads the state. *)
Definition assert_that {S} (c : S → bool) (s : S) : outcome S :=
  assert (c s) s.

(** * collections.Counter

    A [Counter] is a dict from items to integer counts.  The bindings and
    the data groups only use [update] and [subtract] with a mapping
    argument and [+= Counter()]; none of them depends on the order of the
    entries, so the dict is a finite map. *)

Module Counter.
Section counter.
Context `{Countable K}.

(** [self.update(other)]: [self[elem] = count + self.get(elem, 0)] for
    every entry of [other]. *)
Definition update (self other : gmap K Z) : gmap K Z :=
  merge (λ a b,
    match a, b with
    | _, Some count => Some (count + default 0 a)
    | _, None => a
    end) self other.

(** [self.subtract(other)]: [self[elem] = self.get(elem, 0) - count] for
    every entry of [other]. *)
Definition subtract (self other : gmap K Z) : gmap K Z :=
  merge (λ a b,
    match a, b with
    | _, Some count => Some (default 0 a - count)
    | _, None => a
    end) self other.

(** [_keep_positive]: delete every entry whose count is not positive. *)
Definition _keep_positive (self : gmap K Z) : gmap K Z :=
  filter (λ kv, 0 < kv.2) self.

(** [self += other]: [self[elem] += count] for every entry of [other],
    then [_keep_positive]. *)
Definition __iadd__ (self other : gmap K Z) : gmap K Z :=
  _keep_positive (update self other).

End counter.
End Counter.

(** * Python lists *)

Section pylist.
Context {A : Type} `{EqDecision A}.

(** [del l[i]] for [0 <= i]: [IndexError] ([None]) out of range. *)
Definition list_del (l : list A) (i : nat) : option (list A) :=
  if decide (i < length l)%nat then Some (delete i l) else None.

(** [l.insert(i, x)] for [0 <= i]: appends when [i] is past the end. *)
Definition list_insert_at (i : nat) (x : A) (l : list A) : list A :=
  take i l ++ x :: drop i l.

(** [l.index(x)]: the first position of [x]; [ValueError] ([None]) when
    [x] is absent. *)
Definition list_index (x : A) (l : list A) : option nat :=
  fst <$> list_find (λ y, y = x) l.

(** [x in l] *)
Definition contains (l : list A) (x : A) : bool := bool_decide (x ∈ l).

(** [len(set(l)) == len(l)] for hashable items compared by identity. *)
Definition all_distinct (l : list A) : bool := bool_decide (NoDup l).

End pylist.

(** * The reconciliation pass of DataItemsBinding._update_data_items *)

Section reconcile.
Context `{Countable item}.

(** What a listener is told: [inserter(data_item, index)] or
    [remover(data_item, index)]. *)
Inductive op : Type := op_insert | op_remove.

Record event : Type := Event {
  ev_op : op;
  ev_item : item;
  ev_index : nat;
}.

(** One round of calls to the registered listeners, with the value of
    [self.__data_items] the listeners find when they are called.  The
    listeners are taken to return, and not to call back into the
    binding that calls them. *)
Record notification : Type := Notification {
  note_event : event;
  note_data_items : list item;
}.

(** The variables of the loop of lines 108-149: the loop counter, the
    working copy, the list of the binding, and the listener calls made so
    far, oldest first. *)
Record pass : Type := Pass {
  index : nat;
  old_data_items : list item;
  __data_items : list item;
  notified : list notification;
}.

Definition begin_pass (data_items : list item) : pass :=
  {| index := 0; old_data_items := data_items;
     __data_items := data_items; notified := [] |}.

(** [del old_data_items[i]; del self.__data_items[i]] and then
    [remover(data_item, i)] for every remover. *)
Definition remove_at (data_item : item) (i : nat) (p : pass) : outcome pass :=
  match list_del (old_data_items p) i with
  | None => Raised p
  | Some old' =>
    match list_del (__data_items p) i with
    | None =>
      Raised {| index := index p; old_data_items := old';
                __data_items := __data_items p; notified := notified p |}
    | Some cur' =>
      Returned {| index := index p; old_data_items := old';
                  __data_items := cur';
                  notified := notified p ++
                    [Notification (Event op_remove data_item i) cur'] |}
    end
  end.

(** [old_data_items.insert(i, data_item);
    self.__data_items.insert(i, data_item)] and then
    [inserter(data_item, i)] for every inserter. *)
Definition insert_at (data_item : item) (i : nat) (p : pass) : outcome pass :=
  let cur' := list_insert_at i data_item (__data_items p) in
  Returned {| index := index p;
              old_data_items := list_insert_at i data_item (old_data_items p);
              __data_items := cur';
              notified := notified p ++
                [Notification (Event op_insert data_item i) cur'] |}.

(** Lines 111-117: if the old data item at the current index isn't in the
    new list, remove it. *)
Definition remove_stale (data_items : list item) (p : pass) : outcome pass :=
  match old_data_items p !! index p with
  | Some data_item_to_remove =>
    if contains data_items data_item_to_remove then Returned p
    else
      assert (contains (__data_items p) data_item_to_remove) p >>>
      remove_at data_item_to_remove (index p)
  | None => Returned p
  end.

(** Lines 111-117 as the specification words them, to compare with
    [remove_stale]: while the old item at the current index exists and is
    absent from the new list, remove it.  Every round shortens
    [old_data_items], so [len(old_data_items)] rounds are enough. *)
Fixpoint remove_stale_as_specified_loop (rounds : nat)
  (data_items : list item) (p : pass) : outcome pass :=
  match rounds with
  | O => Returned p
  | S rounds' =>
    match old_data_items p !! index p with
    | Some data_item_to_remove =>
      if contains data_items data_item_to_remove then Returned p
      else
        assert (contains (__data_items p) data_item_to_remove) p >>>
        remove_at data_item_to_remove (index p) >>>
        remove_stale_as_specified_loop rounds' data_items
    | None => Returned p
    end
  end.

Definition remove_stale_as_specified (data_items : list item) (p : pass)
  : outcome pass :=
  remove_stale_as_specified_loop (length (old_data_items p)) data_items p.

(** Lines 119-140: if the new data item is in the old list, remove it and
    re-insert it unless old and new position are the same; else insert
    it. *)
Definition place (data_item : item) (p : pass) : outcome pass :=
  match list_index data_item (old_data_items p) with
  | Some old_index =>
    assert (bool_decide (index p ≤ old_index)%nat) p >>> λ p,
    if bool_decide (index p < old_index)%nat then
      assert (contains (__data_items p) data_item) p >>>
      remove_at data_item old_index >>>
      assert_that (λ p, negb (contains (__data_items p) data_item)) >>>
      insert_at data_item (index p)
    else Returned p
  | None =>
    assert (negb (contains (__data_items p) data_item)) p >>>
    insert_at data_item (index p)
  end.

(** [index += 1] *)
Definition advance (p : pass) : outcome pass :=
  Returned {| index := S (index p); old_data_items := old_data_items p;
              __data_items := __data_items p; notified := notified p |}.

(** The body of [for data_item in data_items]. *)
Definition visit (data_items : list item) (p : pass) (data_item : item)
  : outcome pass :=
  remove_stale data_items p >>> place data_item >>> advance.

(** [for data_item in todo: ...]; [data_items] is the whole new list. *)
Fixpoint for_each (data_items todo : list item) (p : pass) : outcome pass :=
  match todo with
  | [] => Returned p
  | data_item :: todo' =>
    visit data_items p data_item >>> for_each data_items todo'
  end.

(** Lines 143-149: [while index < len(old_data_items)].  Every round that
    does not raise shortens [old_data_items] by one, so
    [len(old_data_items)] rounds are always enough ([drain_complete]). *)
Fixpoint drain_loop (rounds : nat) (p : pass) : outcome pass :=
  match rounds with
  | O => Returned p
  | S rounds' =>
    match old_data_items p !! index p with
    | Some data_item_to_remove =>
      assert (contains (__data_items p) data_item_to_remove) p >>>
      remove_at data_item_to_remove (index p) >>>
      drain_loop rounds'
    | None => Returned p
    end
  end.

Definition drain (p : pass) : outcome pass :=
  drain_loop (length (old_data_items p)) p.

(** Lines 108-149. *)
Definition reconcile (data_items : list item) (p : pass) : outcome pass :=
  for_each data_items data_items p >>> drain.

(** The events of a pass, in the order the listeners receive them. *)
Definition events (p : pass) : list event := note_event <$> notified p.

(** Replaying events against a list, as a listener that mirrors the
    binding would: a removal must name the item found at its index, an
    insertion must fall inside the list or at its end. *)
Definition apply_event (e : event) (l : list item) : option (list item) :=
  match ev_op e with
  | op_remove =>
    if decide (l !! ev_index e = Some (ev_item e))
    then Some (delete (ev_index e) l) else None
  | op_insert =>
    if decide (ev_index e ≤ length l)%nat
    then Some (list_insert_at (ev_index e) (ev_item e) l) else None
  end.

Fixpoint replay (es : list event) (l : list item) : option (list item) :=
  match es with
  | [] => Some l
  | e :: es' =>
    match apply_event e l with
    | Some l' => replay es' l'
    | None => None
    end
  end.

(** Every listener call finds the binding's list equal to the list of the
    previous call with the event of this call applied to it. *)
Fixpoint lockstep (l : list item) (ns : list notification) : Prop :=
  match ns with
  | [] => True
  | n :: ns' =>
    apply_event (note_event n) l = Some (note_data_items n) ∧
    lockstep (note_data_items n) ns'
  end.

(** The list the listeners have seen last, [l] before the first call. *)
Definition seen (l : list item) (ns : list notification) : list item :=
  foldl (λ _ n, note_data_items n) l ns.

(** No listener call found an item twice in the list of the binding. *)
Definition seen_distinct (ns : list notification) : Prop :=
  Forall (λ n, NoDup (note_data_items n)) ns.

(** A pass that started from the list [start] is in step: the working
    copy and the list of the binding agree, the calls made so far are in
    lockstep and end at the list of the binding, and none of them found
    an item twice. *)
Definition in_step (start : list item) (p : pass) : Prop :=
  old_data_items p = __data_items p ∧
  lockstep start (notified p) ∧
  seen start (notified p) = __data_items p ∧
  seen_distinct (notified p).

End reconcile.

(** * DataItemsBinding *)

(** What a pass reads from the data items themselves:
    [data_item.has_master_data] and
    [DataGroup.get_flat_data_item_generator_in_container(data_item)], the
    dependent data items of a data item.  The generator is not part of
    the sources at hand, so it is a parameter; both may differ from one
    call to the next. *)
Record world (item : Type) : Type := World {
  has_master_data : item → bool;
  get_flat_data_item_generator_in_container : item → list item;
}.
Arguments World {item}.
Arguments has_master_data {item}.
Arguments get_flat_data_item_generator_in_container {item}.

(** [master_data_items.sort(key=sort_key, reverse=reverse)]: Python's
    sort is stable; with [reverse] it reverses, sorts and reverses
    again. *)
Section sorting.
Context {A : Type}.

Fixpoint insert_sorted (sort_key : A → Z) (x : A) (l : list A) : list A :=
  match l with
  | [] => [x]
  | y :: l' =>
    if bool_decide (sort_key y ≤ sort_key x)
    then y :: insert_sorted sort_key x l'
    else x :: y :: l'
  end.

Definition stable_sort (sort_key : A → Z) (l : list A) : list A :=
  foldl (λ acc x, insert_sorted sort_key x acc) [] l.

Definition list_sort (sort_key : A → Z) (reverse : bool) (l : list A)
  : list A :=
  if reverse then rev (stable_sort sort_key (rev l))
  else stable_sort sort_key l.

End sorting.

Module DataItemsBinding.
Section binding.
Context `{Countable item}.

(** The subclass part of a binding: its own fields [Sub], how it answers
    [_get_master_data_items], and what [self.container] evaluates to
    ([None] when the attribute is missing, an [AttributeError]).
    [Container] is what a sort function is applied to. *)
Context {Sub Container : Type}.
Variable _get_master_data_items : Sub → list item.
Variable container : Sub → option Container.

(** The fields of [DataItemsBinding]; [data_items] is [__data_items].
    The [inserters] and [removers] are not fields here: their calls are
    recorded in [notifications].  [passes] counts the calls of
    [_update_data_items] that went past its first line. *)
Record Binding : Type := MkBinding {
  data_items : list item;
  __filter : option (item → bool);
  __sort : option (Container → (item → Z) * bool);
  __change_level : Z;
  sub : Sub;
  notifications : list (notification (item := item));
  passes : nat;
}.

Definition set_sub (s : Sub) (b : Binding) : Binding :=
  {| data_items := data_items b; __filter := __filter b;
     __sort := __sort b; __change_level := __change_level b; sub := s;
     notifications := notifications b; passes := passes b |}.

Definition set_change_level (n : Z) (b : Binding) : Binding :=
  {| data_items := data_items b; __filter := __filter b;
     __sort := __sort b; __change_level := n; sub := sub b;
     notifications := notifications b; passes := passes b |}.

Definition count_pass (b : Binding) : Binding :=
  {| data_items := data_items b; __filter := __filter b;
     __sort := __sort b; __change_level := __change_level b; sub := sub b;
     notifications := notifications b; passes := S (passes b) |}.

(** Writing the variables of a pass back into the binding. *)
Definition end_pass (b : Binding) (p : pass) : Binding :=
  {| data_items := __data_items p; __filter := __filter b;
     __sort := __sort b; __change_level := __change_level b; sub := sub b;
     notifications := notifications b ++ notified p; passes := passes b |}.

(** The list of the binding holds no item twice, and held none twice at
    any listener call so far. *)
Definition distinct (b : Binding) : Prop :=
  NoDup (data_items b) ∧ seen_distinct (notifications b).

(** [DataItemsBinding.__init__] *)
Definition __init__ (s : Sub) : Binding :=
  {| data_items := []; __filter := None; __sort := None;
     __change_level := 0; sub := s; notifications := []; passes := 0 |}.

(** Lines 86-89: the master data items that have master data. *)
Definition master_data_items (w : world item) (b : Binding) : list item :=
  filter (λ data_item, has_master_data w data_item = true)
         (_get_master_data_items (sub b)).

(** Lines 91-93; [None] when reading [self.container] raises. *)
Definition sorted_master_data_items (w : world item) (b : Binding)
  : option (list item) :=
  match __sort b with
  | Some sort =>
    match container (sub b) with
    | Some c =>
      let '(sort_key, reverse) := sort c in
      Some (list_sort sort_key reverse (master_data_items w b))
    | None => None
    end
  | None => Some (master_data_items w b)
  end.

(** Lines 96-102: apply the filter and expand each data item. *)
Definition expand (w : world item) (b : Binding)
  (master_data_items : list item) : list item :=
  flat_map (λ data_item,
    if match __filter b with
       | None => true
       | Some f => f data_item
       end
    then data_item :: get_flat_data_item_generator_in_container w data_item
    else []) master_data_items.

(** [DataItemsBinding._update_data_items] *)
Definition _update_data_items (w : world item) (b : Binding)
  : outcome Binding :=
  if bool_decide (__change_level b > 0) then Returned b
  else
    let b := count_pass b in
    match sorted_master_data_items w b with
    | None => Raised b
    | Some master_data_items =>
      let new_data_items := expand w b master_data_items in
      assert (all_distinct (_get_master_data_items (sub b))) b >>>
      assert (all_distinct master_data_items) >>>
      assert (all_distinct new_data_items) >>> λ b,
      match reconcile new_data_items (begin_pass (data_items b)) with
      | Returned p => Returned (end_pass b p)
      | Raised p => Raised (end_pass b p)
      end
    end.

(** [begin_change], [end_change] *)
Definition begin_change (b : Binding) : outcome Binding :=
  Returned (set_change_level (__change_level b + 1) b).

Definition end_change (w : world item) (b : Binding) : outcome Binding :=
  let b := set_change_level (__change_level b - 1) b in
  if bool_decide (__change_level b = 0) then _update_data_items w b
  else Returned b.

(** [with self.changes(): body]: [__exit__] runs on every way out of the
    body and returns [None], so an exception of the body goes on after
    it, unless [end_change] raises one of its own. *)
Definition changes (w : world item) (body : Binding → outcome Binding)
  (b : Binding) : outcome Binding :=
  match begin_change b >>> body with
  | Returned b' => end_change w b'
  | Raised b' => Raised (state_of (end_change w b'))
  end.

(** The [sort] and [filter] setters. *)
Definition __set_sort (sort : option (Container → (item → Z) * bool))
  (w : world item) (b : Binding) : outcome Binding :=
  _update_data_items w
    {| data_items := data_items b; __filter := __filter b; __sort := sort;
       __change_level := __change_level b; sub := sub b;
       notifications := notifications b; passes := passes b |}.

Definition __set_filter (filter : option (item → bool))
  (w : world item) (b : Binding) : outcome Binding :=
  _update_data_items w
    {| data_items := data_items b; __filter := filter; __sort := __sort b;
       __change_level := __change_level b; sub := sub b;
       notifications := notifications b; passes := passes b |}.

(** A method of a subclass that changes the subclass fields under the
    mutex and then calls [_update_data_items]; an exception in the first
    part skips the call. *)
Definition sub_method (change : Sub → outcome Sub) (w : world item)
  (b : Binding) : outcome Binding :=
  match change (sub b) with
  | Returned s => _update_data_items w (set_sub s b)
  | Raised s => Raised (set_sub s b)
  end.

(** The methods every binding has, as requests from outside. *)
Inductive request : Type :=
  | do_begin_change
  | do_end_change
  | do_set_sort (sort : option (Container → (item → Z) * bool))
  | do_set_filter (filter : option (item → bool))
  | do_update_data_items.

Definition serve (r : request) (w : world item) (b : Binding)
  : outcome Binding :=
  match r with
  | do_begin_change => begin_change b
  | do_end_change => end_change w b
  | do_set_sort sort => __set_sort sort w b
  | do_set_filter filter => __set_filter filter w b
  | do_update_data_items => _update_data_items w b
  end.

End binding.
End DataItemsBinding.

(** * DataItemsInContainerBinding *)

Module DataItemsInContainerBinding.
Section container_binding.
Context `{Countable item}.

(** A container is an object with a [counted_data_items] Counter. *)
Context {ContainerObject : Type}.
Variable counted_data_items : ContainerObject → gmap item Z.

Record fields : Type := Fields {
  __counted_data_items : gmap item Z;
  __container : option ContainerObject;
}.

(** Iterating over the Counter visits its keys, each once. *)
Definition _get_master_data_items (s : fields) : list item :=
  (map_to_list (__counted_data_items s)).*1.

(** [self.container] is the property, whose value may be [None]. *)
Definition container (s : fields) : option (option ContainerObject) :=
  Some (__container s).

Definition Binding : Type :=
  DataItemsBinding.Binding (item := item) (Sub := fields)
    (Container := option ContainerObject).

Definition __init__ : Binding :=
  DataItemsBinding.__init__
    {| __counted_data_items := ∅; __container := None |}.

Definition _update_data_items (w : world item) (b : Binding)
  : outcome Binding :=
  DataItemsBinding._update_data_items _get_master_data_items container w b.

Definition update_counted_data_items (counted : gmap item Z)
  (w : world item) (b : Binding) : outcome Binding :=
  DataItemsBinding.sub_method _get_master_data_items container
    (λ s, Returned
      {| __counted_data_items :=
           Counter.update (__counted_data_items s) counted;
         __container := __container s |}) w b.

Definition subtract_counted_data_items (counted : gmap item Z)
  (w : world item) (b : Binding) : outcome Binding :=
  DataItemsBinding.sub_method _get_master_data_items container
    (λ s, Returned
      {| __counted_data_items :=
           Counter.__iadd__
             (Counter.subtract (__counted_data_items s) counted) ∅;
         __container := __container s |}) w b.

(** A counted delta sent by the container: counted data items to add
    or to subtract. *)
Inductive delta : Type :=
  | added (counted : gmap item Z)
  | subtracted (counted : gmap item Z).

Definition deliver (d : delta) (w : world item) (b : Binding)
  : outcome Binding :=
  match d with
  | added counted => update_counted_data_items counted w b
  | subtracted counted => subtract_counted_data_items counted w b
  end.

(** The [container] setter; listener registration and the reference
    count of the container are left out. *)
Definition __set_container (new_container : option ContainerObject)
  (w : world item) (b : Binding) : outcome Binding :=
  match __container (DataItemsBinding.sub b) with
  | Some old => subtract_counted_data_items (counted_data_items old) w b
  | None => Returned b
  end >>> λ b,
  Returned (DataItemsBinding.set_sub
    {| __counted_data_items := __counted_data_items (DataItemsBinding.sub b);
       __container := new_container |} b) >>> λ b,
  match new_container with
  | Some c => update_counted_data_items (counted_data_items c) w b
  | None => Returned b
  end.

Inductive request : Type :=
  | base (r : DataItemsBinding.request (item := item)
                (Container := option ContainerObject))
  | do_update_counted_data_items (counted : gmap item Z)
  | do_subtract_counted_data_items (counted : gmap item Z)
  | do_set_container (new_container : option ContainerObject).

Definition serve (r : request) (w : world item) (b : Binding)
  : outcome Binding :=
  match r with
  | base r =>
    DataItemsBinding.serve _get_master_data_items container r w b
  | do_update_counted_data_items counted =>
    update_counted_data_items counted w b
  | do_subtract_counted_data_items counted =>
    subtract_counted_data_items counted w b
  | do_set_container c => __set_container c w b
  end.

(** The binding after a history of requests, each served in the world
    of its time; a request that raises leaves the binding as it is at
    that point, and the next request finds it so. *)
Definition after (history : list (request * world item)) : Binding :=
  foldl (λ b rw, state_of (serve rw.1 rw.2 b)) __init__ history.

End container_binding.
End DataItemsInContainerBinding.

(** * DataItemsFilterBinding *)

Module DataItemsFilterBinding.
Section filter_binding.
Context `{Countable item}.

(** The class defines no [container]; what [self.container] gives is
    decided by a base class outside the sources. *)
Context {Container : Type}.
Variable inherited_container : option Container.

Record fields : Type := Fields {
  __master_data_items : list item;
}.

Definition _get_master_data_items (s : fields) : list item :=
  __master_data_items s.

Definition container (s : fields) : option Container := inherited_container.

Definition Binding : Type :=
  DataItemsBinding.Binding (item := item) (Sub := fields)
    (Container := Container).

Definition __init__ : Binding :=
  DataItemsBinding.__init__ {| __master_data_items := [] |}.

Definition _update_data_items (w : world item) (b : Binding)
  : outcome Binding :=
  DataItemsBinding._update_data_items _get_master_data_items container w b.

(** The listeners a filter binding registers with the binding it
    watches; the indices it receives are never negative. *)
Definition data_item_inserted (data_item : item) (before_index : nat)
  (w : world item) (b : Binding) : outcome Binding :=
  DataItemsBinding.sub_method _get_master_data_items container
    (λ s,
      assert (negb (contains (__master_data_items s) data_item)) s >>> λ s,
      Returned {| __master_data_items :=
        list_insert_at before_index data_item (__master_data_items s) |})
    w b.

Definition data_item_removed (data_item : item) (index : nat)
  (w : world item) (b : Binding) : outcome Binding :=
  DataItemsBinding.sub_method _get_master_data_items container
    (λ s,
      assert (contains (__master_data_items s) data_item) s >>> λ s,
      match list_del (__master_data_items s) index with
      | Some l => Returned {| __master_data_items := l |}
      | None => Raised s
      end)
    w b.

Inductive request : Type :=
  | base (r : DataItemsBinding.request (item := item)
                (Container := Container))
  | do_data_item_inserted (data_item : item) (before_index : nat)
  | do_data_item_removed (data_item : item) (index : nat).

Definition serve (r : request) (w : world item) (b : Binding)
  : outcome Binding :=
  match r with
  | base r =>
    DataItemsBinding.serve _get_master_data_items container r w b
  | do_data_item_inserted data_item before_index =>
    data_item_inserted data_item before_index w b
  | do_data_item_removed data_item index =>
    data_item_removed data_item index w b
  end.

Definition after (history : list (request * world item)) : Binding :=
  foldl (λ b rw, state_of (serve rw.1 rw.2 b)) __init__ history.

End filter_binding.
End DataItemsFilterBinding.

(** * DataGroup: the counted display items *)

Module DataGroup.
Section data_group.
Context `{Countable item}.

Record DataGroup : Type := MkDataGroup {
  __display_items : list item;
  __counted_display_items : gmap item Z;
}.

Definition update_counted_display_items (counted_display_items : gmap item Z)
  (g : DataGroup) : DataGroup :=
  {| __display_items := __display_items g;
     __counted_display_items :=
       Counter.update (__counted_display_items g) counted_display_items |}.

Definition subtract_counted_display_items
  (counted_display_items : gmap item Z) (g : DataGroup) : DataGroup :=
  {| __display_items := __display_items g;
     __counted_display_items :=
       Counter.__iadd__
         (Counter.subtract (__counted_display_items g)
            counted_display_items) ∅ |}.

End data_group.
End DataGroup.

(** * DataAndMetadata *)

Module DataAndMetadata.

(** Modelled from the spec: the class DataAndMetadata of nion.data, which
    holds the payload of a data source, is not part of the sources.  It
    counts references of its own, loads the payload from the external
    store when the count before an increment was 0, and unloads it from
    memory when a decrement brings the count to 0; a decrement below 0
    is a fatal defect.  [loads] counts the loads from the external
    store. *)
Record DataAndMetadata : Type := MkDataAndMetadata {
  data_ref_count : Z;
  is_data_valid : bool;
  loads : nat;
}.

Definition increment_data_ref_count (d : DataAndMetadata)
  : outcome DataAndMetadata :=
  let initial_count := data_ref_count d in
  if bool_decide (initial_count = 0) then
    Returned {| data_ref_count := initial_count + 1;
                is_data_valid := true; loads := S (loads d) |}
  else
    Returned {| data_ref_count := initial_count + 1;
                is_data_valid := is_data_valid d; loads := loads d |}.

Definition decrement_data_ref_count (d : DataAndMetadata)
  : outcome DataAndMetadata :=
  assert (bool_decide (data_ref_count d > 0)) d >>> λ d,
  let final_count := data_ref_count d - 1 in
  if bool_decide (final_count = 0) then
    Returned {| data_ref_count := final_count;
                is_data_valid := false; loads := loads d |}
  else
    Returned {| data_ref_count := final_count;
                is_data_valid := is_data_valid d; loads := loads d |}.

End DataAndMetadata.

(** * BufferedDataSource: the data reference count *)

Module BufferedDataSource.

Record BufferedDataSource : Type := MkBufferedDataSource {
  __data_ref_count : Z;
  __data_and_metadata : option DataAndMetadata.DataAndMetadata;
}.

(** Calling a method of [self.__data_and_metadata]. *)
Definition on_data_and_metadata
  (method : DataAndMetadata.DataAndMetadata
            → outcome DataAndMetadata.DataAndMetadata)
  (count : Z) (d : DataAndMetadata.DataAndMetadata)
  : outcome BufferedDataSource :=
  match method d with
  | Returned d' =>
    Returned {| __data_ref_count := count; __data_and_metadata := Some d' |}
  | Raised d' =>
    Raised {| __data_ref_count := count; __data_and_metadata := Some d' |}
  end.

Definition increment_data_ref_count (s : BufferedDataSource)
  : outcome BufferedDataSource :=
  let initial_count := __data_ref_count s in
  let count := initial_count + 1 in
  match __data_and_metadata s with
  | Some d =>
    if bool_decide (initial_count = 0) then
      on_data_and_metadata DataAndMetadata.increment_data_ref_count count d
    else
      Returned {| __data_ref_count := count;
                  __data_and_metadata := Some d |}
  | None =>
    Returned {| __data_ref_count := count; __data_and_metadata := None |}
  end.

Definition decrement_data_ref_count (s : BufferedDataSource)
  : outcome BufferedDataSource :=
  assert (bool_decide (__data_ref_count s > 0)) s >>> λ s,
  let final_count := __data_ref_count s - 1 in
  match __data_and_metadata s with
  | Some d =>
    if bool_decide (final_count = 0) then
      on_data_and_metadata DataAndMetadata.decrement_data_ref_count
        final_count d
    else
      Returned {| __data_ref_count := final_count;
                  __data_and_metadata := Some d |}
  | None =>
    Returned {| __data_ref_count := final_count;
                __data_and_metadata := None |}
  end.

(** [is_data_loaded] *)
Definition is_data_loaded (s : BufferedDataSource) : bool :=
  match __data_and_metadata s with
  | Some d => DataAndMetadata.is_data_valid d
  | None => false
  end.

(** The loads from the external store this data source has caused. *)
Definition loads (s : BufferedDataSource) : nat :=
  match __data_and_metadata s with
  | Some d => DataAndMetadata.loads d
  | None => O
  end.

(** [for data_source in data_sources: method(data_source)]: an exception
    leaves the data sources after the failing one untouched. *)
Fixpoint for_each_data_source
  (method : BufferedDataSource → outcome BufferedDataSource)
  (data_sources : list BufferedDataSource)
  : outcome (list BufferedDataSource) :=
  match data_sources with
  | [] => Returned []
  | s :: rest =>
    match method s with
    | Returned s' =>
      match for_each_data_source method rest with
      | Returned rest' => Returned (s' :: rest')
      | Raised rest' => Raised (s' :: rest')
      end
    | Raised s' => Raised (s' :: rest)
    end
  end.

End BufferedDataSource.

(** * DataItem: transactions and delayed writes *)

Module DataItem.
Import BufferedDataSource.

(** The calls a data item makes on its persistent object context and on
    its suspendable storage cache. *)
Inductive storage_call : Type :=
  | write_data_item
  | rewrite_data_item_properties
  | rewrite_data_item_data.

Inductive cache_call : Type := suspend_cache | spill_cache.

#[global] Instance storage_call_eq_dec : EqDecision storage_call.
Proof. solve_decision. Defined.

(** A persistent object context, as far as a data item looks into it:
    the persistent storage it finds for the data item, if any, with its
    [write_delayed] flag. *)
Record PersistentStorage : Type := MkPersistentStorage {
  write_delayed : bool;
}.

Record PersistentObjectContext : Type := MkPersistentObjectContext {
  _get_persistent_storage_for_object : option PersistentStorage;
}.

(** The fields of a data item that the transaction and write-delay code
    reads or writes.  [modified_count] belongs to the persistent object
    base class; [storage_calls] and [cache_calls] record the calls made,
    oldest first; [__suspendable_storage_cache] tells whether a cache has
    been set. *)
Record DataItem : Type := MkDataItem {
  __in_transaction_state : bool;
  __pending_write : bool;
  __write_delay_modified_count : Z;
  __write_delay_data_changed : bool;
  persistent_object_context : option PersistentObjectContext;
  modified_count : Z;
  data_sources : list BufferedDataSource;
  __suspendable_storage_cache : bool;
  storage_calls : list storage_call;
  cache_calls : list cache_call;
}.

Definition set_in_transaction_state (v : bool) (d : DataItem) : DataItem :=
  MkDataItem v (__pending_write d) (__write_delay_modified_count d)
    (__write_delay_data_changed d) (persistent_object_context d)
    (modified_count d) (data_sources d) (__suspendable_storage_cache d)
    (storage_calls d) (cache_calls d).

Definition set_pending_write (v : bool) (d : DataItem) : DataItem :=
  MkDataItem (__in_transaction_state d) v (__write_delay_modified_count d)
    (__write_delay_data_changed d) (persistent_object_context d)
    (modified_count d) (data_sources d) (__suspendable_storage_cache d)
    (storage_calls d) (cache_calls d).

Definition set_write_delay (count : Z) (changed : bool) (d : DataItem)
  : DataItem :=
  MkDataItem (__in_transaction_state d) (__pending_write d) count changed
    (persistent_object_context d) (modified_count d) (data_sources d)
    (__suspendable_storage_cache d) (storage_calls d) (cache_calls d).

Definition set_persistent_object_context
  (c : option PersistentObjectContext) (d : DataItem) : DataItem :=
  MkDataItem (__in_transaction_state d) (__pending_write d)
    (__write_delay_modified_count d) (__write_delay_data_changed d) c
    (modified_count d) (data_sources d) (__suspendable_storage_cache d)
    (storage_calls d) (cache_calls d).

Definition set_modified_count (n : Z) (d : DataItem) : DataItem :=
  MkDataItem (__in_transaction_state d) (__pending_write d)
    (__write_delay_modified_count d) (__write_delay_data_changed d)
    (persistent_object_context d) n (data_sources d)
    (__suspendable_storage_cache d) (storage_calls d) (cache_calls d).

Definition set_data_sources (l : list BufferedDataSource) (d : DataItem)
  : DataItem :=
  MkDataItem (__in_transaction_state d) (__pending_write d)
    (__write_delay_modified_count d) (__write_delay_data_changed d)
    (persistent_object_context d) (modified_count d) l
    (__suspendable_storage_cache d) (storage_calls d) (cache_calls d).

Definition set_suspendable_storage_cache (v : bool) (d : DataItem)
  : DataItem :=
  MkDataItem (__in_transaction_state d) (__pending_write d)
    (__write_delay_modified_count d) (__write_delay_data_changed d)
    (persistent_object_context d) (modified_count d) (data_sources d) v
    (storage_calls d) (cache_calls d).

Definition call_storage (c : storage_call) (d : DataItem) : DataItem :=
  MkDataItem (__in_transaction_state d) (__pending_write d)
    (__write_delay_modified_count d) (__write_delay_data_changed d)
    (persistent_object_context d) (modified_count d) (data_sources d)
    (__suspendable_storage_cache d) (storage_calls d ++ [c]) (cache_calls d).

Definition call_cache (c : cache_call) (d : DataItem) : DataItem :=
  MkDataItem (__in_transaction_state d) (__pending_write d)
    (__write_delay_modified_count d) (__write_delay_data_changed d)
    (persistent_object_context d) (modified_count d) (data_sources d)
    (__suspendable_storage_cache d) (storage_calls d) (cache_calls d ++ [c]).

(** [DataItem.__init__] without data. *)
Definition __init__ : DataItem :=
  {| __in_transaction_state := false; __pending_write := true;
     __write_delay_modified_count := 0;
     __write_delay_data_changed := false;
     persistent_object_context := None; modified_count := 0;
     data_sources := []; __suspendable_storage_cache := false;
     storage_calls := []; cache_calls := [] |}.

(** [persistent_storage.write_delayed = v], when there is a context and
    it has a persistent storage for the data item. *)
Definition set_write_delayed (v : bool) (d : DataItem) : DataItem :=
  match persistent_object_context d with
  | Some c =>
    match _get_persistent_storage_for_object c with
    | Some _ =>
      set_persistent_object_context
        (Some (MkPersistentObjectContext (Some (MkPersistentStorage v)))) d
    | None => d
    end
  | None => d
  end.

(** A method call on [self.persistent_object_context], an
    [AttributeError] when that is [None]. *)
Definition on_context (c : storage_call) (d : DataItem) : outcome DataItem :=
  match persistent_object_context d with
  | Some _ => Returned (call_storage c d)
  | None => Raised d
  end.

Definition __enter_write_delay_state (d : DataItem) : outcome DataItem :=
  Returned (set_write_delayed true (set_write_delay (modified_count d) false d)).

Definition _finish_pending_write (d : DataItem) : outcome DataItem :=
  if __pending_write d then
    on_context write_data_item d >>> λ d,
    Returned (set_pending_write false d)
  else
    (if bool_decide (modified_count d > __write_delay_modified_count d)
     then on_context rewrite_data_item_properties d
     else Returned d) >>> λ d,
    if __write_delay_data_changed d
    then on_context rewrite_data_item_data d
    else Returned d.

Definition __exit_write_delay_state (d : DataItem) : outcome DataItem :=
  match persistent_object_context d with
  | Some _ => _finish_pending_write (set_write_delayed false d)
  | None => Returned d
  end.

(** [for data_source in self.data_sources: method(data_source)] *)
Definition on_data_sources
  (method : BufferedDataSource → outcome BufferedDataSource) (d : DataItem)
  : outcome DataItem :=
  match for_each_data_source method (data_sources d) with
  | Returned l => Returned (set_data_sources l d)
  | Raised l => Raised (set_data_sources l d)
  end.

Definition _enter_transaction_state (d : DataItem) : outcome DataItem :=
  __enter_write_delay_state (set_in_transaction_state true d) >>> λ d,
  Returned (if __suspendable_storage_cache d
            then call_cache suspend_cache d else d) >>>
  on_data_sources increment_data_ref_count.

Definition _exit_transaction_state (d : DataItem) : outcome DataItem :=
  let d := set_in_transaction_state false d in
  Returned (if __suspendable_storage_cache d
            then call_cache spill_cache d else d) >>>
  __exit_write_delay_state >>>
  on_data_sources decrement_data_ref_count.

(** Setting [persistent_object_context], which calls
    [persistent_object_context_changed]. *)
Definition persistent_object_context_changed (d : DataItem)
  : outcome DataItem :=
  if __in_transaction_state d then __enter_write_delay_state d
  else Returned d.

Definition set_context (c : option PersistentObjectContext) (d : DataItem)
  : outcome DataItem :=
  persistent_object_context_changed (set_persistent_object_context c d).

(** [set_storage_cache] *)
Definition set_storage_cache (d : DataItem) : outcome DataItem :=
  Returned (set_suspendable_storage_cache true d).

(** Modelled from the spec: the persistent object base class, which is
    not part of the sources, advances the modification counter at every
    property change. *)
Definition property_changed (d : DataItem) : outcome DataItem :=
  Returned (set_modified_count (modified_count d + 1) d).

(** The listener [data_item_changed] of [__insert_data_source], called
    when a data source reports a change of its data. *)
Definition data_item_changed (_is_reading : bool) (d : DataItem)
  : outcome DataItem :=
  if _is_reading then Returned d
  else Returned (set_write_delay (__write_delay_modified_count d) true d).

(** [append_data_source]: [__insert_data_source] loads the data of the
    new data source when the data item is in the transaction state. *)
Definition append_data_source (s : BufferedDataSource) (d : DataItem)
  : outcome DataItem :=
  if __in_transaction_state d then
    match increment_data_ref_count s with
    | Returned s' => Returned (set_data_sources (data_sources d ++ [s']) d)
    | Raised s' => Raised (set_data_sources (data_sources d ++ [s']) d)
    end
  else Returned (set_data_sources (data_sources d ++ [s]) d).

(** [remove_data_source] of the data source at [index]:
    [__disconnect_data_source] unloads its data when the data item is in
    the transaction state. *)
Definition remove_data_source (index : nat) (d : DataItem)
  : outcome DataItem :=
  match data_sources d !! index with
  | Some s =>
    let d' := set_data_sources (delete index (data_sources d)) d in
    if __in_transaction_state d then
      match decrement_data_ref_count s with
      | Returned _ => Returned d'
      | Raised _ => Raised d'
      end
    else Returned d'
  | None => Raised d
  end.

(** [read_from_dict]: the data sources are removed, those described by
    the dictionary are inserted, and nothing is pending any more. *)
Definition read_from_dict (described : list BufferedDataSource)
  (d : DataItem) : outcome DataItem :=
  foldl (λ o _, o >>> remove_data_source 0) (Returned d) (data_sources d) >>>
  (λ d, foldl (λ o s, o >>> append_data_source s) (Returned d) described) >>>
  λ d, Returned (set_pending_write false d).

(** A consumer acquiring or releasing the data of the data source at
    [index]. *)
Definition on_data_source (index : nat)
  (method : BufferedDataSource → outcome BufferedDataSource) (d : DataItem)
  : outcome DataItem :=
  match data_sources d !! index with
  | Some s =>
    match method s with
    | Returned s' => Returned (set_data_sources (<[index := s']> (data_sources d)) d)
    | Raised s' => Raised (set_data_sources (<[index := s']> (data_sources d)) d)
    end
  | None => Raised d
  end.

(** What can happen to a data item. *)
Inductive request : Type :=
  | do_enter_transaction_state
  | do_exit_transaction_state
  | do_set_context (c : option PersistentObjectContext)
  | do_set_storage_cache
  | do_property_changed
  | do_data_item_changed (_is_reading : bool)
  | do_append_data_source (s : BufferedDataSource)
  | do_remove_data_source (index : nat)
  | do_read_from_dict (described : list BufferedDataSource)
  | do_increment_data_ref_count (index : nat)
  | do_decrement_data_ref_count (index : nat).

Definition serve (r : request) (d : DataItem) : outcome DataItem :=
  match r with
  | do_enter_transaction_state => _enter_transaction_state d
  | do_exit_transaction_state => _exit_transaction_state d
  | do_set_context c => set_context c d
  | do_set_storage_cache => set_storage_cache d
  | do_property_changed => property_changed d
  | do_data_item_changed r => data_item_changed r d
  | do_append_data_source s => append_data_source s d
  | do_remove_data_source i => remove_data_source i d
  | do_read_from_dict l => read_from_dict l d
  | do_increment_data_ref_count i =>
    on_data_source i increment_data_ref_count d
  | do_decrement_data_ref_count i =>
    on_data_source i decrement_data_ref_count d
  end.

(** A history of requests; a request that raises leaves the data item as
    it is at that point. *)
Definition run (history : list request) (d : DataItem) : DataItem :=
  foldl (λ d r, state_of (serve r d)) d history.

(** How often a call occurs in a log. *)
Definition count_calls (c : storage_call) (log : list storage_call) : nat :=
  length (filter (λ c', c' = c) log).

End DataItem.

(** * The sort functions of DataItemsBinding.py *)

Module Sorts.
Section sorts.
Context {item : Type} `{EqDecision item} {Container : Type}.

(** [sort_natural(container)].  [flat_data_items] stands for
    [list(DataGroup.get_flat_data_item_generator_in_container(container))],
    whose generator is not among the sources.  [sort_key] is
    [flat_data_items.index(data_item)], a [ValueError] for a data item
    that is not in the container; the key [-1] stands for it here, and
    the facts about this sort assume that every data item sorted is in
    the container. *)
Definition sort_natural (flat_data_items : Container → list item)
  (container : Container) : (item → Z) * bool :=
  (λ data_item,
     match list_index data_item (flat_data_items container) with
     | Some i => Z.of_nat i
     | None => -1
     end,
   false).

(** [sort_by_date_desc(container)].  [date] stands for
    [Utility.get_datetime_from_datetime_item(data_item.datetime_original)],
    a point in time. *)
Definition sort_by_date_desc (date : item → Z) (container : Container)
  : (item → Z) * bool :=
  (date, true).

End sorts.
End Sorts.

(** * A filter binding listening to another binding *)

Module Chain.
Section chain.
Context `{Countable item} {Container : Type}.
Variable inherited_container : option Container.

(** The listeners [DataItemsFilterBinding.__init__] puts into the
    [inserters] and [removers] of the binding it watches: a call of the
    watched binding arrives as [data_item_inserted] or
    [data_item_removed]. *)
Definition listen (n : notification (item := item)) (w : world item)
  (b : DataItemsFilterBinding.Binding (Container := Container))
  : outcome DataItemsFilterBinding.Binding :=
  match ev_op (note_event n) with
  | op_insert =>
    DataItemsFilterBinding.data_item_inserted inherited_container
      (ev_item (note_event n)) (ev_index (note_event n)) w b
  | op_remove =>
    DataItemsFilterBinding.data_item_removed inherited_container
      (ev_item (note_event n)) (ev_index (note_event n)) w b
  end.

(** The calls of one pass of the watched binding, one after the other;
    an exception in a listener ends the pass of the watched binding, so
    the later calls are not made. *)
Definition feed (ns : list (notification (item := item))) (w : world item)
  (b : DataItemsFilterBinding.Binding (Container := Container))
  : outcome DataItemsFilterBinding.Binding :=
  foldl (λ o n, o >>> listen n w) (Returned b) ns.

End chain.
End Chain.

(** * More of Python's lists *)

(** [l.remove(x)]: delete the first [x]; [ValueError] ([None]) when
    there is none. *)
Definition list_remove {A} `{EqDecision A} (x : A) (l : list A)
  : option (list A) :=
  match list_index x l with
  | Some i => Some (delete i l)
  | None => None
  end.

(** * DataGroup: display items, their references and the containers *)

Module DataGroupItems.
Section display_items.
Context `{Countable item} {Uuid : Type} `{EqDecision Uuid}.

(** [display_item.uuid] *)
Variable uuid : item → Uuid.

(** [list(collections.OrderedDict.fromkeys(l))]: every key goes to the
    end of the dict when it is first met and stays where it is when it is
    met again. *)
Definition fromkeys {A} `{EqDecision A} (l : list A) : list A :=
  foldl (λ keys key, if contains keys key then keys else keys ++ [key]) [] l.

(** [DataGroup.__validate_display_item_references] *)
Definition __validate_display_item_references (display_item_references
  : list Uuid) : list Uuid :=
  fromkeys display_item_references.

(** A data group: the display items and their counter as before, the
    property [display_item_references], and the arguments with which
    [display_item_inserted_event] and [display_item_removed_event] have
    been fired, oldest first. *)
Record Group : Type := MkGroup {
  items : DataGroup.DataGroup (item := item);
  display_item_references : list Uuid;
  fired : list (event (item := item));
}.

(** [DataGroup.__init__] *)
Definition __init__ : Group :=
  {| items := DataGroup.MkDataGroup [] ∅;
     display_item_references := []; fired := [] |}.

(** Setting the property [display_item_references] stores the validated
    value. *)
Definition set_display_item_references (value : list Uuid) (g : Group)
  : Group :=
  {| items := items g;
     display_item_references := __validate_display_item_references value;
     fired := fired g |}.

Definition insert_display_item (before_index : nat) (display_item : item)
  (g : Group) : outcome Group :=
  assert (negb (contains (DataGroup.__display_items (items g))
                  display_item)) g >>>
  assert (negb (contains (display_item_references g)
                  (uuid display_item))) >>> λ g,
  let inserted :=
    DataGroup.MkDataGroup
      (list_insert_at before_index display_item
         (DataGroup.__display_items (items g)))
      (DataGroup.__counted_display_items (items g)) in
  Returned
    (set_display_item_references
       (list_insert_at before_index (uuid display_item)
          (display_item_references g))
       {| items :=
            DataGroup.update_counted_display_items {[display_item := 1]}
              inserted;
          display_item_references := display_item_references g;
          fired := fired g ++ [Event op_insert display_item before_index] |}).

Definition append_display_item (display_item : item) (g : Group)
  : outcome Group :=
  insert_display_item (length (DataGroup.__display_items (items g)))
    display_item g.

Definition remove_display_item (display_item : item) (g : Group)
  : outcome Group :=
  match list_index display_item (DataGroup.__display_items (items g)) with
  | None => Raised g
  | Some index =>
    let removed :=
      DataGroup.MkDataGroup
        (delete index (DataGroup.__display_items (items g)))
        (DataGroup.__counted_display_items (items g)) in
    let g :=
      {| items :=
           DataGroup.subtract_counted_display_items {[display_item := 1]}
             removed;
         display_item_references := display_item_references g;
         fired := fired g ++ [Event op_remove display_item index] |} in
    match list_remove (uuid display_item) (display_item_references g) with
    | None => Raised g
    | Some references => Returned (set_display_item_references references g)
    end
  end.

Inductive request : Type :=
  | do_insert_display_item (before_index : nat) (display_item : item)
  | do_append_display_item (display_item : item)
  | do_remove_display_item (display_item : item).

Definition serve (r : request) (g : Group) : outcome Group :=
  match r with
  | do_insert_display_item before_index display_item =>
    insert_display_item before_index display_item g
  | do_append_display_item display_item => append_display_item display_item g
  | do_remove_display_item display_item => remove_display_item display_item g
  end.

(** A data group after a history of requests; the group stays as a
    request that raises leaves it. *)
Definition after (history : list request) : Group :=
  foldl (λ g r, state_of (serve r g)) __init__ history.

(** The list a listener keeps that does [l.insert(index, item)] when the
    inserted event is fired and [del l[index]] when the removed event
    is. *)
Definition mirror (events : list (event (item := item))) : list item :=
  foldl (λ l e,
    match ev_op e with
    | op_insert => list_insert_at (ev_index e) (ev_item e) l
    | op_remove => delete (ev_index e) l
    end) [] events.

(** What the group's records of its display items have to do with each
    other: neither list repeats, the references are the uuids of the
    display items, the counter holds each display item once, and the
    events replay to the display items. *)
Definition coherent (g : Group) : Prop :=
  NoDup (DataGroup.__display_items (items g)) ∧
  NoDup (display_item_references g) ∧
  display_item_references g = uuid <$> DataGroup.__display_items (items g) ∧
  (∀ x, DataGroup.__counted_display_items (items g) !! x =
          if decide (x ∈ DataGroup.__display_items (items g))
          then Some 1 else None) ∧
  mirror (fired g) = DataGroup.__display_items (items g).

End display_items.

#[local] Unset Elimination Schemes.
(** A container as the two generators see it: [display_items] and
    [data_groups] where it has these attributes. *)
Inductive Container (item : Type) : Type :=
  MkContainer (display_items : option (list item))
              (data_groups : option (list (Container item))).
#[local] Set Elimination Schemes.
Arguments MkContainer {item}.

Definition display_items {item} (c : Container item) : option (list item) :=
  let 'MkContainer display_items _ := c in display_items.

Definition data_groups {item} (c : Container item)
  : option (list (Container item)) :=
  let 'MkContainer _ data_groups := c in data_groups.

(** [list(get_flat_data_group_generator_in_container(container))];
    [None] is the [AttributeError] of a container or a group in it
    without [data_groups]. *)
Fixpoint get_flat_data_group_generator_in_container {item}
  (container : Container item) : option (list (Container item)) :=
  match data_groups container with
  | None => None
  | Some groups =>
    (fix each (groups : list (Container item)) :=
       match groups with
       | [] => Some []
       | data_group :: groups' =>
         match get_flat_data_group_generator_in_container data_group with
         | None => None
         | Some below =>
           match each groups' with
           | None => None
           | Some rest => Some (data_group :: below ++ rest)
           end
         end
       end) groups
  end.

(** [list(get_flat_display_item_generator_in_container(container))] *)
Fixpoint get_flat_display_item_generator_in_container {item}
  (container : Container item) : list item :=
  default [] (display_items container) ++
  match data_groups container with
  | None => []
  | Some groups =>
    flat_map get_flat_display_item_generator_in_container groups
  end.

End DataGroupItems.

(** * BufferedDataSource: batched change notification *)

Module BufferedDataSourceChanges.
Section changes.
Context {Thread : Type} `{EqDecision Thread}.

(** The fields [_begin_changes] and [_end_changes] work on, and how
    often [data_item_changed_event] and [metadata_changed_event] have
    been fired and [warnings.warn] has been called.  Each fire of
    [data_item_changed_event] is followed by [display.update_data] for
    every display.  Listeners are taken to return without calling
    back. *)
Record state : Type := MkState {
  __change_thread : option Thread;
  __change_count : Z;
  __change_changed : bool;
  data_item_changed_events : nat;
  metadata_changed_events : nat;
  warned : nat;
}.

(** [BufferedDataSource.__init__] *)
Definition __init__ : state :=
  {| __change_thread := None; __change_count := 0;
     __change_changed := false; data_item_changed_events := 0;
     metadata_changed_events := 0; warned := 0 |}.

Definition set_change_thread (t : option Thread) (s : state) : state :=
  MkState t (__change_count s) (__change_changed s)
    (data_item_changed_events s) (metadata_changed_events s) (warned s).

Definition set_change_count (n : Z) (s : state) : state :=
  MkState (__change_thread s) n (__change_changed s)
    (data_item_changed_events s) (metadata_changed_events s) (warned s).

Definition set_change_changed (v : bool) (s : state) : state :=
  MkState (__change_thread s) (__change_count s) v
    (data_item_changed_events s) (metadata_changed_events s) (warned s).

Definition fire_data_item_changed_event (s : state) : state :=
  MkState (__change_thread s) (__change_count s) (__change_changed s)
    (S (data_item_changed_events s)) (metadata_changed_events s) (warned s).

Definition fire_metadata_changed_event (s : state) : state :=
  MkState (__change_thread s) (__change_count s) (__change_changed s)
    (data_item_changed_events s) (S (metadata_changed_events s)) (warned s).

Definition warn (s : state) : state :=
  MkState (__change_thread s) (__change_count s) (__change_changed s)
    (data_item_changed_events s) (metadata_changed_events s) (S (warned s)).

(** [_begin_changes] on the thread [current_thread] *)
Definition _begin_changes (current_thread : Thread) (s : state) : state :=
  let s :=
    if bool_decide (__change_count s = 0)
    then set_change_thread (Some current_thread) s
    else if bool_decide (__change_thread s ≠ Some current_thread)
         then warn s else s in
  set_change_count (__change_count s + 1) s.

(** [_end_changes] on the thread [current_thread] *)
Definition _end_changes (current_thread : Thread) (s : state) : state :=
  let s :=
    if bool_decide (__change_count s = 1)
    then set_change_thread None s
    else if bool_decide (__change_thread s ≠ Some current_thread)
         then warn s else s in
  let s := set_change_count (__change_count s - 1) s in
  let change_count := __change_count s in
  let changed :=
    if bool_decide (change_count = 0) then __change_changed s else false in
  let s :=
    if bool_decide (change_count = 0) then set_change_changed false s
    else s in
  if bool_decide (change_count = 0) && changed
  then fire_data_item_changed_event s else s.

(** [with self._changes(): body]: [__exit__] runs whether the body
    returns or raises, and lets an exception pass. *)
Definition _changes (current_thread : Thread)
  (body : state → outcome state) (s : state) : outcome state :=
  match body (_begin_changes current_thread s) with
  | Returned s' => Returned (_end_changes current_thread s')
  | Raised s' => Raised (_end_changes current_thread s')
  end.

Definition r_value_changed (current_thread : Thread) (s : state)
  : outcome state :=
  _changes current_thread (λ s, Returned (set_change_changed true s)) s.

Definition __metadata_changed (current_thread : Thread) (s : state)
  : outcome state :=
  _changes current_thread (λ s, Returned (set_change_changed true s)) s >>>
  λ s, Returned (fire_metadata_changed_event s).

#[local] Unset Elimination Schemes.
(** What a caller does with a data source: the two methods, an
    exception of its own, and a [with self._changes():] block around
    more of the same. *)
Inductive action : Type :=
  | do_r_value_changed
  | do_metadata_changed
  | do_raise
  | do_changes (body : list action).
#[local] Set Elimination Schemes.

Fixpoint run (current_thread : Thread) (a : action) (s : state)
  : outcome state :=
  match a with
  | do_r_value_changed => r_value_changed current_thread s
  | do_metadata_changed => __metadata_changed current_thread s
  | do_raise => Raised s
  | do_changes body =>
    _changes current_thread
      (λ s,
        (fix each (body : list action) (s : state) : outcome state :=
           match body with
           | [] => Returned s
           | a :: body' => run current_thread a s >>> each body'
           end) body s) s
  end.

(** The statements of a block, one after the other. *)
Fixpoint run_each (current_thread : Thread) (body : list action) (s : state)
  : outcome state :=
  match body with
  | [] => Returned s
  | a :: body' => run current_thread a s >>> run_each current_thread body'
  end.

(** Whether running an action reaches a change, and whether it
    raises. *)
Fixpoint reach (a : action) : bool * bool :=
  match a with
  | do_r_value_changed | do_metadata_changed => (true, false)
  | do_raise => (false, true)
  | do_changes body =>
    (fix each (body : list action) : bool * bool :=
       match body with
       | [] => (false, false)
       | a :: body' =>
         if (reach a).2 then reach a
         else ((reach a).1 || (each body').1, (each body').2)
       end) body
  end.

Fixpoint reach_each (body : list action) : bool * bool :=
  match body with
  | [] => (false, false)
  | a :: body' =>
    if (reach a).2 then reach a
    else ((reach a).1 || (reach_each body').1, (reach_each body').2)
  end.

(** What running something inside an open block on its thread does:
    the count and the thread stay, the flag is raised when a change is
    reached, nothing is fired and nothing warned about. *)
Definition inside (t : Thread) (reached : bool * bool) (s : state)
  (o : outcome state) : Prop :=
  returns o = negb reached.2 ∧
  __change_count (state_of o) = __change_count s ∧
  __change_thread (state_of o) = __change_thread s ∧
  __change_changed (state_of o) = __change_changed s || reached.1 ∧
  warned (state_of o) = warned s ∧
  data_item_changed_events (state_of o) = data_item_changed_events s.

End changes.
End BufferedDataSourceChanges.

(** * DataItem: batched content change notification *)

Module DataItemChanges.

(** The fields [begin_data_item_changes] and [end_data_item_changes]
    work on, and how often [data_item_content_changed_event] has been
    fired.  Listeners are taken to return without calling back. *)
Record state : Type := MkState {
  __data_item_change_count : Z;
  __data_item_content_changed : bool;
  data_item_content_changed_events : nat;
}.

(** [DataItem.__init__] *)
Definition __init__ : state :=
  {| __data_item_change_count := 0; __data_item_content_changed := false;
     data_item_content_changed_events := 0 |}.

Definition begin_data_item_changes (s : state) : state :=
  {| __data_item_change_count := __data_item_change_count s + 1;
     __data_item_content_changed := __data_item_content_changed s;
     data_item_content_changed_events := data_item_content_changed_events s |}.

Definition end_data_item_changes (s : state) : state :=
  let data_item_change_count := __data_item_change_count s - 1 in
  let data_item_content_changed := __data_item_content_changed s in
  {| __data_item_change_count := data_item_change_count;
     __data_item_content_changed := data_item_content_changed;
     data_item_content_changed_events :=
       if bool_decide (data_item_change_count = 0)
          && data_item_content_changed
       then S (data_item_content_changed_events s)
       else data_item_content_changed_events s |}.

(** [with self.data_item_changes(): body] *)
Definition data_item_changes (body : state → outcome state) (s : state)
  : outcome state :=
  match body (begin_data_item_changes s) with
  | Returned s' => Returned (end_data_item_changes s')
  | Raised s' => Raised (end_data_item_changes s')
  end.

Definition notify_data_item_content_changed (s : state) : outcome state :=
  data_item_changes
    (λ s, Returned
       {| __data_item_change_count := __data_item_change_count s;
          __data_item_content_changed := true;
          data_item_content_changed_events :=
            data_item_content_changed_events s |}) s.

#[local] Unset Elimination Schemes.
(** What a caller does with a data item: the method, an exception of
    its own, and a [with self.data_item_changes():] block around more of
    the same. *)
Inductive action : Type :=
  | do_notify_data_item_content_changed
  | do_raise
  | do_data_item_changes (body : list action).
#[local] Set Elimination Schemes.

Fixpoint run (a : action) (s : state) : outcome state :=
  match a with
  | do_notify_data_item_content_changed => notify_data_item_content_changed s
  | do_raise => Raised s
  | do_data_item_changes body =>
    data_item_changes
      (λ s,
        (fix each (body : list action) (s : state) : outcome state :=
           match body with
           | [] => Returned s
           | a :: body' => run a s >>> each body'
           end) body s) s
  end.

Fixpoint run_each (body : list action) (s : state) : outcome state :=
  match body with
  | [] => Returned s
  | a :: body' => run a s >>> run_each body'
  end.

(** Whether running an action reaches a notification, and whether it
    raises. *)
Fixpoint reach (a : action) : bool * bool :=
  match a with
  | do_notify_data_item_content_changed => (true, false)
  | do_raise => (false, true)
  | do_data_item_changes body =>
    (fix each (body : list action) : bool * bool :=
       match body with
       | [] => (false, false)
       | a :: body' =>
         if (reach a).2 then reach a
         else ((reach a).1 || (each body').1, (each body').2)
       end) body
  end.

Fixpoint reach_each (body : list action) : bool * bool :=
  match body with
  | [] => (false, false)
  | a :: body' =>
    if (reach a).2 then reach a
    else ((reach a).1 || (reach_each body').1, (reach_each body').2)
  end.

(** The same for a data item: the count stays, the flag is raised when
    a notification is reached, nothing is fired. *)
Definition inside_item (reached : bool * bool) (s : state)
  (o : outcome state) : Prop :=
  returns o = negb reached.2 ∧
  __data_item_change_count (state_of o) = __data_item_change_count s ∧
  __data_item_content_changed (state_of o) =
    __data_item_content_changed s || reached.1 ∧
  data_item_content_changed_events (state_of o) =
    data_item_content_changed_events s.

End DataItemChanges.

(** * DataItem: the data items of a data item *)

Module DataItemItems.
Section data_items.
Context {item : Type} `{EqDecision item} {Uuid : Type} `{EqDecision Uuid}.

(** [data_item.uuid] *)
Variable uuid : item → Uuid.

Record state : Type := MkState {
  __data_items : list item;
  data_item_uuids : list Uuid;
}.

(** [DataItem.__init__] *)
Definition __init__ : state :=
  {| __data_items := []; data_item_uuids := [] |}.

Definition insert_data_item (before_index : nat) (data_item : item)
  (s : state) : outcome state :=
  assert (negb (contains (__data_items s) data_item)) s >>> λ s,
  Returned
    {| __data_items :=
         list_insert_at before_index data_item (__data_items s);
       data_item_uuids :=
         list_insert_at before_index (uuid data_item) (data_item_uuids s) |}.

Definition append_data_item (data_item : item) (s : state) : outcome state :=
  insert_data_item (length (__data_items s)) data_item s.

Definition remove_data_item (data_item : item) (s : state) : outcome state :=
  match list_remove data_item (__data_items s) with
  | None => Raised s
  | Some data_items =>
    let s :=
      {| __data_items := data_items;
         data_item_uuids := data_item_uuids s |} in
    match list_remove (uuid data_item) (data_item_uuids s) with
    | None => Raised s
    | Some data_item_uuids =>
      Returned {| __data_items := data_items;
                  data_item_uuids := data_item_uuids |}
    end
  end.

Inductive request : Type :=
  | do_insert_data_item (before_index : nat) (data_item : item)
  | do_append_data_item (data_item : item)
  | do_remove_data_item (data_item : item).

Definition serve (r : request) (s : state) : outcome state :=
  match r with
  | do_insert_data_item before_index data_item =>
    insert_data_item before_index data_item s
  | do_append_data_item data_item => append_data_item data_item s
  | do_remove_data_item data_item => remove_data_item data_item s
  end.

Definition after (history : list request) : state :=
  foldl (λ s r, state_of (serve r s)) __init__ history.

End data_items.
End DataItemItems.

(** * DataItem: the date for sorting *)

Module Dates.

(** The two dates of a data source; a date is a number, [None] is
    Python's [None]. *)
Record data_source : Type := MkDataSource {
  source_data_modified : option Z;
  data_modified : option Z;
}.

(** The date [date_for_sorting] takes for a data source. *)
Definition date_of (created : Z) (s : data_source) : Z :=
  match source_data_modified s with
  | Some source_data_modified => source_data_modified
  | None =>
    match data_modified s with
    | Some data_modified => data_modified
    | None => created
    end
  end.

(** [max(l)] of a list that is not empty *)
Definition list_max (first : Z) (rest : list Z) : Z := foldl Z.max first rest.

(** [DataItem.date_for_sorting] *)
Definition date_for_sorting (created : Z) (data_sources : list data_source)
  : Z :=
  match date_of created <$> data_sources with
  | [] => created
  | first :: rest => list_max first rest
  end.

End Dates.

(** * DataItem: title, caption, flag and rating *)

Module Description.

(** What is stored under a key of the description: a number or a
    string. *)
Inductive value : Type := int (z : Z) | str (s : string).

(** The property [metadata]: a dict of dicts. *)
Definition metadata : Type := gmap string (gmap string value).

(** [metadata.setdefault("description", dict())[key] = v] *)
Definition set_description (key : string) (v : value) (m : metadata)
  : metadata :=
  <["description" := <[key := v]> (default ∅ (m !! "description"))]> m.

(** [metadata.get("description", dict()).get(key, otherwise)] *)
Definition get_description (key : string) (otherwise : value) (m : metadata)
  : value :=
  default otherwise (default ∅ (m !! "description") !! key).

Definition UNTITLED_STR : string := "Untitled".

Definition title (m : metadata) : value :=
  get_description "title" (str UNTITLED_STR) m.

(** The setters; [None] is Python's [None], and a string or a number is
    what [str(value)] and [int(value)] make of the value given. *)
Definition set_title (value : option string) (m : metadata) : metadata :=
  set_description "title" (str (default EmptyString value)) m.

Definition caption (m : metadata) : value :=
  get_description "caption" (str EmptyString) m.

Definition set_caption (value : option string) (m : metadata) : metadata :=
  set_description "caption" (str (default EmptyString value)) m.

Definition flag (m : metadata) : value := get_description "flag" (int 0) m.

Definition set_flag (value : Z) (m : metadata) : metadata :=
  set_description "flag" (int (Z.max (Z.min value 1) (-1))) m.

Definition rating (m : metadata) : value :=
  get_description "rating" (int 0) m.

Definition set_rating (value : Z) (m : metadata) : metadata :=
  set_description "rating" (int (Z.min (Z.max value 0) 5)) m.

Inductive request : Type :=
  | do_set_title (value : option string)
  | do_set_caption (value : option string)
  | do_set_flag (value : Z)
  | do_set_rating (value : Z).

Definition serve (r : request) (m : metadata) : metadata :=
  match r with
  | do_set_title value => set_title value m
  | do_set_caption value => set_caption value m
  | do_set_flag value => set_flag value m
  | do_set_rating value => set_rating value m
  end.

(** The metadata of a new data item after a history of requests. *)
Definition after (history : list request) : metadata :=
  foldl (λ m r, serve r m) ∅ history.

End Description.

(** * InspectorPanelBase *)

Module InspectorPanelBase.
Section inspector_panel.
Context {item : Type} `{EqDecision item}.

(** What the panel does with data item inspectors; an inspector is
    known by its number, the number of inspectors created before it. *)
Inductive call : Type :=
  | created (inspector : nat) (data_item : item)
  | closed (inspector : nat)
  | ticked (inspector : nat).

(** The fields of the panel; [column] holds the widgets of the
    inspectors that have been added to it, [calls] what
    [_create_data_item_inspector] has returned and what [close] and
    [periodic] have been called on, oldest first.
    [_create_data_item_inspector] is that of a subclass and returns a
    new inspector. *)
Record Panel : Type := MkPanel {
  __data_item : option item;
  __data_item_inspector : option nat;
  __update_data_item_changed : bool;
  __update_data_item_data_item : option item;
  column : list nat;
  created_count : nat;
  calls : list call;
  listening : bool;
  data_item_binding_closed : bool;
}.

(** [InspectorPanelBase.__init__] *)
Definition __init__ : Panel :=
  {| __data_item := None; __data_item_inspector := None;
     __update_data_item_changed := false;
     __update_data_item_data_item := None; column := [];
     created_count := 0; calls := []; listening := true;
     data_item_binding_closed := false |}.

Definition __update_data_item_inspector (p : Panel) : Panel :=
  let p :=
    match __data_item_inspector p with
    | Some inspector =>
      MkPanel (__data_item p) None (__update_data_item_changed p)
        (__update_data_item_data_item p)
        (filter (λ widget, widget ≠ inspector) (column p))
        (created_count p) (calls p ++ [closed inspector]) (listening p)
        (data_item_binding_closed p)
    | None => p
    end in
  match __data_item p with
  | Some data_item =>
    let inspector := created_count p in
    MkPanel (__data_item p) (Some inspector) (__update_data_item_changed p)
      (__update_data_item_data_item p) (column p ++ [inspector])
      (S (created_count p)) (calls p ++ [created inspector data_item])
      (listening p) (data_item_binding_closed p)
  | None => p
  end.

(** Setting the property [data_item] *)
Definition __set_data_item (data_item : option item) (p : Panel) : Panel :=
  if decide (__data_item p ≠ data_item) then
    __update_data_item_inspector
      (MkPanel data_item (__data_item_inspector p)
         (__update_data_item_changed p) (__update_data_item_data_item p)
         (column p) (created_count p) (calls p) (listening p)
         (data_item_binding_closed p))
  else p.

Definition data_item_binding_data_item_changed (data_item : option item)
  (p : Panel) : Panel :=
  MkPanel (__data_item p) (__data_item_inspector p) true data_item
    (column p) (created_count p) (calls p) (listening p)
    (data_item_binding_closed p).

Definition periodic (p : Panel) : Panel :=
  let p :=
    match __data_item_inspector p with
    | Some inspector =>
      MkPanel (__data_item p) (__data_item_inspector p)
        (__update_data_item_changed p) (__update_data_item_data_item p)
        (column p) (created_count p) (calls p ++ [ticked inspector])
        (listening p) (data_item_binding_closed p)
    | None => p
    end in
  let update_data_item_changed := __update_data_item_changed p in
  let data_item := __update_data_item_data_item p in
  let p :=
    MkPanel (__data_item p) (__data_item_inspector p) false None
      (column p) (created_count p) (calls p) (listening p)
      (data_item_binding_closed p) in
  if update_data_item_changed then
    if decide (__data_item p ≠ data_item) then __set_data_item data_item p
    else p
  else p.

Definition close (p : Panel) : Panel :=
  let p := data_item_binding_data_item_changed None p in
  let p :=
    MkPanel (__data_item p) (__data_item_inspector p)
      (__update_data_item_changed p) (__update_data_item_data_item p)
      (column p) (created_count p) (calls p) false true in
  let p := __set_data_item None p in
  match __data_item_inspector p with
  | Some inspector =>
    MkPanel (__data_item p) (__data_item_inspector p)
      (__update_data_item_changed p) (__update_data_item_data_item p)
      (column p) (created_count p) (calls p ++ [closed inspector])
      (listening p) (data_item_binding_closed p)
  | None => p
  end.

Inductive request : Type :=
  | do_set_data_item (data_item : option item)
  | do_data_item_binding_data_item_changed (data_item : option item)
  | do_periodic
  | do_close.

Definition serve (r : request) (p : Panel) : Panel :=
  match r with
  | do_set_data_item data_item => __set_data_item data_item p
  | do_data_item_binding_data_item_changed data_item =>
    data_item_binding_data_item_changed data_item p
  | do_periodic => periodic p
  | do_close => close p
  end.

Definition after (history : list request) : Panel :=
  foldl (λ p r, serve r p) __init__ history.

(** Checking a list of calls from the start: an inspector is created
    only while none is open and gets the next number, and only the open
    inspector is ticked or closed.  The result is the open inspector
    with its data item, if any, and the number of inspectors created;
    [None] when a call breaks the rule. *)
Definition check_call (c : call) (st : option (nat * item) * nat)
  : option (option (nat * item) * nat) :=
  match c, st with
  | created inspector data_item, (None, n) =>
    if decide (inspector = n) then Some (Some (inspector, data_item), S n)
    else None
  | created _ _, (Some _, _) => None
  | closed inspector, (Some (open, _), n) =>
    if decide (inspector = open) then Some (None, n) else None
  | ticked inspector, (Some (open, data_item), n) =>
    if decide (inspector = open) then Some (Some (open, data_item), n)
    else None
  | closed _, (None, _) | ticked _, (None, _) => None
  end.

Definition check_calls (log : list call)
  : option (option (nat * item) * nat) :=
  foldl (λ st c, st ≫= check_call c) (Some (None, 0%nat)) log.

End inspector_panel.
End InspectorPanelBase.

(** * DataItem: what it hears of the changes of a data source *)

Module DataItemSource.
Section data_item_source.
Context {Thread : Type} `{EqDecision Thread}.

(** [__insert_data_source] registers [data_item_changed] (lines
    1230-1233) with [data_source.data_item_changed_event]: the data item
    is called once for every time the data source fires the event;
    [fired] is how often that is. *)
Definition hear (_is_reading : bool) (fired : nat) (d : DataItem.DataItem)
  : DataItem.DataItem :=
  Nat.iter fired (λ d, state_of (DataItem.data_item_changed _is_reading d)) d.

(** What happens to a data item and a data source of it, here during a
    transaction: a property of the data item changes, or a caller does
    something to the data source while [self._is_reading] of the data
    item has the value given. *)
Inductive step : Type :=
  | do_property_changed
  | do_data_source (_is_reading : bool)
      (a : BufferedDataSourceChanges.action).

Definition serve (current_thread : Thread) (st : step)
  (ds : DataItem.DataItem * BufferedDataSourceChanges.state (Thread := Thread))
  : DataItem.DataItem * BufferedDataSourceChanges.state (Thread := Thread) :=
  match st with
  | do_property_changed => (state_of (DataItem.property_changed ds.1), ds.2)
  | do_data_source _is_reading a =>
    let s' := state_of (BufferedDataSourceChanges.run current_thread a ds.2) in
    (hear _is_reading
       (BufferedDataSourceChanges.data_item_changed_events s' -
        BufferedDataSourceChanges.data_item_changed_events ds.2) ds.1,
     s')
  end.

Definition run (current_thread : Thread) (steps : list step)
  (ds : DataItem.DataItem * BufferedDataSourceChanges.state (Thread := Thread))
  : DataItem.DataItem * BufferedDataSourceChanges.state (Thread := Thread) :=
  foldl (λ ds st, serve current_thread st ds) ds steps.

(** Whether a step changes a property, and whether it makes the data
    source fire its event while the data item is not reading. *)
Definition changes_property (st : step) : bool :=
  match st with
  | do_property_changed => true
  | do_data_source _ _ => false
  end.

Definition reports_change (st : step) : bool :=
  match st with
  | do_property_changed => false
  | do_data_source _is_reading a =>
    negb _is_reading && (BufferedDataSourceChanges.reach a).1
  end.

End data_item_source.
End DataItemSource.

(** * The pass when a listener raises *)

Module RaisingListeners.
Section pass.
Context `{Countable item}.

(** How the rounds of listener calls end.  [notified p] holds the
    rounds of the pass so far, the current one last, and
    [listeners_return (notified p)] tells whether in the current round
    every listener returns; when it is [false] a listener raises, the
    listeners after it are not called, and the exception leaves
    [_update_data_items], which catches nothing.  What a listener does
    may depend on everything it has been told before, hence the whole
    list.  Listeners still do not call back into the binding. *)
Variable listeners_return : list (notification (item := item)) → bool.

(** [for listener in listeners.values(): listener(data_item, index)] *)
Definition call_listeners (p : pass) : outcome pass :=
  if listeners_return (notified p) then Returned p else Raised p.

(** [del old_data_items[i]; del self.__data_items[i]] and then
    [remover(data_item, i)] for every remover. *)
Definition remove_at (data_item : item) (i : nat) (p : pass) : outcome pass :=
  match list_del (old_data_items p) i with
  | None => Raised p
  | Some old' =>
    match list_del (__data_items p) i with
    | None =>
      Raised {| index := index p; old_data_items := old';
                __data_items := __data_items p; notified := notified p |}
    | Some cur' =>
      call_listeners
        {| index := index p; old_data_items := old';
           __data_items := cur';
           notified := notified p ++
             [Notification (Event op_remove data_item i) cur'] |}
    end
  end.

(** [old_data_items.insert(i, data_item);
    self.__data_items.insert(i, data_item)] and then
    [inserter(data_item, i)] for every inserter. *)
Definition insert_at (data_item : item) (i : nat) (p : pass) : outcome pass :=
  let cur' := list_insert_at i data_item (__data_items p) in
  call_listeners
    {| index := index p;
       old_data_items := list_insert_at i data_item (old_data_items p);
       __data_items := cur';
       notified := notified p ++
         [Notification (Event op_insert data_item i) cur'] |}.

(** Lines 111-117. *)
Definition remove_stale (data_items : list item) (p : pass) : outcome pass :=
  match old_data_items p !! index p with
  | Some data_item_to_remove =>
    if contains data_items data_item_to_remove then Returned p
    else
      assert (contains (__data_items p) data_item_to_remove) p >>>
      remove_at data_item_to_remove (index p)
  | None => Returned p
  end.

(** Lines 119-140. *)
Definition place (data_item : item) (p : pass) : outcome pass :=
  match list_index data_item (old_data_items p) with
  | Some old_index =>
    assert (bool_decide (index p ≤ old_index)%nat) p >>> λ p,
    if bool_decide (index p < old_index)%nat then
      assert (contains (__data_items p) data_item) p >>>
      remove_at data_item old_index >>>
      assert_that (λ p, negb (contains (__data_items p) data_item)) >>>
      insert_at data_item (index p)
    else Returned p
  | None =>
    assert (negb (contains (__data_items p) data_item)) p >>>
    insert_at data_item (index p)
  end.

(** The body of [for data_item in data_items]. *)
Definition visit (data_items : list item) (p : pass) (data_item : item)
  : outcome pass :=
  remove_stale data_items p >>> place data_item >>> advance.

Fixpoint for_each (data_items todo : list item) (p : pass) : outcome pass :=
  match todo with
  | [] => Returned p
  | data_item :: todo' =>
    visit data_items p data_item >>> for_each data_items todo'
  end.

(** Lines 143-149. *)
Fixpoint drain_loop (rounds : nat) (p : pass) : outcome pass :=
  match rounds with
  | O => Returned p
  | S rounds' =>
    match old_data_items p !! index p with
    | Some data_item_to_remove =>
      assert (contains (__data_items p) data_item_to_remove) p >>>
      remove_at data_item_to_remove (index p) >>>
      drain_loop rounds'
    | None => Returned p
    end
  end.

Definition drain (p : pass) : outcome pass :=
  drain_loop (length (old_data_items p)) p.

(** Lines 108-149. *)
Definition reconcile (data_items : list item) (p : pass) : outcome pass :=
  for_each data_items data_items p >>> drain.

(** A pass [p] of listeners that raise against the pass [q] of
    listeners that return, both from the pass [start]: either every
    round of [q] returns and [p] returned as [q], or [p] raised in the
    first round of [q] that does not return, with the list of the
    binding and the rounds as [q] had them in that round. *)
Definition cut_short (start q : pass) (o : outcome pass) : Prop :=
  notified start `prefix_of` notified q ∧
  ((∀ k, (length (notified start) ≤ k < length (notified q))%nat →
         listeners_return (take (S k) (notified q)) = true) ∧
   o = Returned q
   ∨
   ∃ k n p,
     (length (notified start) ≤ k)%nat ∧ notified q !! k = Some n ∧
     (∀ j, (length (notified start) ≤ j < k)%nat →
           listeners_return (take (S j) (notified q)) = true) ∧
     listeners_return (take (S k) (notified q)) = false ∧
     o = Raised p ∧
     notified p = take (S k) (notified q) ∧
     __data_items p = note_data_items n).

Context {Sub Container : Type}.
Variable _get_master_data_items : Sub → list item.
Variable container : Sub → option Container.

(** [DataItemsBinding._update_data_items] *)
Definition _update_data_items (w : world item)
  (b : DataItemsBinding.Binding (item := item) (Sub := Sub)
         (Container := Container))
  : outcome (DataItemsBinding.Binding (item := item) (Sub := Sub)
               (Container := Container)) :=
  if bool_decide (DataItemsBinding.__change_level b > 0) then Returned b
  else
    let b := DataItemsBinding.count_pass b in
    match DataItemsBinding.sorted_master_data_items
            _get_master_data_items container w b with
    | None => Raised b
    | Some master_data_items =>
      let new_data_items := DataItemsBinding.expand w b master_data_items in
      assert (all_distinct (_get_master_data_items (DataItemsBinding.sub b)))
        b >>>
      assert (all_distinct master_data_items) >>>
      assert (all_distinct new_data_items) >>> λ b,
      match reconcile new_data_items
              (begin_pass (DataItemsBinding.data_items b)) with
      | Returned p => Returned (DataItemsBinding.end_pass b p)
      | Raised p => Raised (DataItemsBinding.end_pass b p)
      end
    end.

End pass.
End RaisingListeners.

(** * Facts about Counter *)

Section counter_facts.
Context `{Countable K}.
Implicit Types self other : gmap K Z.

Lemma lookup_update self other k :
  Counter.update self other !! k =
    match other !! k with
    | Some count => Some (count + default 0 (self !! k))
    | None => self !! k
    end.
Proof.
  unfold Counter.update. rewrite lookup_merge.
  destruct (self !! k), (other !! k); reflexivity.
Qed.

Lemma lookup_subtract self other k :
  Counter.subtract self other !! k =
    match other !! k with
    | Some count => Some (default 0 (self !! k) - count)
    | None => self !! k
    end.
Proof.
  unfold Counter.subtract. rewrite lookup_merge.
  destruct (self !! k), (other !! k); reflexivity.
Qed.

Lemma lookup_keep_positive self k :
  Counter._keep_positive self !! k =
    match self !! k with
    | Some v => if bool_decide (0 < v) then Some v else None
    | None => None
    end.
Proof.
  unfold Counter._keep_positive.
  destruct (self !! k) as [v|] eqn:E.
  - case_bool_decide.
    + apply map_lookup_filter_Some. done.
    + apply map_lookup_filter_None. right. intros v' E' Hv'.
      simpl in Hv'. congruence.
  - apply map_lookup_filter_None. left. done.
Qed.

Lemma iadd_empty self : Counter.__iadd__ self ∅ = Counter._keep_positive self.
Proof.
  unfold Counter.__iadd__. f_equal. apply map_eq. intros k.
  rewrite lookup_update, lookup_empty. reflexivity.
Qed.

(** [subtract] followed by [+= Counter()], the two lines of every
    subtracting method. *)
Lemma lookup_subtract_strip self other k :
  Counter.__iadd__ (Counter.subtract self other) ∅ !! k =
    match other !! k with
    | Some count =>
      if bool_decide (0 < default 0 (self !! k) - count)
      then Some (default 0 (self !! k) - count) else None
    | None =>
      match self !! k with
      | Some v => if bool_decide (0 < v) then Some v else None
      | None => None
      end
    end.
Proof.
  rewrite iadd_empty, lookup_keep_positive, lookup_subtract.
  destruct (other !! k); reflexivity.
Qed.

Lemma subtract_strip_positive self other k v :
  Counter.__iadd__ (Counter.subtract self other) ∅ !! k = Some v → 0 < v.
Proof.
  rewrite iadd_empty, lookup_keep_positive.
  destruct (Counter.subtract self other !! k) as [c|]; [|done].
  case_bool_decide; [|done]. intros [= <-]. done.
Qed.

End counter_facts.

(** * Facts about Python lists *)

Section pylist_facts.
Context {A : Type} `{EqDecision A}.
Implicit Types l pre t : list A.

Lemma list_del_Some l i x :
  l !! i = Some x → list_del l i = Some (delete i l).
Proof.
  intros Hl. unfold list_del. apply lookup_lt_Some in Hl.
  by rewrite decide_True.
Qed.

Lemma list_insert_at_middle pre t x :
  list_insert_at (length pre) x (pre ++ t) = pre ++ x :: t.
Proof.
  unfold list_insert_at. by rewrite take_app_length, drop_app_length.
Qed.

Lemma contains_true l x : contains l x = true ↔ x ∈ l.
Proof. unfold contains. apply bool_decide_eq_true. Qed.

Lemma contains_false l x : contains l x = false ↔ x ∉ l.
Proof. unfold contains. apply bool_decide_eq_false. Qed.

Lemma list_index_None l x : list_index x l = None ↔ x ∉ l.
Proof.
  unfold list_index. rewrite fmap_None, list_find_None, Forall_forall.
  split.
  - intros Hl Hx. by apply (Hl x).
  - intros Hx y Hy ->. done.
Qed.

Lemma list_index_Some l x i :
  list_index x l = Some i ↔
  l !! i = Some x ∧ ∀ j, (j < i)%nat → l !! j ≠ Some x.
Proof.
  unfold list_index. rewrite fmap_Some. split.
  - intros [[j y] [Hf ->]]. apply list_find_Some in Hf as (Hl & -> & Hmin).
    simpl. split; [done|]. intros j' Hj' Hl'. by apply (Hmin j' x).
  - intros [Hl Hmin]. exists (i, x). split; [|done].
    apply list_find_Some. split_and!; [done..|].
    intros j y Hj Hlt ->. by apply (Hmin j).
Qed.

(** The first position of an item that is not in [pre] lies in [t]. *)
Lemma list_index_app_r pre t x i :
  x ∉ pre → list_index x (pre ++ t) = Some i →
  ∃ k, i = (length pre + k)%nat ∧ t !! k = Some x.
Proof.
  intros Hx [Hl _]%list_index_Some.
  destruct (decide (i < length pre)%nat) as [Hlt|Hge].
  - rewrite lookup_app_l in Hl by done.
    destruct Hx. by eapply list_elem_of_lookup_2.
  - exists (i - length pre)%nat. split; [lia|].
    rewrite lookup_app_r in Hl by lia. done.
Qed.

Lemma delete_app_r pre t k :
  delete (length pre + k)%nat (pre ++ t) = pre ++ delete k t.
Proof.
  induction pre as [|a pre IH]; simpl; [done|]. by rewrite IH.
Qed.

End pylist_facts.

(** * Facts about the reconciliation pass *)

Section reconcile_facts.
Context `{Countable item}.
Implicit Types l start pre t todo : list item.
Implicit Types p : pass (item := item).
Implicit Types ns : list (notification (item := item)).

Lemma seen_app l ns1 ns2 : seen l (ns1 ++ ns2) = seen (seen l ns1) ns2.
Proof. unfold seen. by rewrite foldl_app. Qed.

Lemma lockstep_app l ns1 ns2 :
  lockstep l (ns1 ++ ns2) ↔ lockstep l ns1 ∧ lockstep (seen l ns1) ns2.
Proof.
  revert l. induction ns1 as [|n ns1 IH]; intros l; simpl.
  - tauto.
  - rewrite IH. unfold seen. simpl. tauto.
Qed.

Lemma lockstep_replay l ns :
  lockstep l ns → replay (note_event <$> ns) l = Some (seen l ns).
Proof.
  revert l. induction ns as [|n ns IH]; intros l; simpl; [done|].
  intros [-> Hns]. by apply IH.
Qed.

Lemma in_step_begin_pass l : in_step l (begin_pass l).
Proof. unfold in_step. split_and!; [done..|]. apply Forall_nil_2. Qed.

(** One more call keeps a pass in step when its event turns the list of
    the binding into the new one. *)
Lemma in_step_notify start p e l' i :
  in_step start p →
  apply_event e (__data_items p) = Some l' → NoDup l' →
  in_step start
    {| index := i; old_data_items := l'; __data_items := l';
       notified := notified p ++ [Notification e l'] |}.
Proof.
  intros (Hold & Hlock & Hseen & Hdistinct) He Hnd. unfold in_step. simpl.
  split_and!; [done| | |].
  - apply lockstep_app. split; [done|]. simpl. by rewrite Hseen.
  - by rewrite seen_app.
  - apply Forall_app. split; [done|]. by apply Forall_singleton.
Qed.

Lemma remove_at_in_step start p x i :
  in_step start p → NoDup (__data_items p) → __data_items p !! i = Some x →
  ∃ p', remove_at x i p = Returned p' ∧ in_step start p' ∧
        index p' = index p ∧ __data_items p' = delete i (__data_items p).
Proof.
  intros Hp Hnd Hx. pose proof Hp as (Hold & _). unfold remove_at.
  rewrite Hold, (list_del_Some _ _ _ Hx). eexists. split; [done|].
  split_and!; [|done..].
  apply in_step_notify; [done| |].
  - unfold apply_event. simpl. by rewrite decide_True.
  - eapply sublist_NoDup; [done|]. apply sublist_delete.
Qed.

Lemma insert_at_in_step start p x i :
  in_step start p → NoDup (__data_items p) → x ∉ __data_items p →
  (i ≤ length (__data_items p))%nat →
  ∃ p', insert_at x i p = Returned p' ∧ in_step start p' ∧
        index p' = index p ∧
        __data_items p' = list_insert_at i x (__data_items p).
Proof.
  intros Hp Hnd Hx Hi. pose proof Hp as (Hold & _). unfold insert_at.
  rewrite Hold. eexists. split; [done|]. split_and!; [|done..].
  apply in_step_notify; [done| |].
  - unfold apply_event. simpl. by rewrite decide_True.
  - unfold list_insert_at. rewrite <- Permutation_middle, take_drop.
    by apply NoDup_cons.
Qed.

Lemma advance_in_step start p :
  in_step start p →
  ∃ p', advance p = Returned p' ∧ in_step start p' ∧
        index p' = S (index p) ∧ __data_items p' = __data_items p.
Proof. intros Hp. eexists. split; [done|]. done. Qed.

(** Lines 111-117 on duplicate-free lists: at most the head of the rest
    goes. *)
Lemma remove_stale_in_step start new pre t p :
  in_step start p → index p = length pre → __data_items p = pre ++ t →
  NoDup (pre ++ t) →
  ∃ p' t', remove_stale new p = Returned p' ∧ in_step start p' ∧
           index p' = length pre ∧ __data_items p' = pre ++ t' ∧
           t' ⊆ t ∧ NoDup (pre ++ t').
Proof.
  intros Hp Hi Hl Hnd. pose proof Hp as (Hold & _). unfold remove_stale.
  rewrite Hold, Hl, Hi.
  destruct t as [|y t].
  - rewrite lookup_ge_None_2 by (rewrite length_app; simpl; lia).
    exists p, []. rewrite Hl. done.
  - rewrite list_lookup_middle by done.
    destruct (contains new y) eqn:Hy.
    + exists p, (y :: t). rewrite Hl. done.
    + assert (contains (pre ++ y :: t) y = true) as ->.
      { apply contains_true. set_solver. }
      unfold assert. simpl.
      destruct (remove_at_in_step start p y (length pre) Hp)
        as (p' & Hr & Hp' & Hi' & Hl').
      { by rewrite Hl. }
      { rewrite Hl. by apply list_lookup_middle. }
      exists p', t. rewrite Hr. split_and!; [done..| | | |].
      * congruence.
      * by rewrite Hl', Hl, delete_middle.
      * intros z Hz. by right.
      * apply NoDup_app in Hnd as (Hnd1 & Hnd2 & [_ Hnd3]%NoDup_cons).
        apply NoDup_app. split_and!; [done| |done].
        intros z Hz Hzt. apply (Hnd2 z Hz). by right.
Qed.


(** Lines 119-140 on duplicate-free lists: the new data item ends up at
    the current index, whether it was in the old list or not. *)
Lemma place_in_step start pre t x p :
  in_step start p → index p = length pre → __data_items p = pre ++ t →
  NoDup (pre ++ t) → x ∉ pre →
  ∃ p' t', place x p = Returned p' ∧ in_step start p' ∧
           index p' = length pre ∧ __data_items p' = pre ++ x :: t' ∧
           t' ⊆ t ∧ NoDup (pre ++ x :: t').
Proof.
  intros Hp Hi Hl Hnd Hx. pose proof Hp as (Hold & _). unfold place.
  rewrite Hold, Hl, Hi.
  destruct (list_index x (pre ++ t)) as [old_index|] eqn:Hfind.
  - destruct (list_index_app_r _ _ _ _ Hx Hfind) as (k & -> & Hk).
    rewrite bool_decide_eq_true_2 by lia. unfold assert at 1. simpl.
    rewrite Hi. case_bool_decide as Hlt.
    + (* remove at the old index, insert at the current one *)
      rewrite Hl.
      assert (contains (pre ++ t) x = true) as ->.
      { apply contains_true, elem_of_app. right.
        by eapply list_elem_of_lookup_2. }
      unfold assert at 1. simpl.
      destruct (remove_at_in_step start p x (length pre + k) Hp)
        as (p1 & -> & Hp1 & Hi1 & Hl1).
      { by rewrite Hl. }
      { rewrite Hl, lookup_app_r by lia.
        by replace (length pre + k - length pre)%nat with k by lia. }
      simpl. rewrite Hl, delete_app_r in Hl1.
      assert (x :: pre ++ delete k t ≡ₚ pre ++ t) as Hperm.
      { rewrite (delete_Permutation t k x Hk) at 2.
        by rewrite Permutation_middle. }
      assert (NoDup (x :: pre ++ delete k t)) as Hnd1 by by rewrite Hperm.
      apply NoDup_cons in Hnd1 as [Hx1 Hnd1].
      unfold assert_that, assert. rewrite Hl1.
      assert (contains (pre ++ delete k t) x = false) as ->
        by by apply contains_false.
      simpl.
      destruct (insert_at_in_step start p1 x (length pre) Hp1)
        as (p2 & -> & Hp2 & Hi2 & Hl2).
      { by rewrite Hl1. }
      { by rewrite Hl1. }
      { rewrite Hl1, length_app. lia. }
      exists p2, (delete k t). split_and!; [done..| | | |].
      * congruence.
      * by rewrite Hl2, Hl1, list_insert_at_middle.
      * apply list_subseteq_delete.
      * rewrite <- Permutation_middle. by apply NoDup_cons.
    + (* already in place *)
      assert (k = 0%nat) as -> by lia.
      destruct t as [|y t']; simplify_eq/=.
      exists p, t'. rewrite Hl. split_and!; [done..|set_solver|done].
  - apply list_index_None in Hfind.
    assert (contains (pre ++ t) x = false) as ->
      by by apply contains_false.
    unfold assert. simpl.
    destruct (insert_at_in_step start p x (length pre) Hp)
      as (p' & -> & Hp' & Hi' & Hl').
    { by rewrite Hl. }
    { by rewrite Hl. }
    { rewrite Hl, length_app. lia. }
    exists p', t. split_and!; [done..| | |done|].
    + congruence.
    + by rewrite Hl', Hl, list_insert_at_middle.
    + rewrite <- Permutation_middle. by apply NoDup_cons.
Qed.

(** One round of the loop over the new list. *)
Lemma visit_in_step start new pre t x p :
  in_step start p → index p = length pre → __data_items p = pre ++ t →
  NoDup (pre ++ t) → x ∉ pre →
  ∃ p' t', visit new p x = Returned p' ∧ in_step start p' ∧
           index p' = length (pre ++ [x]) ∧
           __data_items p' = (pre ++ [x]) ++ t' ∧
           t' ⊆ t ∧ NoDup ((pre ++ [x]) ++ t').
Proof.
  intros Hp Hi Hl Hnd Hx. unfold visit.
  destruct (remove_stale_in_step start new pre t p Hp Hi Hl Hnd)
    as (p1 & t1 & -> & Hp1 & Hi1 & Hl1 & Hsub1 & Hnd1).
  simpl.
  destruct (place_in_step start pre t1 x p1 Hp1 Hi1 Hl1 Hnd1 Hx)
    as (p2 & t2 & -> & Hp2 & Hi2 & Hl2 & Hsub2 & Hnd2).
  simpl.
  destruct (advance_in_step start p2 Hp2) as (p3 & -> & Hp3 & Hi3 & Hl3).
  exists p3, t2. rewrite <- !(assoc_L (++)). simpl.
  split_and!; [done..| | | |done].
  - rewrite Hi3, Hi2, length_app. simpl. lia.
  - congruence.
  - set_solver.
Qed.

(** The loop over the new list puts the new list in front. *)
Lemma for_each_in_step start new todo : ∀ pre t p,
  in_step start p → index p = length pre → __data_items p = pre ++ t →
  NoDup (pre ++ t) → NoDup (pre ++ todo) →
  ∃ p' t', for_each new todo p = Returned p' ∧ in_step start p' ∧
           index p' = length (pre ++ todo) ∧
           __data_items p' = (pre ++ todo) ++ t' ∧ t' ⊆ t ∧
           NoDup ((pre ++ todo) ++ t').
Proof.
  induction todo as [|x todo IH]; intros pre t p Hp Hi Hl Hnd Hnew; simpl.
  - exists p, t. rewrite (right_id_L [] (++)). done.
  - assert (x ∉ pre) as Hx.
    { apply NoDup_app in Hnew as (_ & Hnew & _). intros Hin.
      apply (Hnew x Hin). set_solver. }
    destruct (visit_in_step start new pre t x p Hp Hi Hl Hnd Hx)
      as (p1 & t1 & -> & Hp1 & Hi1 & Hl1 & Hsub1 & Hnd1).
    simpl.
    destruct (IH (pre ++ [x]) t1 p1 Hp1 Hi1 Hl1 Hnd1)
      as (p2 & t2 & -> & Hp2 & Hi2 & Hl2 & Hsub2 & Hnd2).
    { by rewrite <- (assoc_L (++)). }
    exists p2, t2.
    replace (pre ++ x :: todo) with ((pre ++ [x]) ++ todo)
      by (by rewrite <- (assoc_L (++))).
    split_and!; [done..| |done].
    intros z Hz. by apply Hsub1, Hsub2.
Qed.

(** Lines 143-149: enough rounds remove whatever follows the new list,
    and the loop ends because its condition fails. *)
Lemma drain_loop_in_step start pre : ∀ t rounds p,
  in_step start p → index p = length pre → __data_items p = pre ++ t →
  NoDup (pre ++ t) → (length t ≤ rounds)%nat →
  ∃ p', drain_loop rounds p = Returned p' ∧ in_step start p' ∧
        index p' = length pre ∧ __data_items p' = pre ∧
        old_data_items p' !! index p' = None.
Proof.
  induction t as [|y t IH]; intros rounds p Hp Hi Hl Hnd Hr.
  - pose proof Hp as (Hold & _).
    assert (old_data_items p !! index p = None) as Hnone.
    { rewrite Hold, Hl, Hi, (right_id_L [] (++)).
      by apply lookup_ge_None_2. }
    exists p. rewrite (right_id_L [] (++)) in Hl.
    split_and!; [|done..].
    destruct rounds; simpl; [done|]. by rewrite Hnone.
  - destruct rounds as [|rounds]; simpl in Hr; [lia|]. simpl.
    pose proof Hp as (Hold & _).
    rewrite Hold, Hl, Hi, list_lookup_middle by done.
    assert (contains (pre ++ y :: t) y = true) as ->.
    { apply contains_true. set_solver. }
    unfold assert at 1. simpl.
    destruct (remove_at_in_step start p y (length pre) Hp)
      as (p1 & -> & Hp1 & Hi1 & Hl1).
    { by rewrite Hl. }
    { rewrite Hl. by apply list_lookup_middle. }
    simpl. rewrite Hl, delete_middle in Hl1.
    apply (IH rounds p1); [done|congruence|done| |lia].
    apply NoDup_app in Hnd as (Hnd1 & Hnd2 & [_ Hnd3]%NoDup_cons).
    apply NoDup_app. split_and!; [done| |done].
    intros z Hz Hzt. apply (Hnd2 z Hz). by right.
Qed.


(** Lines 108-149 on duplicate-free lists. *)
Lemma reconcile_in_step old_list new_list :
  NoDup old_list → NoDup new_list →
  ∃ p, reconcile new_list (begin_pass old_list) = Returned p ∧
       in_step old_list p ∧ __data_items p = new_list ∧
       index p = length new_list ∧
       old_data_items p !! index p = None.
Proof.
  intros Hold Hnew. unfold reconcile.
  destruct (for_each_in_step old_list new_list new_list [] old_list
              (begin_pass old_list))
    as (p1 & t1 & -> & Hp1 & Hi1 & Hl1 & _ & Hnd1);
    [by apply in_step_begin_pass|done..|].
  simpl in *. unfold drain.
  destruct (drain_loop_in_step old_list new_list t1
              (length (old_data_items p1)) p1)
    as (p2 & -> & Hp2 & Hi2 & Hl2 & Hend); [done..| |by exists p2].
  destruct Hp1 as (-> & _). rewrite Hl1, length_app. lia.
Qed.

End reconcile_facts.

(** * The sort and the proposed list on examples *)

Example list_sort_is_stable :
  list_sort (λ x : Z * Z, x.1) false [(2, 0); (1, 1); (2, 2); (1, 3)] =
    [(1, 1); (1, 3); (2, 0); (2, 2)].
Proof. reflexivity. Qed.

Example list_sort_reverse_is_stable :
  list_sort (λ x : Z * Z, x.1) true [(2, 0); (1, 1); (2, 2); (1, 3)] =
    [(2, 0); (2, 2); (1, 1); (1, 3)].
Proof. reflexivity. Qed.

(** The scenario of the specification: master list [1, 2, 3], the filter
    excludes 3; the list settles as [1, 2] with two insertions, and a
    redundant call of the pass changes nothing and tells nobody. *)
Example filtered_scenario :
  let w := World (λ _ : Z, true) (λ _, []) in
  let b := DataItemsFilterBinding.after (Some ())
    [(DataItemsFilterBinding.base
        (DataItemsBinding.do_set_filter
           (Some (λ x, bool_decide (x ≠ 3)))), w);
     (DataItemsFilterBinding.base DataItemsBinding.do_begin_change, w);
     (DataItemsFilterBinding.do_data_item_inserted 1 0, w);
     (DataItemsFilterBinding.do_data_item_inserted 2 1, w);
     (DataItemsFilterBinding.do_data_item_inserted 3 2, w);
     (DataItemsFilterBinding.base DataItemsBinding.do_end_change, w)] in
  let b' := state_of (DataItemsFilterBinding._update_data_items (Some ()) w b)
  in
  DataItemsBinding.data_items b = [1; 2] ∧
  note_event <$> DataItemsBinding.notifications b =
    [Event op_insert 1 0; Event op_insert 2 1] ∧
  DataItemsBinding.passes b = 2%nat ∧
  DataItemsBinding.data_items b' = [1; 2] ∧
  DataItemsBinding.notifications b' = DataItemsBinding.notifications b.
Proof. vm_compute. split_and!; reflexivity. Qed.

(** * Facts about the bindings *)

Section binding_facts.
Context `{Countable item}.
Context {Sub Container : Type}.
Variable _get_master_data_items : Sub → list item.
Variable container : Sub → option Container.
Import DataItemsBinding.
Local Abbreviation Binding :=
  (DataItemsBinding.Binding (item := item) (Sub := Sub)
     (Container := Container)).
Local Abbreviation _update_data_items :=
  (DataItemsBinding._update_data_items _get_master_data_items container).
Implicit Types b : Binding.

(** A call that returns at once, or a pass: what a pass leaves alone. *)
Lemma _update_data_items_frame w b :
  let b' := state_of (_update_data_items w b) in
  sub b' = sub b ∧ __change_level b' = __change_level b ∧
  __filter b' = __filter b ∧ __sort b' = __sort b ∧
  passes b' = (if bool_decide (__change_level b > 0) then passes b
               else S (passes b)).
Proof.
  unfold DataItemsBinding._update_data_items. case_bool_decide; [done|].
  destruct (sorted_master_data_items _ _ _ _) as [master|]; [|done].
  unfold assert.
  repeat (match goal with |- context [if ?c then _ else _] => destruct c end;
    simpl; [|done]).
  by destruct (reconcile _ _).
Qed.

(** A pass that gets to line 108 with a duplicate-free list ends with
    the proposed list, and its listeners never find an item twice. *)
Lemma _update_data_items_data_items w b :
  distinct b → distinct (state_of (_update_data_items w b)).
Proof.
  intros [Hnd Hseen]. unfold DataItemsBinding._update_data_items.
  case_bool_decide; [done|].
  destruct (sorted_master_data_items _ _ _ _) as [master|]; [|done].
  unfold assert.
  do 2 (match goal with |- context [if ?c then _ else _] => destruct c end;
    simpl; [|done]).
  destruct (all_distinct (expand _ _ _)) eqn:Hnew; simpl; [|done].
  apply bool_decide_eq_true in Hnew.
  destruct (reconcile_in_step _ _ Hnd Hnew)
    as (p & -> & (_ & _ & _ & Hdistinct) & Hp & _).
  split; simpl; [by rewrite Hp|]. by apply Forall_app.
Qed.


Lemma sub_method_data_items change w b :
  distinct b →
  distinct
    (state_of (sub_method _get_master_data_items container change w b)).
Proof.
  intros Hnd. unfold sub_method. destruct (change (sub b)); [|done].
  by apply _update_data_items_data_items.
Qed.

Lemma sub_method_frame change w b :
  let b' :=
    state_of (sub_method _get_master_data_items container change w b) in
  __change_level b' = __change_level b ∧
  passes b' = (if returns (change (sub b)) &&
                  negb (bool_decide (__change_level b > 0))
               then S (passes b) else passes b).
Proof.
  unfold sub_method. destruct (change (sub b)) as [s|s]; simpl; [|done].
  destruct (_update_data_items_frame w (set_sub s b)) as (_ & -> & _ & _ & ->).
  simpl. by case_bool_decide.
Qed.

Lemma serve_data_items r w b :
  distinct b →
  distinct (state_of (serve _get_master_data_items container r w b)).
Proof.
  intros Hnd. destruct r; simpl; [done| ..].
  - unfold end_change. case_bool_decide; [|done].
    by apply _update_data_items_data_items.
  - by apply _update_data_items_data_items.
  - by apply _update_data_items_data_items.
  - by apply _update_data_items_data_items.
Qed.

(** [begin_change] and [end_change]: the change level and the passes. *)
Lemma begin_change_spec b :
  ∃ b', begin_change b = Returned b' ∧
        __change_level b' = __change_level b + 1 ∧ passes b' = passes b ∧
        data_items b' = data_items b ∧ sub b' = sub b.
Proof. by eexists. Qed.

Lemma end_change_spec w b :
  let b' := state_of (end_change _get_master_data_items container w b) in
  __change_level b' = __change_level b - 1 ∧
  passes b' = (if bool_decide (__change_level b - 1 = 0)
               then S (passes b) else passes b).
Proof.
  unfold end_change. simpl. case_bool_decide as Hz; [|done].
  destruct (_update_data_items_frame w
              (set_change_level (__change_level b - 1) b))
    as (_ & -> & _ & _ & ->).
  simpl. rewrite bool_decide_eq_false_2 by lia. done.
Qed.

End binding_facts.

Section concrete_binding_facts.
Context `{Countable item}.

Lemma container_binding_serve_data_items {ContainerObject}
  (counted_data_items : ContainerObject → gmap item Z) r (w : world item) b :
  DataItemsBinding.distinct b →
  DataItemsBinding.distinct
    (state_of (DataItemsInContainerBinding.serve counted_data_items r w b)).
Proof.
  intros Hnd. destruct r as [r|counted|counted|c]; simpl.
  - by apply serve_data_items.
  - by apply sub_method_data_items.
  - by apply sub_method_data_items.
  - unfold DataItemsInContainerBinding.__set_container.
    set (o1 := match DataItemsInContainerBinding.__container _ with
               | Some _ => _ | None => _ end).
    assert (DataItemsBinding.distinct (state_of o1)) as Hnd1.
    { subst o1. destruct (DataItemsInContainerBinding.__container _);
        [|done]. by apply sub_method_data_items. }
    destruct o1 as [b1|b1]; simpl in *; [|done].
    destruct c; simpl; [|done]. by apply sub_method_data_items.
Qed.

Lemma filter_binding_serve_data_items {Container}
  (inherited_container : option Container) r (w : world item) b :
  DataItemsBinding.distinct b →
  DataItemsBinding.distinct
    (state_of (DataItemsFilterBinding.serve inherited_container r w b)).
Proof.
  intros Hnd. destruct r; simpl.
  - by apply serve_data_items.
  - by apply sub_method_data_items.
  - by apply sub_method_data_items.
Qed.

(** C2. In every state a binding can be in, after any history of
    requests (counted insertions and subtractions, changes of the
    container, of the filter and of the sort, insertions and removals
    reported to a filter binding, begin and end of changes, and direct
    calls of the pass) served from the freshly initialised binding, also
    when some of them raised, the list of the binding contains no item
    twice; nor did it at any of the listener calls made on the way. *)
Theorem data_items_never_repeat :
  (∀ (ContainerObject : Type)
     (counted_data_items : ContainerObject → gmap item Z) history,
     let b := DataItemsInContainerBinding.after counted_data_items history in
     NoDup (DataItemsBinding.data_items b) ∧
     seen_distinct (DataItemsBinding.notifications b)) ∧
  (∀ (Container : Type) (inherited_container : option Container)
     (history : list (_ * world item)),
     let b := DataItemsFilterBinding.after inherited_container history in
     NoDup (DataItemsBinding.data_items b) ∧
     seen_distinct (DataItemsBinding.notifications b)).
Proof.
  split.
  - intros C counted history.
    unfold DataItemsInContainerBinding.after.
    induction history as [|[r w] history IH] using rev_ind.
    + split; [apply NoDup_nil_2|apply Forall_nil_2].
    + rewrite foldl_app. simpl.
      by apply container_binding_serve_data_items.
  - intros C inherited history.
    unfold DataItemsFilterBinding.after.
    induction history as [|[r w] history IH] using rev_ind.
    + split; [apply NoDup_nil_2|apply Forall_nil_2].
    + rewrite foldl_app. simpl.
      by apply filter_binding_serve_data_items.
Qed.

End concrete_binding_facts.

(** * The reconciliation pass: what the specification claims *)

Section pass_theorems.
Context `{Countable item}.
Implicit Types p : pass (item := item).

(** C1. For duplicate-free lists [old_list] and [new_list], lines 108-149
    started on [old_list] return; the events they emit, replayed from
    left to right against [old_list], give exactly [new_list]; every
    listener call finds the list of the binding equal to the list of the
    call before with its own event applied, and without an item twice;
    and at the end the list of the binding and the working copy are
    [new_list]. *)
Theorem reconcile_replays_to_new_list (old_list new_list : list item) :
  NoDup old_list → NoDup new_list →
  ∃ p, reconcile new_list (begin_pass old_list) = Returned p ∧
       replay (events p) old_list = Some new_list ∧
       lockstep old_list (notified p) ∧
       seen old_list (notified p) = new_list ∧
       seen_distinct (notified p) ∧
       __data_items p = new_list ∧
       old_data_items p = new_list.
Proof.
  intros Hold Hnew.
  destruct (reconcile_in_step old_list new_list Hold Hnew)
    as (p & Hp & (Hagree & Hlock & Hseen & Hdistinct) & Hl & _).
  exists p. split_and!; [done| |done|congruence|done|done|congruence].
  unfold events. rewrite (lockstep_replay _ _ Hlock). congruence.
Qed.

(** C3, as the code has it. Lines 111-117 are a single [if]: when the
    working copy and the list of the binding agree, they remove the old
    item at the current index from both, with one call of the removers,
    if there is one and it is absent from the new list, and do nothing
    otherwise; they never remove a second item at the same index. *)
Theorem remove_stale_removes_at_most_one (data_items : list item) p :
  old_data_items p = __data_items p →
  remove_stale data_items p = Returned
    match old_data_items p !! index p with
    | Some data_item_to_remove =>
      if contains data_items data_item_to_remove then p
      else {| index := index p;
              old_data_items := delete (index p) (old_data_items p);
              __data_items := delete (index p) (__data_items p);
              notified := notified p ++
                [Notification (Event op_remove data_item_to_remove (index p))
                   (delete (index p) (__data_items p))] |}
    | None => p
    end.
Proof.
  intros Hagree. unfold remove_stale.
  destruct (old_data_items p !! index p) as [y|] eqn:Hy; [|done].
  destruct (contains data_items y); [done|].
  assert (contains (__data_items p) y = true) as ->.
  { apply contains_true. rewrite <- Hagree.
    by eapply list_elem_of_lookup_2. }
  unfold assert. simpl. unfold remove_at.
  rewrite (list_del_Some _ _ _ Hy).
  rewrite Hagree in Hy. by rewrite (list_del_Some _ _ _ Hy).
Qed.

(** C4, as the code has it. From the old list [A, B, C] to the new list
    [B, A, C] the pass calls the removers with [(B, 1)] and then the
    inserters with [(B, 0)], and nothing else; the list of the binding
    ends as [B, A, C] and no event names [C] (or [A]). *)
Theorem move_is_remove_then_insert_of_B (A B C : item) :
  A ≠ B → A ≠ C → B ≠ C →
  ∃ p, reconcile [B; A; C] (begin_pass [A; B; C]) = Returned p ∧
       events p = [Event op_remove B 1; Event op_insert B 0] ∧
       __data_items p = [B; A; C] ∧
       ∀ e, e ∈ events p → ev_item e ≠ C ∧ ev_item e ≠ A.
Proof.
  intros HAB HAC HBC.
  assert (list_index B [A; B; C] = Some 1%nat) as HiB.
  { apply list_index_Some. split; [done|].
    intros [|j] Hj; [simpl; congruence|lia]. }
  assert (list_index A [B; A; C] = Some 1%nat) as HiA.
  { apply list_index_Some. split; [done|].
    intros [|j] Hj; [simpl; congruence|lia]. }
  assert (list_index C [B; A; C] = Some 2%nat) as HiC.
  { apply list_index_Some. split; [done|].
    intros [|[|j]] Hj; [simpl; congruence..|lia]. }
  assert (contains [B; A; C] A = true) as HcA
    by (apply contains_true; repeat constructor).
  assert (contains [B; A; C] B = true) as HcB
    by (apply contains_true; repeat constructor).
  assert (contains [B; A; C] C = true) as HcC
    by (apply contains_true; repeat constructor).
  assert (contains [A; B; C] B = true) as HcB'
    by (apply contains_true; repeat constructor).
  assert (contains [A; C] B = false) as HcB''.
  { apply contains_false. intros Hin.
    apply elem_of_cons in Hin as [?|Hin]; [congruence|].
    apply list_elem_of_singleton in Hin. congruence. }
  eexists. split_and!.
  - unfold reconcile, for_each, visit.
    unfold remove_stale at 1. simpl. rewrite HcA. simpl.
    unfold place at 1. simpl. rewrite HiB. simpl. rewrite HcB'. simpl.
    unfold assert_that. simpl. rewrite HcB''. simpl.
    unfold list_insert_at. simpl.
    unfold remove_stale at 1. simpl. rewrite HcA. simpl.
    unfold place at 1. simpl. rewrite HiA. simpl.
    unfold remove_stale at 1. simpl. rewrite HcC. simpl.
    unfold place at 1. simpl. rewrite HiC. simpl.
    reflexivity.
  - reflexivity.
  - reflexivity.
  - intros e He. unfold events in He. simpl in He.
    apply elem_of_cons in He as [->|He]; [done|].
    apply list_elem_of_singleton in He as ->. done.
Qed.

End pass_theorems.

Lemma reconcile_replays_to_new_list_witness :
  NoDup [1; 2; 3]%nat ∧ NoDup [3; 1; 4]%nat ∧
  ∃ p, reconcile [3; 1; 4]%nat (begin_pass [1; 2; 3]%nat) = Returned p ∧
       replay (events p) [1; 2; 3]%nat = Some [3; 1; 4]%nat ∧
       lockstep [1; 2; 3]%nat (notified p) ∧
       seen [1; 2; 3]%nat (notified p) = [3; 1; 4]%nat ∧
       seen_distinct (notified p) ∧
       __data_items p = [3; 1; 4]%nat ∧
       old_data_items p = [3; 1; 4]%nat.
Proof.
  assert (NoDup [1; 2; 3]%nat) as H1 by compute_done.
  assert (NoDup [3; 1; 4]%nat) as H2 by compute_done.
  split; [exact H1|]. split; [exact H2|].
  exact (reconcile_replays_to_new_list [1; 2; 3]%nat [3; 1; 4]%nat H1 H2).
Defined.


(** C3 as stated fails. Old list [1, 2, 10], new list [10]: after lines
    111-117 at index 0 the item 2, absent from the new list, sits at
    index 0, where the loop of the specification would have removed it;
    the code removes it only after 10 has been placed. *)
Lemma remove_stale_is_not_a_loop :
  let p := state_of (remove_stale [10] (begin_pass [1; 2; 10])) in
  (old_data_items p !! index p = Some 2 ∧ 2 ∉ [10]) ∧
  remove_stale [10] (begin_pass [1; 2; 10]) ≠
    remove_stale_as_specified [10] (begin_pass [1; 2; 10]) ∧
  events (state_of (reconcile [10] (begin_pass [1; 2; 10]))) =
    [Event op_remove 1 0; Event op_remove 10 1; Event op_insert 10 0;
     Event op_remove 2 1].
Proof.
  split_and!.
  - reflexivity.
  - intros Hin. apply list_elem_of_singleton in Hin. discriminate.
  - vm_compute. discriminate.
  - reflexivity.
Qed.

Lemma remove_stale_removes_at_most_one_witness :
  remove_stale [10] (begin_pass [1; 2; 10]) = Returned
    {| index := 0; old_data_items := [2; 10]; __data_items := [2; 10];
       notified := [Notification (Event op_remove 1 0) [2; 10]] |}.
Proof.
  exact (remove_stale_removes_at_most_one [10] (begin_pass [1; 2; 10])
           eq_refl).
Defined.

(** C4 as stated fails. Old list [1, 2, 3], new list [2, 1, 3]: the
    events are remove(2, 1) and insert(2, 0), not remove(1, 0) and
    insert(1, 1); so too when the new list comes from a change of the
    sort of a filter binding whose list is [1, 2, 3]. *)
Lemma move_is_not_remove_then_insert_of_A :
  events (state_of (reconcile [2; 1; 3] (begin_pass [1; 2; 3]))) ≠
    [Event op_remove 1 0; Event op_insert 1 1] ∧
  let w := World (λ _, true) (λ _, []) in
  let b := DataItemsFilterBinding.after (Some ())
    [(DataItemsFilterBinding.do_data_item_inserted 1 0, w);
     (DataItemsFilterBinding.do_data_item_inserted 2 1, w);
     (DataItemsFilterBinding.do_data_item_inserted 3 2, w)] in
  let sort := λ _ : (), (λ x : Z, if bool_decide (x = 2) then 0 else x, false) in
  let b' := state_of (DataItemsFilterBinding.serve (Some ())
    (DataItemsFilterBinding.base (DataItemsBinding.do_set_sort (Some sort)))
    w b) in
  DataItemsBinding.data_items b = [1; 2; 3] ∧
  DataItemsBinding.data_items b' = [2; 1; 3] ∧
  note_event <$> DataItemsBinding.notifications b' =
    (note_event <$> DataItemsBinding.notifications b) ++
    [Event op_remove 2 1; Event op_insert 2 0].
Proof.
  split; [vm_compute; discriminate|]. vm_compute. done.
Qed.

Lemma move_is_remove_then_insert_of_B_witness :
  ∃ p, reconcile [2; 1; 3] (begin_pass [1; 2; 3]) = Returned p ∧
       events p = [Event op_remove 2 1; Event op_insert 2 0] ∧
       __data_items p = [2; 1; 3] ∧
       ∀ e, e ∈ events p → ev_item e ≠ 3 ∧ ev_item e ≠ 1.
Proof.
  apply (move_is_remove_then_insert_of_B 1 2 3); lia.
Defined.

(** * Batching of changes *)

Section batching.
Context `{Countable item}.

(** Inside a change scope a counted delta changes the counter only. *)
Lemma deliver_in_scope {ContainerObject} d (w : world item)
  (b : DataItemsInContainerBinding.Binding
         (ContainerObject := ContainerObject)) :
  DataItemsBinding.__change_level b > 0 →
  ∃ b', DataItemsInContainerBinding.deliver d w b = Returned b' ∧
        DataItemsBinding.__change_level b' = DataItemsBinding.__change_level b ∧
        DataItemsBinding.passes b' = DataItemsBinding.passes b ∧
        DataItemsBinding.data_items b' = DataItemsBinding.data_items b ∧
        DataItemsBinding.notifications b' = DataItemsBinding.notifications b.
Proof.
  intros Hlevel.
  destruct d as [counted|counted]; simpl;
    unfold DataItemsInContainerBinding.update_counted_data_items,
      DataItemsInContainerBinding.subtract_counted_data_items,
      DataItemsBinding.sub_method, DataItemsBinding._update_data_items;
    simpl; rewrite bool_decide_eq_true_2 by done; by eexists.
Qed.

(** C5. [begin_change] adds one to the change level and runs no pass;
    [end_change] takes one off and runs the pass once exactly when the
    level is then zero; and three counted deltas delivered one after the
    other inside one [changes()] scope, entered at level zero, run one
    pass in all, the one of the [end_change] that closes the scope. *)
Theorem changes_scope_runs_one_pass :
  (∀ (Sub Container : Type)
     (b : DataItemsBinding.Binding (item := item) (Sub := Sub)
            (Container := Container)),
     ∃ b', DataItemsBinding.begin_change b = Returned b' ∧
           DataItemsBinding.__change_level b' =
             DataItemsBinding.__change_level b + 1 ∧
           DataItemsBinding.passes b' = DataItemsBinding.passes b) ∧
  (∀ (Sub Container : Type) (_get_master_data_items : Sub → list item)
     (container : Sub → option Container) (w : world item) b,
     let b' := state_of (DataItemsBinding.end_change
                 _get_master_data_items container w b) in
     DataItemsBinding.__change_level b' =
       DataItemsBinding.__change_level b - 1 ∧
     DataItemsBinding.passes b' =
       if bool_decide (DataItemsBinding.__change_level b - 1 = 0)
       then S (DataItemsBinding.passes b)
       else DataItemsBinding.passes b) ∧
  (∀ (ContainerObject : Type) d1 d2 d3 (w1 w2 w3 w : world item)
     (b : DataItemsInContainerBinding.Binding
            (ContainerObject := ContainerObject)),
     DataItemsBinding.__change_level b = 0 →
     let b' := state_of (DataItemsBinding.changes
       DataItemsInContainerBinding._get_master_data_items
       DataItemsInContainerBinding.container w
       (λ b, DataItemsInContainerBinding.deliver d1 w1 b >>>
             DataItemsInContainerBinding.deliver d2 w2 >>>
             DataItemsInContainerBinding.deliver d3 w3) b) in
     DataItemsBinding.passes b' = S (DataItemsBinding.passes b) ∧
     DataItemsBinding.__change_level b' = 0).
Proof.
  split_and!.
  - intros. by eexists.
  - intros. apply end_change_spec.
  - intros C d1 d2 d3 w1 w2 w3 w b Hlevel.
    unfold DataItemsBinding.changes, DataItemsBinding.begin_change.
    simpl.
    set (b0 := DataItemsBinding.set_change_level _ b).
    assert (DataItemsBinding.__change_level b0 = 1) as Hb0
      by (subst b0; simpl; lia).
    destruct (deliver_in_scope d1 w1 b0)
      as (b1 & -> & Hl1 & Hp1 & _); [lia|]. cbn [and_then].
    destruct (deliver_in_scope d2 w2 b1)
      as (b2 & -> & Hl2 & Hp2 & _); [lia|]. cbn [and_then].
    destruct (deliver_in_scope d3 w3 b2)
      as (b3 & -> & Hl3 & Hp3 & _); [lia|].
    destruct (end_change_spec
      DataItemsInContainerBinding._get_master_data_items
      DataItemsInContainerBinding.container w b3) as [-> ->].
    rewrite bool_decide_eq_true_2 by lia.
    split; [|lia]. subst b0. simpl in *. congruence.
Qed.

End batching.

Lemma changes_scope_runs_one_pass_witness :
  let w := World (λ _ : nat, true) (λ _, []) in
  let b := DataItemsInContainerBinding.__init__ (ContainerObject := unit) in
  DataItemsBinding.__change_level b = 0 ∧
  DataItemsBinding.passes (state_of (DataItemsBinding.changes
    DataItemsInContainerBinding._get_master_data_items
    DataItemsInContainerBinding.container w
    (λ b, DataItemsInContainerBinding.deliver
            (DataItemsInContainerBinding.added {[1%nat := 1]}) w b >>>
          DataItemsInContainerBinding.deliver
            (DataItemsInContainerBinding.added {[2%nat := 1]}) w >>>
          DataItemsInContainerBinding.deliver
            (DataItemsInContainerBinding.subtracted {[1%nat := 1]}) w) b))
  = 1%nat.
Proof.
  split; [reflexivity|].
  apply (proj2 (proj2 changes_scope_runs_one_pass) unit _ _ _ _ _ _ _
           (DataItemsInContainerBinding.__init__ (ContainerObject := unit))).
  reflexivity.
Defined.

(** * The counted aggregates *)

Section aggregate.
Context `{Countable item}.

(** What [_update_data_items] leaves of the subclass fields. *)
Lemma sub_method_sub {Sub Container} (_get_master_data_items : Sub → list item)
  (container : Sub → option Container) change (w : world item) b :
  DataItemsBinding.sub (state_of (DataItemsBinding.sub_method
    _get_master_data_items container change w b)) =
  state_of (change (DataItemsBinding.sub b)).
Proof.
  unfold DataItemsBinding.sub_method.
  destruct (change (DataItemsBinding.sub b)) as [s|s]; simpl; [|done].
  by destruct (_update_data_items_frame _get_master_data_items container w
                 (DataItemsBinding.set_sub s b)) as (-> & _).
Qed.

(** C8. After [subtract_counted_data_items] of a binding and after
    [subtract_counted_display_items] of a data group every entry left in
    the counter is positive: no entry with count zero or below remains;
    and adding {X: 1} and then subtracting {X: 1} from a counter without
    an entry for X leaves it without an entry for X. *)
Theorem subtract_strips_entries_not_positive :
  (∀ (ContainerObject : Type) (counted : gmap item Z) (w : world item)
     (b : DataItemsInContainerBinding.Binding
            (ContainerObject := ContainerObject)) k v,
     DataItemsInContainerBinding.__counted_data_items
       (DataItemsBinding.sub (state_of
          (DataItemsInContainerBinding.subtract_counted_data_items
             counted w b))) !! k = Some v → 0 < v) ∧
  (∀ (counted : gmap item Z) (g : DataGroup.DataGroup (item := item)) k v,
     DataGroup.__counted_display_items
       (DataGroup.subtract_counted_display_items counted g) !! k = Some v →
     0 < v) ∧
  (∀ (ContainerObject : Type) (X : item) (w1 w2 : world item)
     (b : DataItemsInContainerBinding.Binding
            (ContainerObject := ContainerObject)),
     DataItemsInContainerBinding.__counted_data_items
       (DataItemsBinding.sub b) !! X = None →
     DataItemsInContainerBinding.__counted_data_items
       (DataItemsBinding.sub (state_of
          (DataItemsInContainerBinding.subtract_counted_data_items
             {[X := 1]} w2
             (state_of (DataItemsInContainerBinding.update_counted_data_items
                {[X := 1]} w1 b))))) !! X = None) ∧
  (∀ (X : item) (g : DataGroup.DataGroup (item := item)),
     DataGroup.__counted_display_items g !! X = None →
     DataGroup.__counted_display_items
       (DataGroup.subtract_counted_display_items {[X := 1]}
          (DataGroup.update_counted_display_items {[X := 1]} g)) !! X
     = None).
Proof.
  split_and!.
  - intros C counted w b k v.
    unfold DataItemsInContainerBinding.subtract_counted_data_items.
    unfold DataItemsInContainerBinding.Binding in *.
    rewrite sub_method_sub. simpl. apply subtract_strip_positive.
  - intros counted g k v. simpl. apply subtract_strip_positive.
  - intros C X w1 w2 b Hnone.
    unfold DataItemsInContainerBinding.subtract_counted_data_items,
      DataItemsInContainerBinding.update_counted_data_items.
    unfold DataItemsInContainerBinding.Binding in *.
    rewrite !sub_method_sub. simpl.
    rewrite lookup_subtract_strip, lookup_update, !lookup_singleton_eq, Hnone.
    simpl. done.
  - intros X g Hnone. simpl.
    rewrite lookup_subtract_strip, lookup_update, !lookup_singleton_eq, Hnone.
    simpl. done.
Qed.

End aggregate.

Lemma subtract_strips_entries_not_positive_witness :
  let w := World (λ _ : nat, true) (λ _, []) in
  let b := state_of (DataItemsInContainerBinding.update_counted_data_items
             {[2%nat := 3]} w
             (DataItemsInContainerBinding.__init__ (ContainerObject := unit))) in
  let g := DataGroup.MkDataGroup [2%nat] {[2%nat := 3]} in
  0 < 2 ∧ 0 < 2 ∧
  DataItemsInContainerBinding.__counted_data_items
    (DataItemsBinding.sub (state_of
       (DataItemsInContainerBinding.subtract_counted_data_items
          {[1%nat := 1]} w
          (state_of (DataItemsInContainerBinding.update_counted_data_items
             {[1%nat := 1]} w b))))) !! 1%nat = None ∧
  DataGroup.__counted_display_items
    (DataGroup.subtract_counted_display_items {[1%nat := 1]}
       (DataGroup.update_counted_display_items {[1%nat := 1]} g)) !! 1%nat
  = None.
Proof.
  intros w b g.
  pose proof (@subtract_strips_entries_not_positive nat _ _)
    as (Hbinding & Hgroup & Hbinding_X & Hgroup_X).
  split_and!.
  - apply (Hbinding unit {[2%nat := 1]} w b 2%nat 2). reflexivity.
  - apply (Hgroup {[2%nat := 1]} g 2%nat 2). reflexivity.
  - apply (Hbinding_X unit 1%nat w w b). reflexivity.
  - apply (Hgroup_X 1%nat g). reflexivity.
Defined.

Section commuting.
Context `{Countable K}.
Implicit Types self d : gmap K Z.

Local Abbreviation sub_strip self d :=
  (Counter.__iadd__ (Counter.subtract self d) ∅).

Lemma update_update_comm self d1 d2 :
  Counter.update (Counter.update self d1) d2 =
  Counter.update (Counter.update self d2) d1.
Proof.
  apply map_eq. intros k. rewrite !lookup_update.
  destruct (self !! k), (d1 !! k), (d2 !! k); simpl; f_equal; lia.
Qed.

Lemma subtract_subtract_comm self d1 d2 :
  map_Forall (λ _ v, 0 ≤ v) d1 → map_Forall (λ _ v, 0 ≤ v) d2 →
  sub_strip (sub_strip self d1) d2 = sub_strip (sub_strip self d2) d1.
Proof.
  intros H1 H2. apply map_eq. intros k. rewrite !lookup_subtract_strip.
  specialize (H1 k). specialize (H2 k).
  destruct (self !! k) as [c|], (d1 !! k) as [a|], (d2 !! k) as [e|]; simpl;
    try specialize (H1 _ eq_refl); try specialize (H2 _ eq_refl);
    repeat (case_bool_decide; simpl in *); try done; try (f_equal; lia);
    exfalso; lia.
Qed.

Lemma update_subtract_comm self d1 d2 :
  map_Forall (λ _ v, 0 < v) self → map_Forall (λ _ v, 0 < v) d1 →
  map_Forall (λ k v, 0 ≤ v ≤ default 0 (self !! k)) d2 →
  sub_strip (Counter.update self d1) d2 =
  Counter.update (sub_strip self d2) d1.
Proof.
  intros Hs H1 H2. apply map_eq. intros k.
  rewrite lookup_subtract_strip, !lookup_update, lookup_subtract_strip.
  specialize (Hs k). specialize (H1 k). specialize (H2 k). simpl in H2.
  destruct (self !! k) as [c|], (d1 !! k) as [a|], (d2 !! k) as [e|]; simpl;
    try specialize (Hs _ eq_refl); try specialize (H1 _ eq_refl);
    try specialize (H2 _ eq_refl); simpl in *;
    repeat (case_bool_decide; simpl in *); try done; try (f_equal; lia);
    exfalso; lia.
Qed.

End commuting.

Section aggregate_order.
Context `{Countable item}.

(** What a counted delta does to the counter of a binding. *)
Lemma deliver_counted {ContainerObject} d (w : world item)
  (b : DataItemsInContainerBinding.Binding
         (ContainerObject := ContainerObject)) :
  DataItemsInContainerBinding.__counted_data_items
    (DataItemsBinding.sub
       (state_of (DataItemsInContainerBinding.deliver d w b))) =
  match d with
  | DataItemsInContainerBinding.added counted =>
    Counter.update
      (DataItemsInContainerBinding.__counted_data_items
         (DataItemsBinding.sub b)) counted
  | DataItemsInContainerBinding.subtracted counted =>
    Counter.__iadd__
      (Counter.subtract
         (DataItemsInContainerBinding.__counted_data_items
            (DataItemsBinding.sub b)) counted) ∅
  end.
Proof.
  destruct d as [counted|counted]; simpl;
    unfold DataItemsInContainerBinding.update_counted_data_items,
      DataItemsInContainerBinding.subtract_counted_data_items,
      DataItemsInContainerBinding.Binding in *;
    by rewrite sub_method_sub.
Qed.

(** C9, as the code has it. On the counted aggregate of a data group
    and on that of a binding: two additions commute, whatever the counter
    and the deltas; two subtractions commute when no count of the deltas
    is negative; an addition and a subtraction commute when the counts of
    the counter and of the added delta are positive and every count of
    the subtracted delta is between zero and the count the counter has
    for that item, so that nothing is clamped. *)
Theorem counted_operations_commute_without_clamping :
  let after := λ (ContainerObject : Type) ds (w : world item)
    (b : DataItemsInContainerBinding.Binding
           (ContainerObject := ContainerObject)),
    DataItemsInContainerBinding.__counted_data_items
      (DataItemsBinding.sub
         (foldl (λ b d, state_of (DataItemsInContainerBinding.deliver d w b))
            b ds)) in
  (∀ d1 d2 (g : DataGroup.DataGroup (item := item)),
     DataGroup.update_counted_display_items d2
       (DataGroup.update_counted_display_items d1 g) =
     DataGroup.update_counted_display_items d1
       (DataGroup.update_counted_display_items d2 g)) ∧
  (∀ d1 d2 (g : DataGroup.DataGroup (item := item)),
     map_Forall (λ _ v, 0 ≤ v) d1 → map_Forall (λ _ v, 0 ≤ v) d2 →
     DataGroup.subtract_counted_display_items d2
       (DataGroup.subtract_counted_display_items d1 g) =
     DataGroup.subtract_counted_display_items d1
       (DataGroup.subtract_counted_display_items d2 g)) ∧
  (∀ d1 d2 (g : DataGroup.DataGroup (item := item)),
     map_Forall (λ _ v, 0 < v) (DataGroup.__counted_display_items g) →
     map_Forall (λ _ v, 0 < v) d1 →
     map_Forall (λ k v,
       0 ≤ v ≤ default 0 (DataGroup.__counted_display_items g !! k)) d2 →
     DataGroup.subtract_counted_display_items d2
       (DataGroup.update_counted_display_items d1 g) =
     DataGroup.update_counted_display_items d1
       (DataGroup.subtract_counted_display_items d2 g)) ∧
  (∀ C d1 d2 w b,
     after C [DataItemsInContainerBinding.added d1;
              DataItemsInContainerBinding.added d2] w b =
     after C [DataItemsInContainerBinding.added d2;
              DataItemsInContainerBinding.added d1] w b) ∧
  (∀ C d1 d2 w b,
     map_Forall (λ _ v, 0 ≤ v) d1 → map_Forall (λ _ v, 0 ≤ v) d2 →
     after C [DataItemsInContainerBinding.subtracted d1;
              DataItemsInContainerBinding.subtracted d2] w b =
     after C [DataItemsInContainerBinding.subtracted d2;
              DataItemsInContainerBinding.subtracted d1] w b) ∧
  (∀ C d1 d2 w b,
     map_Forall (λ _ v, 0 < v)
       (DataItemsInContainerBinding.__counted_data_items
          (DataItemsBinding.sub b)) →
     map_Forall (λ _ v, 0 < v) d1 →
     map_Forall (λ k v,
       0 ≤ v ≤ default 0
         (DataItemsInContainerBinding.__counted_data_items
            (DataItemsBinding.sub b) !! k)) d2 →
     after C [DataItemsInContainerBinding.added d1;
              DataItemsInContainerBinding.subtracted d2] w b =
     after C [DataItemsInContainerBinding.subtracted d2;
              DataItemsInContainerBinding.added d1] w b).
Proof.
  intros after. subst after. cbn beta. split_and!.
  - intros d1 d2 [l c]. unfold DataGroup.update_counted_display_items.
    simpl. f_equal. apply update_update_comm.
  - intros d1 d2 [l c] H1 H2.
    unfold DataGroup.subtract_counted_display_items. simpl. f_equal.
    by apply subtract_subtract_comm.
  - intros d1 d2 [l c] Hc H1 H2.
    unfold DataGroup.subtract_counted_display_items,
      DataGroup.update_counted_display_items. simpl in *. f_equal.
    by apply update_subtract_comm.
  - intros C d1 d2 w b. cbn [foldl]. rewrite !deliver_counted.
    apply update_update_comm.
  - intros C d1 d2 w b H1 H2. cbn [foldl]. rewrite !deliver_counted.
    by apply subtract_subtract_comm.
  - intros C d1 d2 w b Hc H1 H2. cbn [foldl]. rewrite !deliver_counted.
    by apply update_subtract_comm.
Qed.

End aggregate_order.

(** C9 as stated fails. On a data group without counted display items,
    adding {1: 1} and then subtracting {1: 1} leaves no entry for 1,
    while subtracting first, which is clamped, and adding then leaves
    {1: 1}.  Two subtractions do not commute either when a delta has a
    negative count: from {1: 1}, subtracting {1: 2} and then {1: -2}
    leaves {1: 2}, the other order {1: 1}. *)
Lemma add_and_subtract_do_not_commute :
  let g := DataGroup.MkDataGroup ([] : list nat) ∅ in
  let add_then_subtract :=
    DataGroup.subtract_counted_display_items {[1%nat := 1]}
      (DataGroup.update_counted_display_items {[1%nat := 1]} g) in
  let subtract_then_add :=
    DataGroup.update_counted_display_items {[1%nat := 1]}
      (DataGroup.subtract_counted_display_items {[1%nat := 1]} g) in
  let g1 := DataGroup.MkDataGroup [1%nat] {[1%nat := 1]} in
  let clamped_first :=
    DataGroup.subtract_counted_display_items {[1%nat := -2]}
      (DataGroup.subtract_counted_display_items {[1%nat := 2]} g1) in
  let clamped_last :=
    DataGroup.subtract_counted_display_items {[1%nat := 2]}
      (DataGroup.subtract_counted_display_items {[1%nat := -2]} g1) in
  (DataGroup.__counted_display_items add_then_subtract !! 1%nat = None ∧
   DataGroup.__counted_display_items subtract_then_add !! 1%nat = Some 1 ∧
   add_then_subtract ≠ subtract_then_add) ∧
  (DataGroup.__counted_display_items clamped_first !! 1%nat = Some 2 ∧
   DataGroup.__counted_display_items clamped_last !! 1%nat = Some 1 ∧
   clamped_first ≠ clamped_last).
Proof.
  split; (split_and!; [reflexivity..|]); intros Heq;
    apply (f_equal (λ g, DataGroup.__counted_display_items g !! 1%nat))
      in Heq;
    vm_compute in Heq; discriminate.
Qed.

Lemma counted_operations_commute_without_clamping_witness :
  let g := DataGroup.MkDataGroup [1%nat] {[1%nat := 2]} in
  let w := World (λ _ : nat, true) (λ _, []) in
  let b := state_of (DataItemsInContainerBinding.update_counted_data_items
             {[1%nat := 2]} w
             (DataItemsInContainerBinding.__init__ (ContainerObject := unit))) in
  let counted := λ ds,
    DataItemsInContainerBinding.__counted_data_items
      (DataItemsBinding.sub
         (foldl (λ b d, state_of (DataItemsInContainerBinding.deliver d w b))
            b ds)) in
  DataGroup.subtract_counted_display_items {[1%nat := 3]}
    (DataGroup.subtract_counted_display_items {[1%nat := 1]} g) =
  DataGroup.subtract_counted_display_items {[1%nat := 1]}
    (DataGroup.subtract_counted_display_items {[1%nat := 3]} g) ∧
  DataGroup.subtract_counted_display_items {[1%nat := 2]}
    (DataGroup.update_counted_display_items {[2%nat := 1]} g) =
  DataGroup.update_counted_display_items {[2%nat := 1]}
    (DataGroup.subtract_counted_display_items {[1%nat := 2]} g) ∧
  counted [DataItemsInContainerBinding.subtracted {[1%nat := 3]};
           DataItemsInContainerBinding.subtracted {[1%nat := 1]}] =
  counted [DataItemsInContainerBinding.subtracted {[1%nat := 1]};
           DataItemsInContainerBinding.subtracted {[1%nat := 3]}] ∧
  counted [DataItemsInContainerBinding.added {[2%nat := 1]};
           DataItemsInContainerBinding.subtracted {[1%nat := 2]}] =
  counted [DataItemsInContainerBinding.subtracted {[1%nat := 2]};
           DataItemsInContainerBinding.added {[2%nat := 1]}].
Proof.
  intros g w b counted.
  pose proof (@counted_operations_commute_without_clamping nat _ _)
    as (_ & Hss & Hus & _ & Hbss & Hbus).
  split_and!.
  - apply Hss; compute_done.
  - apply Hus; compute_done.
  - apply (Hbss unit); compute_done.
  - apply (Hbus unit); compute_done.
Defined.

(** * Data reference counts, transactions and delayed writes *)

Section resource_lifecycle.
Import BufferedDataSource DataItem.

(** The data reference count of a data source, step by step. *)
Lemma increment_data_ref_count_spec s :
  ∃ s', increment_data_ref_count s = Returned s' ∧
        __data_ref_count s' = __data_ref_count s + 1 ∧
        __data_and_metadata s' =
          match __data_and_metadata s with
          | Some d =>
            if bool_decide (__data_ref_count s = 0)
            then Some (state_of (DataAndMetadata.increment_data_ref_count d))
            else Some d
          | None => None
          end.
Proof.
  unfold increment_data_ref_count.
  destruct (__data_and_metadata s) as [d|]; [|by eexists].
  case_bool_decide; [|by eexists].
  unfold on_data_and_metadata, DataAndMetadata.increment_data_ref_count.
  case_bool_decide; by eexists.
Qed.

Lemma decrement_data_ref_count_spec s :
  __data_ref_count s > 0 →
  (∀ d, __data_and_metadata s = Some d →
        DataAndMetadata.data_ref_count d > 0) →
  ∃ s', decrement_data_ref_count s = Returned s' ∧
        __data_ref_count s' = __data_ref_count s - 1 ∧
        __data_and_metadata s' =
          match __data_and_metadata s with
          | Some d =>
            if bool_decide (__data_ref_count s - 1 = 0)
            then Some (state_of (DataAndMetadata.decrement_data_ref_count d))
            else Some d
          | None => None
          end.
Proof.
  intros Hcount Hd. unfold decrement_data_ref_count.
  rewrite bool_decide_eq_true_2 by done. simpl.
  destruct (__data_and_metadata s) as [d|]; [|by eexists].
  case_bool_decide; [|by eexists].
  unfold on_data_and_metadata, DataAndMetadata.decrement_data_ref_count.
  rewrite bool_decide_eq_true_2 by by apply Hd. simpl.
  case_bool_decide; by eexists.
Qed.

(** Loads from the external store happen in [increment_data_ref_count]
    at count zero and nowhere else. *)
Lemma increment_loads s :
  loads (state_of (increment_data_ref_count s)) =
    if bool_decide (__data_ref_count s = 0) then
      match __data_and_metadata s with
      | Some d =>
        if bool_decide (DataAndMetadata.data_ref_count d = 0)
        then S (loads s) else loads s
      | None => loads s
      end
    else loads s.
Proof.
  unfold increment_data_ref_count, loads.
  destruct (__data_and_metadata s) as [d|]; [|by case_bool_decide].
  case_bool_decide; [|done].
  unfold on_data_and_metadata, DataAndMetadata.increment_data_ref_count.
  by case_bool_decide.
Qed.

Lemma decrement_loads s :
  loads (state_of (decrement_data_ref_count s)) = loads s.
Proof.
  unfold decrement_data_ref_count, loads, assert.
  case_bool_decide; simpl; [|done].
  destruct (__data_and_metadata s) as [d|]; [|done].
  case_bool_decide; [|done].
  unfold on_data_and_metadata, DataAndMetadata.decrement_data_ref_count,
    assert.
  case_bool_decide; simpl; [|done]. by case_bool_decide.
Qed.




Lemma on_data_sources_frame method d :
  let d' := state_of (on_data_sources method d) in
  data_sources d' = state_of (for_each_data_source method (data_sources d)) ∧
  storage_calls d' = storage_calls d ∧
  __pending_write d' = __pending_write d ∧
  __in_transaction_state d' = __in_transaction_state d ∧
  persistent_object_context d' = persistent_object_context d ∧
  modified_count d' = modified_count d ∧
  __write_delay_modified_count d' = __write_delay_modified_count d ∧
  __write_delay_data_changed d' = __write_delay_data_changed d.
Proof.
  unfold on_data_sources.
  by destruct (for_each_data_source method (data_sources d)).
Qed.

Lemma _enter_transaction_state_spec d :
  let d' := state_of (_enter_transaction_state d) in
  data_sources d' =
    state_of (for_each_data_source increment_data_ref_count (data_sources d)) ∧
  storage_calls d' = storage_calls d ∧
  __pending_write d' = __pending_write d ∧
  __in_transaction_state d' = true ∧
  modified_count d' = modified_count d ∧
  __write_delay_modified_count d' = modified_count d ∧
  __write_delay_data_changed d' = false ∧
  (is_Some (persistent_object_context d') ↔
   is_Some (persistent_object_context d)).
Proof.
  unfold _enter_transaction_state, __enter_write_delay_state. simpl.
  match goal with |- context [on_data_sources _ ?x] =>
    destruct (on_data_sources_frame increment_data_ref_count x)
      as (-> & -> & -> & -> & -> & -> & -> & ->) end.
  destruct d as [? ? ? ? [[[?|]]|] ? ? [|] ? ?]; simpl;
    split_and!; try done; by rewrite <- ?not_eq_None_Some.
Qed.

(** Leaving the write-delay state never raises, and these are the calls
    it makes on the context. *)
Lemma __exit_write_delay_state_spec d :
  ∃ d', __exit_write_delay_state d = Returned d' ∧
    data_sources d' = data_sources d ∧
    storage_calls d' = storage_calls d ++
      match persistent_object_context d with
      | Some _ =>
        if __pending_write d then [write_data_item]
        else
          (if bool_decide (modified_count d > __write_delay_modified_count d)
           then [rewrite_data_item_properties] else []) ++
          (if __write_delay_data_changed d
           then [rewrite_data_item_data] else [])
      | None => []
      end ∧
    __pending_write d' =
      match persistent_object_context d with
      | Some _ => false
      | None => __pending_write d
      end ∧
    __in_transaction_state d' = __in_transaction_state d ∧
    modified_count d' = modified_count d ∧
    (is_Some (persistent_object_context d') ↔
     is_Some (persistent_object_context d)).
Proof.
  unfold __exit_write_delay_state, _finish_pending_write, on_context.
  destruct d as [txn [|] count [|] [[[?|]]|] modified sources cache log1 log2];
    simpl; repeat case_bool_decide; simpl;
    eexists; (split; [reflexivity|]); simpl;
    rewrite ?(right_id_L [] (++)), <- ?(assoc_L (++));
    split_and!; try done; by rewrite <- ?not_eq_None_Some.
Qed.

Lemma _exit_transaction_state_spec d :
  let d' := state_of (_exit_transaction_state d) in
  data_sources d' =
    state_of (for_each_data_source decrement_data_ref_count (data_sources d)) ∧
  storage_calls d' = storage_calls d ++
    match persistent_object_context d with
    | Some _ =>
      if __pending_write d then [write_data_item]
      else
        (if bool_decide (modified_count d > __write_delay_modified_count d)
         then [rewrite_data_item_properties] else []) ++
        (if __write_delay_data_changed d
         then [rewrite_data_item_data] else [])
    | None => []
    end ∧
  __pending_write d' =
    match persistent_object_context d with
    | Some _ => false
    | None => __pending_write d
    end ∧
  __in_transaction_state d' = false ∧
  modified_count d' = modified_count d.
Proof.
  unfold _exit_transaction_state. cbn [and_then].
  match goal with |- context [__exit_write_delay_state ?x] =>
    destruct (__exit_write_delay_state_spec x)
      as (d1 & -> & Hs & Hc & Hp & Ht & Hm & _) end.
  cbn [and_then].
  destruct (on_data_sources_frame decrement_data_ref_count d1)
    as (-> & -> & -> & -> & _ & -> & _).
  rewrite Hs, Hc, Hp, Ht, Hm. by destruct d as [? ? ? ? ? ? ? [|] ? ?].
Qed.

Lemma on_data_source_data_sources i method d :
  data_sources (state_of (on_data_source i method d)) =
    match data_sources d !! i with
    | Some s => <[i := state_of (method s)]> (data_sources d)
    | None => data_sources d
    end.
Proof.
  unfold on_data_source. destruct (data_sources d !! i) as [s|]; [|done].
  by destruct (method s).
Qed.

(** C7. A data source with data reference count zero, whose payload
    holder is not referenced either: after three
    [increment_data_ref_count] and two [decrement_data_ref_count] the
    count is one and the payload is loaded; the third decrement returns
    with count zero and the payload unloaded; in all of it the payload
    was loaded from the external store once.  An increment at a count
    other than zero and a decrement never load.  When the data source
    belongs to a data item in the transaction state, the transaction
    holds a count of its own: after three increments and three
    decrements the count is one and the payload still loaded, and it is
    [_exit_transaction_state] that brings the count to zero and unloads
    the payload. *)
Theorem data_ref_count_gates_payload :
  (∀ s d,
     __data_ref_count s = 0 → __data_and_metadata s = Some d →
     DataAndMetadata.data_ref_count d = 0 →
     ∃ s2 s3,
       increment_data_ref_count s >>> increment_data_ref_count >>>
         increment_data_ref_count >>> decrement_data_ref_count >>>
         decrement_data_ref_count = Returned s2 ∧
       __data_ref_count s2 = 1 ∧ is_data_loaded s2 = true ∧
       decrement_data_ref_count s2 = Returned s3 ∧
       __data_ref_count s3 = 0 ∧ is_data_loaded s3 = false ∧
       loads s3 = S (loads s)) ∧
  (∀ s, __data_ref_count s ≠ 0 →
        loads (state_of (increment_data_ref_count s)) = loads s) ∧
  (∀ s, loads (state_of (decrement_data_ref_count s)) = loads s) ∧
  (∀ data_item s d,
     DataItem.data_sources data_item = [s] →
     __data_ref_count s = 0 → __data_and_metadata s = Some d →
     DataAndMetadata.data_ref_count d = 0 →
     let held := DataItem.run
       [DataItem.do_enter_transaction_state;
        DataItem.do_increment_data_ref_count 0;
        DataItem.do_increment_data_ref_count 0;
        DataItem.do_increment_data_ref_count 0;
        DataItem.do_decrement_data_ref_count 0;
        DataItem.do_decrement_data_ref_count 0;
        DataItem.do_decrement_data_ref_count 0] data_item in
     ∃ s1 s0,
       DataItem.data_sources held = [s1] ∧
       __data_ref_count s1 = 1 ∧ is_data_loaded s1 = true ∧
       DataItem.data_sources
         (state_of (DataItem._exit_transaction_state held)) = [s0] ∧
       __data_ref_count s0 = 0 ∧ is_data_loaded s0 = false).
Proof.
  split_and!.
  - intros [count dam] [c valid n]. simpl. intros -> -> ->.
    eexists _, _. split_and!.
    + vm_compute. reflexivity.
    + reflexivity.
    + reflexivity.
    + vm_compute. reflexivity.
    + reflexivity.
    + reflexivity.
    + reflexivity.
  - intros s Hs. rewrite increment_loads.
    by rewrite bool_decide_eq_false_2.
  - apply decrement_loads.
  - intros data_item [count dam] [c valid n].
    cbn [__data_ref_count __data_and_metadata DataAndMetadata.data_ref_count].
    intros Hs -> -> ->.
    unfold run. cbn [foldl serve].
    match goal with |- context [_exit_transaction_state ?x] =>
      destruct (_exit_transaction_state_spec x) as (-> & _) end.
    rewrite !on_data_source_data_sources.
    destruct (_enter_transaction_state_spec data_item) as (-> & _).
    rewrite Hs. eexists _, _. split_and!.
    + vm_compute. reflexivity.
    + reflexivity.
    + reflexivity.
    + vm_compute. reflexivity.
    + reflexivity.
    + reflexivity.
Qed.


(** Property changes inside the write-delay state only advance the
    modification counter. *)
Lemma property_changes_spec n d :
  let d' := run (replicate n do_property_changed) d in
  modified_count d' = modified_count d + Z.of_nat n ∧
  __write_delay_modified_count d' = __write_delay_modified_count d ∧
  __write_delay_data_changed d' = __write_delay_data_changed d ∧
  storage_calls d' = storage_calls d ∧
  __pending_write d' = __pending_write d ∧
  persistent_object_context d' = persistent_object_context d.
Proof.
  revert d. induction n as [|n IH]; intros d; simpl.
  - split_and!; [lia|done..].
  - destruct (IH (set_modified_count (modified_count d + 1) d))
      as (Hm & Hw & Hc & Hs & Hp & Hx).
    unfold run in *. simpl in *.
    rewrite Hm, Hw, Hc, Hs, Hp, Hx. split_and!; [lia|done..].
Qed.

(** No request sets the pending-write flag. *)
Lemma foldl_and_then_pending {A} (f : A → DataItem → outcome DataItem) l o :
  (∀ a d, __pending_write d = false →
          __pending_write (state_of (f a d)) = false) →
  __pending_write (state_of o) = false →
  __pending_write (state_of (foldl (λ o a, o >>> f a) o l)) = false.
Proof.
  intros Hf. revert o. induction l as [|a l IH]; intros o Ho; simpl; [done|].
  apply IH. destruct o as [d|d]; simpl in *; [|done]. by apply Hf.
Qed.

Lemma append_data_source_pending s d :
  __pending_write (state_of (append_data_source s d)) = __pending_write d.
Proof.
  unfold append_data_source. destruct (__in_transaction_state d); [|done].
  by destruct (increment_data_ref_count s).
Qed.

Lemma remove_data_source_pending i d :
  __pending_write (state_of (remove_data_source i d)) = __pending_write d.
Proof.
  unfold remove_data_source. destruct (data_sources d !! i) as [s|]; [|done].
  destruct (__in_transaction_state d); [|done].
  by destruct (decrement_data_ref_count s).
Qed.

Lemma serve_pending_write r d :
  __pending_write d = false → __pending_write (state_of (serve r d)) = false.
Proof.
  intros Hp.
  destruct r as [| |c| | |_is_reading|s|i|described|i|i]; simpl.
  - by destruct (_enter_transaction_state_spec d) as (_ & _ & -> & _).
  - destruct (_exit_transaction_state_spec d) as (_ & _ & -> & _).
    by destruct (persistent_object_context d).
  - unfold set_context, persistent_object_context_changed. simpl.
    destruct (__in_transaction_state d); [|done].
    unfold __enter_write_delay_state, set_write_delayed. simpl.
    by destruct c as [[[?|]]|].
  - done.
  - done.
  - unfold data_item_changed. by destruct _is_reading.
  - by rewrite append_data_source_pending.
  - by rewrite remove_data_source_pending.
  - unfold read_from_dict.
    match goal with |- context [?o >>> ?k >>> ?k'] =>
      destruct (o >>> k) as [d'|d'] eqn:Ho end; simpl; [done|].
    assert (__pending_write (state_of (Raised d')) = false) as Hgoal; [|done].
    rewrite <- Ho.
    match goal with |- context [?o >>> ?k] =>
      assert (__pending_write (state_of o) = false) as Ho';
        [|destruct o as [d1|d1]; simpl in * ] end.
    + apply foldl_and_then_pending; [|done].
      intros _ d1 Hd1. by rewrite remove_data_source_pending.
    + apply foldl_and_then_pending; [|done].
      intros s d2 Hd2. by rewrite append_data_source_pending.
    + done.
  - unfold on_data_source. destruct (data_sources d !! i); [|done].
    by destruct (increment_data_ref_count _).
  - unfold on_data_source. destruct (data_sources d !! i); [|done].
    by destruct (decrement_data_ref_count _).
Qed.

Lemma run_pending_write h d :
  __pending_write d = false → __pending_write (run h d) = false.
Proof.
  revert d. induction h as [|r h IH]; intros d Hd; [done|].
  apply IH. by apply serve_pending_write.
Qed.

(** The calls a data item with a persistent object context and no
    pending write makes on leaving the transaction state:
    [rewrite_data_item_properties] once if the modification counter is
    above its value recorded on entering the write-delay state, then
    [rewrite_data_item_data] once if the flag
    [__write_delay_data_changed] is up, and no other; so a transaction
    with any number of property changes, ten for one, ends with exactly
    one call of [rewrite_data_item_properties], made at its exit, and a
    transaction without property changes with none. *)
Lemma exit_transaction_storage_calls :
  (∀ d c,
     persistent_object_context d = Some c → __pending_write d = false →
     storage_calls (state_of (_exit_transaction_state d)) =
       storage_calls d ++
       (if bool_decide (modified_count d > __write_delay_modified_count d)
        then [rewrite_data_item_properties] else []) ++
       (if __write_delay_data_changed d
        then [rewrite_data_item_data] else [])) ∧
  (∀ d c n,
     persistent_object_context d = Some c → __pending_write d = false →
     storage_calls
       (run (replicate n do_property_changed)
          (state_of (_enter_transaction_state d))) = storage_calls d ∧
     storage_calls
       (run (do_enter_transaction_state ::
             replicate n do_property_changed ++
             [do_exit_transaction_state]) d) =
       storage_calls d ++
       (if bool_decide (n = 0%nat) then []
        else [rewrite_data_item_properties])) ∧
  (∀ d c,
     persistent_object_context d = Some c → __pending_write d = false →
     storage_calls
       (run (do_enter_transaction_state ::
             replicate 10 do_property_changed ++
             [do_exit_transaction_state]) d) =
       storage_calls d ++ [rewrite_data_item_properties]).
Proof.
  assert (∀ d c n,
     persistent_object_context d = Some c → __pending_write d = false →
     storage_calls
       (run (replicate n do_property_changed)
          (state_of (_enter_transaction_state d))) = storage_calls d ∧
     storage_calls
       (run (do_enter_transaction_state ::
             replicate n do_property_changed ++
             [do_exit_transaction_state]) d) =
       storage_calls d ++
       (if bool_decide (n = 0%nat) then []
        else [rewrite_data_item_properties])) as Hn.
  { intros d c n Hc Hp.
    destruct (_enter_transaction_state_spec d)
      as (_ & Hcalls & Hpending & _ & Hm & Hw & Hchanged & Hctx).
    destruct (property_changes_spec n (state_of (_enter_transaction_state d)))
      as (Hm' & Hw' & Hchanged' & Hcalls' & Hpending' & Hctx').
    split; [congruence|].
    unfold run in *. cbn [foldl]. rewrite foldl_app. cbn [foldl serve].
    set (d1 := state_of (_enter_transaction_state d)) in *.
    set (d2 := foldl _ d1 (replicate n do_property_changed)) in *.
    destruct (_exit_transaction_state_spec d2) as (_ & -> & _).
    assert (is_Some (persistent_object_context d2)) as [c2 ->].
    { rewrite Hctx'. apply Hctx. by rewrite Hc. }
    rewrite Hpending', Hpending, Hp, Hchanged', Hchanged, Hm', Hw', Hw, Hm.
    rewrite Hcalls', Hcalls, (right_id_L [] (++)). f_equal.
    repeat case_bool_decide; try done; lia. }
  split_and!; [|done|].
  - intros d c Hc Hp.
    destruct (_exit_transaction_state_spec d) as (_ & -> & _).
    by rewrite Hc, Hp.
  - intros d c Hc Hp. by destruct (Hn d c 10%nat Hc Hp) as [_ ->].
Qed.

(** C10, as the code has it. When a data item whose write is pending
    leaves the write-delay state with a persistent object context, it
    calls [write_data_item] once and neither of the rewrites, whatever
    the modification counter, and nothing is pending afterwards; without
    a context it makes no call and the write stays pending.  Whatever
    happens to a data item, the flag is never set again, and it is only
    cleared by leaving the transaction state or by [read_from_dict]; so
    every later exit from the write-delay state calls at most the two
    rewrites under their conditions, never [write_data_item]. *)
Theorem pending_write_is_written_once :
  (∀ d c,
     __pending_write d = true → persistent_object_context d = Some c →
     ∃ d', __exit_write_delay_state d = Returned d' ∧
           storage_calls d' = storage_calls d ++ [write_data_item] ∧
           __pending_write d' = false) ∧
  (∀ d, persistent_object_context d = None →
        __exit_write_delay_state d = Returned d) ∧
  (∀ h d, __pending_write d = false → __pending_write (run h d) = false) ∧
  (∀ r d,
     __pending_write d = true →
     __pending_write (state_of (serve r d)) = false →
     r = do_exit_transaction_state ∨ ∃ l, r = do_read_from_dict l) ∧
  (∀ d,
     __pending_write d = false →
     ∃ d', __exit_write_delay_state d = Returned d' ∧
           __pending_write d' = false ∧
           storage_calls d' = storage_calls d ++
             match persistent_object_context d with
             | Some _ =>
               (if bool_decide
                     (modified_count d > __write_delay_modified_count d)
                then [rewrite_data_item_properties] else []) ++
               (if __write_delay_data_changed d
                then [rewrite_data_item_data] else [])
             | None => []
             end).
Proof.
  split_and!.
  - intros d c Hp Hc.
    destruct (__exit_write_delay_state_spec d)
      as (d' & -> & _ & Hcalls & Hp' & _).
    exists d'. rewrite Hcalls, Hp', Hc, Hp. done.
  - intros d Hc. unfold __exit_write_delay_state. by rewrite Hc.
  - apply run_pending_write.
  - intros r d Hp Hp'.
    destruct r as [| |c| | |_is_reading|s|i|described|i|i]; simpl in Hp';
      eauto.
    + by destruct (_enter_transaction_state_spec d) as (_ & _ & Heq & _);
        rewrite Heq in Hp'; congruence.
    + unfold set_context, persistent_object_context_changed in Hp'.
      simpl in Hp'. destruct (__in_transaction_state d); simpl in Hp';
        [|congruence].
      unfold set_write_delayed in Hp'. simpl in Hp'.
      destruct c as [[[?|]]|]; simpl in Hp'; congruence.
    + congruence.
    + congruence.
    + unfold data_item_changed in Hp'.
      destruct _is_reading; simpl in Hp'; congruence.
    + rewrite append_data_source_pending in Hp'. congruence.
    + rewrite remove_data_source_pending in Hp'. congruence.
    + unfold on_data_source in Hp'.
      destruct (data_sources d !! i); [|simpl in Hp'; congruence].
      destruct (increment_data_ref_count _); simpl in Hp'; congruence.
    + unfold on_data_source in Hp'.
      destruct (data_sources d !! i); [|simpl in Hp'; congruence].
      destruct (decrement_data_ref_count _); simpl in Hp'; congruence.
  - intros d Hp.
    destruct (__exit_write_delay_state_spec d)
      as (d' & -> & _ & Hcalls & Hp' & _).
    exists d'. rewrite Hcalls, Hp', Hp. split; [done|].
    split; [by destruct (persistent_object_context d)|done].
Qed.

Lemma data_ref_count_gates_payload_witness :
  let d := DataAndMetadata.MkDataAndMetadata 0 false 0 in
  let s := MkBufferedDataSource 0 (Some d) in
  let data_item := set_data_sources [s] __init__ in
  let held := run
    [do_enter_transaction_state;
     do_increment_data_ref_count 0; do_increment_data_ref_count 0;
     do_increment_data_ref_count 0; do_decrement_data_ref_count 0;
     do_decrement_data_ref_count 0; do_decrement_data_ref_count 0]
    data_item in
  (∃ s2 s3,
     increment_data_ref_count s >>> increment_data_ref_count >>>
       increment_data_ref_count >>> decrement_data_ref_count >>>
       decrement_data_ref_count = Returned s2 ∧
     __data_ref_count s2 = 1 ∧ is_data_loaded s2 = true ∧
     decrement_data_ref_count s2 = Returned s3 ∧
     __data_ref_count s3 = 0 ∧ is_data_loaded s3 = false ∧
     loads s3 = S (loads s)) ∧
  loads (state_of (increment_data_ref_count
           (state_of (increment_data_ref_count s)))) =
    loads (state_of (increment_data_ref_count s)) ∧
  (∃ s1 s0,
     data_sources held = [s1] ∧
     __data_ref_count s1 = 1 ∧ is_data_loaded s1 = true ∧
     data_sources (state_of (_exit_transaction_state held)) = [s0] ∧
     __data_ref_count s0 = 0 ∧ is_data_loaded s0 = false).
Proof.
  intros d s data_item held.
  pose proof data_ref_count_gates_payload as (H1 & H2 & _ & H4).
  split_and!.
  - apply (H1 s d); reflexivity.
  - apply (H2 (state_of (increment_data_ref_count s))). vm_compute. lia.
  - apply (H4 data_item s d); reflexivity.
Defined.

(** C10 as stated fails. A new data item without a persistent object
    context enters and leaves the transaction state: its first exit
    from the write-delay state calls nothing and the write stays
    pending; the exit of a later transaction, after a context has been
    set, calls [write_data_item] and no rewrite although a property
    changed. *)
Lemma first_exit_without_context_writes_nothing :
  let c := MkPersistentObjectContext (Some (MkPersistentStorage false)) in
  let first := run [do_enter_transaction_state; do_exit_transaction_state]
                 __init__ in
  let later := run [do_set_context (Some c); do_enter_transaction_state;
                    do_property_changed; do_exit_transaction_state] first in
  __exit_write_delay_state
    (state_of (_enter_transaction_state __init__)) =
    Returned (state_of (_enter_transaction_state __init__)) ∧
  storage_calls first = [] ∧ __pending_write first = true ∧
  storage_calls later = [write_data_item].
Proof. vm_compute. split_and!; reflexivity. Qed.

Lemma pending_write_is_written_once_witness :
  let c := MkPersistentObjectContext (Some (MkPersistentStorage false)) in
  let new := state_of (set_context (Some c) __init__) in
  let read := state_of (read_from_dict [] __init__) in
  (∃ d', __exit_write_delay_state new = Returned d' ∧
         storage_calls d' = storage_calls new ++ [write_data_item] ∧
         __pending_write d' = false) ∧
  __exit_write_delay_state __init__ = Returned __init__ ∧
  __pending_write
    (run [do_enter_transaction_state; do_exit_transaction_state] read)
  = false ∧
  (do_exit_transaction_state = do_exit_transaction_state ∨
   ∃ l, do_exit_transaction_state = do_read_from_dict l) ∧
  (∃ d', __exit_write_delay_state read = Returned d' ∧
         __pending_write d' = false ∧
         storage_calls d' = storage_calls read ++ []).
Proof.
  intros c new read.
  pose proof pending_write_is_written_once as (H1 & H2 & H3 & H4 & H5).
  split_and!.
  - apply (H1 new c); reflexivity.
  - apply (H2 __init__); reflexivity.
  - apply (H3 _ read); reflexivity.
  - apply (H4 do_exit_transaction_state new); reflexivity.
  - apply (H5 read); reflexivity.
Defined.

End resource_lifecycle.

(** * Facts about the sort *)

Section sorting_facts.
Context {A : Type}.
Implicit Types (sort_key : A → Z) (l : list A).

Lemma insert_sorted_Permutation sort_key x l :
  insert_sorted sort_key x l ≡ₚ x :: l.
Proof.
  induction l as [|y l IH]; simpl; [done|].
  case_bool_decide; [|done]. rewrite IH. apply perm_swap.
Qed.

Lemma stable_sort_Permutation sort_key l : stable_sort sort_key l ≡ₚ l.
Proof.
  unfold stable_sort.
  enough (∀ acc, foldl (λ acc x, insert_sorted sort_key x acc) acc l
                 ≡ₚ l ++ acc) as Hgen.
  { by rewrite Hgen, (right_id_L [] (++)). }
  induction l as [|x l IH]; intros acc; simpl; [done|].
  rewrite IH, insert_sorted_Permutation. by rewrite Permutation_middle.
Qed.

Lemma list_sort_Permutation sort_key reverse l :
  list_sort sort_key reverse l ≡ₚ l.
Proof.
  unfold list_sort. destruct reverse; [|apply stable_sort_Permutation].
  by rewrite <- Permutation_rev, stable_sort_Permutation, <- Permutation_rev.
Qed.

Lemma insert_sorted_sorted sort_key x l :
  StronglySorted (λ a b, sort_key a ≤ sort_key b) l →
  StronglySorted (λ a b, sort_key a ≤ sort_key b) (insert_sorted sort_key x l).
Proof.
  induction 1 as [|y l Hl IH Hy]; simpl.
  - repeat constructor.
  - case_bool_decide as Hle.
    + constructor; [done|].
      rewrite insert_sorted_Permutation. by constructor.
    + constructor; [by constructor|].
      constructor; [lia|].
      eapply Forall_impl; [done|]. simpl. intros z Hz. lia.
Qed.

Lemma stable_sort_sorted sort_key l :
  StronglySorted (λ a b, sort_key a ≤ sort_key b) (stable_sort sort_key l).
Proof.
  unfold stable_sort.
  enough (∀ acc, StronglySorted (λ a b, sort_key a ≤ sort_key b) acc →
     StronglySorted (λ a b, sort_key a ≤ sort_key b)
       (foldl (λ acc x, insert_sorted sort_key x acc) acc l)) as Hgen.
  { apply Hgen. constructor. }
  induction l as [|x l IH]; intros acc Hacc; simpl; [done|].
  by apply IH, insert_sorted_sorted.
Qed.

Lemma StronglySorted_rev (R : relation A) l :
  StronglySorted R l → StronglySorted (flip R) (rev l).
Proof.
  induction 1 as [|x l Hl IH Hx]; simpl; [constructor|].
  apply StronglySorted_app. split_and!; [|done|repeat constructor].
  intros a b Ha Hb. apply list_elem_of_singleton in Hb as ->.
  rewrite Forall_forall in Hx. apply Hx.
  by apply list_elem_of_In, in_rev, list_elem_of_In.
Qed.

Lemma filter_none (P : A → Prop) `{∀ x, Decision (P x)} l :
  Forall (λ x, ¬ P x) l → filter P l = [].
Proof.
  induction 1 as [|x l Hx Hl IH]; [done|].
  by rewrite filter_cons, decide_False.
Qed.

(** Equal keys keep their order: stability. *)
Lemma insert_sorted_filter sort_key k x l :
  StronglySorted (λ a b, sort_key a ≤ sort_key b) l →
  filter (λ a, sort_key a = k) (insert_sorted sort_key x l) =
  filter (λ a, sort_key a = k) (l ++ [x]).
Proof.
  induction 1 as [|y l Hl IH Hy]; simpl; [done|].
  case_bool_decide as Hle.
  - rewrite !filter_cons, IH. by destruct (decide _).
  - rewrite !filter_cons, filter_app, filter_cons, filter_nil.
    destruct (decide (sort_key x = k)) as [Hx|Hx].
    + assert (filter (λ a, sort_key a = k) l = []) as ->.
      { apply filter_none. rewrite Forall_forall in Hy |- *.
        intros z Hz. specialize (Hy z Hz). simpl in Hy. lia. }
      destruct (decide (sort_key y = k)); [lia|done].
    + by rewrite (right_id_L [] (++)).
Qed.

Lemma stable_sort_filter sort_key k l :
  filter (λ a, sort_key a = k) (stable_sort sort_key l) =
  filter (λ a, sort_key a = k) l.
Proof.
  unfold stable_sort.
  enough (∀ acc, StronglySorted (λ a b, sort_key a ≤ sort_key b) acc →
     filter (λ a, sort_key a = k)
       (foldl (λ acc x, insert_sorted sort_key x acc) acc l) =
     filter (λ a, sort_key a = k) (acc ++ l)) as Hgen.
  { rewrite Hgen; [done|constructor]. }
  induction l as [|x l IH]; intros acc Hacc; simpl.
  - by rewrite (right_id_L [] (++)).
  - rewrite IH by by apply insert_sorted_sorted.
    rewrite !filter_app, insert_sorted_filter, filter_app by done.
    rewrite filter_cons, (filter_cons _ x l), filter_nil.
    destruct (decide _); by rewrite <- ?(assoc_L (++)).
Qed.

Lemma rev_reverse l : rev l = reverse l.
Proof. unfold reverse. apply rev_alt. Qed.

Lemma rev_filter (P : A → Prop) `{∀ x, Decision (P x)} l :
  filter P (rev l) = rev (filter P l).
Proof. rewrite !rev_reverse. apply filter_reverse. Qed.

Lemma list_sort_filter sort_key reverse k l :
  filter (λ a, sort_key a = k) (list_sort sort_key reverse l) =
  filter (λ a, sort_key a = k) l.
Proof.
  unfold list_sort. destruct reverse; [|apply stable_sort_filter].
  rewrite rev_filter, stable_sort_filter, rev_filter.
  apply rev_involutive.
Qed.

Lemma list_sort_sorted sort_key (reverse : bool) l :
  StronglySorted
    (λ a b, if reverse then sort_key b ≤ sort_key a
            else sort_key a ≤ sort_key b)
    (list_sort sort_key reverse l).
Proof.
  unfold list_sort. destruct reverse; [|apply stable_sort_sorted].
  apply (StronglySorted_rev (λ a b, sort_key a ≤ sort_key b)).
  apply stable_sort_sorted.
Qed.

End sorting_facts.

(** * More about the reconciliation pass *)

Section pass_facts.
Context `{Countable item}.
Implicit Types l pre post todo : list item.
Implicit Types p : pass (item := item).

Lemma for_each_app data_items todo1 todo2 p :
  for_each data_items (todo1 ++ todo2) p =
  for_each data_items todo1 p >>> for_each data_items todo2.
Proof.
  revert p. induction todo1 as [|x todo1 IH]; intros p; simpl; [done|].
  destruct (visit data_items p x) as [p'|p']; simpl; [apply IH|done].
Qed.

Lemma list_index_middle pre post (x : item) :
  x ∉ pre → list_index x (pre ++ x :: post) = Some (length pre).
Proof.
  intros Hx. apply list_index_Some. split; [by apply list_lookup_middle|].
  intros j Hj Hl. rewrite lookup_app_l in Hl by done.
  destruct Hx. by eapply list_elem_of_lookup_2.
Qed.

(** A new data item that is already at the current index costs
    nothing. *)
Lemma visit_in_place data_items pre post x p :
  index p = length pre → old_data_items p = pre ++ x :: post →
  x ∉ pre → x ∈ data_items →
  visit data_items p x =
    Returned {| index := S (index p); old_data_items := old_data_items p;
                __data_items := __data_items p; notified := notified p |}.
Proof.
  intros Hi Hold Hx Hin. unfold visit, remove_stale.
  rewrite Hold, Hi, list_lookup_middle by done.
  rewrite (proj2 (contains_true _ _) Hin). simpl.
  unfold place. rewrite Hold, list_index_middle by done. unfold assert.
  rewrite Hi, bool_decide_eq_true_2 by lia. simpl.
  rewrite Hi, bool_decide_eq_false_2 by lia. simpl.
  unfold advance. by rewrite Hi, Hold.
Qed.

Lemma for_each_in_place data_items todo : ∀ pre post p,
  index p = length pre → old_data_items p = pre ++ todo ++ post →
  NoDup (pre ++ todo) → (∀ x, x ∈ todo → x ∈ data_items) →
  for_each data_items todo p =
    Returned {| index := (index p + length todo)%nat;
                old_data_items := old_data_items p;
                __data_items := __data_items p; notified := notified p |}.
Proof.
  induction todo as [|x todo IH]; intros pre post p Hi Hold Hnd Hin; simpl.
  - rewrite Nat.add_0_r. by destruct p.
  - assert (x ∉ pre) as Hx.
    { apply NoDup_app in Hnd as (_ & Hnd & _). intros Hpre.
      apply (Hnd x Hpre). by left. }
    rewrite (visit_in_place data_items pre (todo ++ post) x p);
      [|done..|apply Hin; by left].
    simpl. rewrite (IH (pre ++ [x]) post); simpl.
    + by rewrite Nat.add_succ_r.
    + rewrite Hi, length_app. simpl. lia.
    + by rewrite Hold, <- (assoc_L (++)).
    + by rewrite <- (assoc_L (++)).
    + intros y Hy. apply Hin. by right.
Qed.

Lemma drain_nothing p :
  old_data_items p !! index p = None → drain p = Returned p.
Proof.
  intros Hnone. unfold drain.
  destruct (length (old_data_items p)); simpl; [done|]. by rewrite Hnone.
Qed.

(** Nothing to do: the new list is the old list. *)
Lemma reconcile_same_list l :
  NoDup l →
  reconcile l (begin_pass l) =
    Returned {| index := length l; old_data_items := l; __data_items := l;
                notified := [] |}.
Proof.
  intros Hnd. unfold reconcile.
  rewrite (for_each_in_place l l [] [] (begin_pass l));
    [|done|by rewrite (right_id_L [] (++))|done|done].
  simpl. apply drain_nothing. simpl. by apply lookup_ge_None_2.
Qed.

(** X1. A pass from a duplicate-free list to the same list calls no
    listener and leaves the list as it is. *)
Theorem reconcile_same_list_is_silent l :
  NoDup l →
  reconcile l (begin_pass l) =
    Returned {| index := length l; old_data_items := l; __data_items := l;
                notified := [] |}.
Proof. by apply reconcile_same_list. Qed.

(** X2. When the new list is the old list with one more data item, at
    any place, the pass makes one call, of the inserters, with that data
    item and its index. *)
Theorem reconcile_one_more_is_one_insert pre post (x : item) :
  NoDup (pre ++ x :: post) →
  reconcile (pre ++ x :: post) (begin_pass (pre ++ post)) =
    Returned {| index := length (pre ++ x :: post);
                old_data_items := pre ++ x :: post;
                __data_items := pre ++ x :: post;
                notified :=
                  [Notification (Event op_insert x (length pre))
                     (pre ++ x :: post)] |}.
Proof.
  intros Hnd. unfold reconcile.
  assert (x ∉ pre ++ post) as Hx.
  { rewrite <- Permutation_middle in Hnd. by apply NoDup_cons in Hnd as []. }
  assert (NoDup (pre ++ post)) as Hnd'.
  { rewrite <- Permutation_middle in Hnd. by apply NoDup_cons in Hnd as []. }
  rewrite for_each_app.
  rewrite (for_each_in_place _ pre [] post (begin_pass (pre ++ post)));
    [|done|done| |].
  2:{ rewrite (left_id_L [] (++)). by apply NoDup_app in Hnd' as []. }
  2:{ intros y Hy. apply elem_of_app. by left. }
  cbn [and_then for_each begin_pass index old_data_items __data_items
       notified Nat.add].
  (* the new data item *)
  unfold visit at 1, remove_stale. cbn [index old_data_items __data_items].
  assert (match (pre ++ post) !! length pre with
          | Some y => contains (pre ++ x :: post) y = true
          | None => True
          end) as Hhead.
  { destruct post as [|y post].
    - by rewrite lookup_ge_None_2 by (rewrite length_app; simpl; lia).
    - rewrite list_lookup_middle by done. apply contains_true.
      apply elem_of_app. right. right. by left. }
  destruct ((pre ++ post) !! length pre) as [y|]; [rewrite Hhead|];
    cbn [and_then];
    unfold place; cbn [index old_data_items __data_items];
    rewrite (proj2 (list_index_None _ _) Hx),
      (proj2 (contains_false _ _) Hx); unfold assert; cbn [negb and_then];
    unfold insert_at, advance;
    cbn [and_then index old_data_items __data_items notified];
    rewrite list_insert_at_middle;
    (rewrite (for_each_in_place _ post (pre ++ [x]) []);
     cbn [index old_data_items __data_items notified];
     [|rewrite length_app; simpl; lia
      |by rewrite (right_id_L [] (++)), <- (assoc_L (++))
      |by rewrite <- (assoc_L (++))
      |intros z Hz; apply elem_of_app; right; by right]);
    cbn [and_then]; rewrite drain_nothing;
    cbn [index old_data_items];
    try (apply lookup_ge_None_2; rewrite !length_app; simpl; lia);
    do 2 f_equal; rewrite !length_app; simpl; lia.
Qed.


(** X3. When the new list is the old list without one of its data
    items, the pass makes one call, of the removers, with that data
    item and its index. *)
Theorem reconcile_one_less_is_one_remove pre post (x : item) :
  NoDup (pre ++ x :: post) →
  reconcile (pre ++ post) (begin_pass (pre ++ x :: post)) =
    Returned {| index := length (pre ++ post);
                old_data_items := pre ++ post;
                __data_items := pre ++ post;
                notified :=
                  [Notification (Event op_remove x (length pre))
                     (pre ++ post)] |}.
Proof.
  intros Hnd. unfold reconcile.
  assert (x ∉ pre ++ post) as Hx.
  { rewrite <- Permutation_middle in Hnd. by apply NoDup_cons in Hnd as []. }
  assert (NoDup (pre ++ post)) as Hnd'.
  { rewrite <- Permutation_middle in Hnd. by apply NoDup_cons in Hnd as []. }
  assert (contains (pre ++ x :: post) x = true) as Hauth.
  { apply contains_true, elem_of_app. right. by left. }
  rewrite for_each_app.
  rewrite (for_each_in_place _ pre [] (x :: post)
             (begin_pass (pre ++ x :: post))); [|done|done| |].
  2:{ rewrite (left_id_L [] (++)). by apply NoDup_app in Hnd' as []. }
  2:{ intros y Hy. apply elem_of_app. by left. }
  cbn [and_then begin_pass index old_data_items __data_items notified
       Nat.add].
  destruct post as [|y post].
  - (* the data item was the last one: lines 143-149 remove it *)
    cbn [for_each and_then]. unfold drain.
    cbn [old_data_items]. rewrite length_app, Nat.add_comm.
    cbn [length Nat.add drain_loop index old_data_items __data_items].
    rewrite list_lookup_middle, Hauth by done. unfold assert.
    cbn [and_then]. unfold remove_at.
    cbn [index old_data_items __data_items notified].
    rewrite (list_del_Some _ _ x) by by apply list_lookup_middle.
    rewrite delete_middle. cbn [and_then app].
    rewrite (right_id_L [] (++)).
    destruct (length pre) eqn:Hlen; cbn [drain_loop];
      [|cbn [index old_data_items];
        rewrite lookup_ge_None_2 by (rewrite Hlen; lia)];
      by rewrite ?Hlen.
  - (* lines 111-117 remove it when its successor is visited *)
    cbn [for_each and_then]. unfold visit at 1, remove_stale.
    cbn [index old_data_items __data_items].
    rewrite list_lookup_middle by done.
    rewrite (proj2 (contains_false _ _) Hx), Hauth. unfold assert.
    cbn [and_then]. unfold remove_at.
    cbn [index old_data_items __data_items notified].
    rewrite (list_del_Some _ _ x) by by apply list_lookup_middle.
    rewrite delete_middle. cbn [and_then app].
    assert (y ∉ pre) as Hy.
    { apply NoDup_app in Hnd' as (_ & Hnd' & _). intros Hpre.
      apply (Hnd' y Hpre). by left. }
    unfold place. cbn [index old_data_items __data_items].
    rewrite list_index_middle by done. unfold assert.
    rewrite bool_decide_eq_true_2 by lia. cbn [and_then index].
    rewrite bool_decide_eq_false_2 by lia. unfold advance.
    cbn [and_then index old_data_items __data_items notified].
    rewrite (for_each_in_place _ post (pre ++ [y]) []);
      cbn [index old_data_items __data_items notified];
      [|rewrite length_app; simpl; lia
       |by rewrite (right_id_L [] (++)), <- (assoc_L (++))
       |by rewrite <- (assoc_L (++))
       |intros z Hz; apply elem_of_app; right; by right].
    cbn [and_then]. rewrite drain_nothing; cbn [index old_data_items].
    + do 2 f_equal. rewrite !length_app. simpl. lia.
    + apply lookup_ge_None_2. rewrite !length_app. simpl. lia.
Qed.

End pass_facts.

Lemma reconcile_same_list_is_silent_witness :
  NoDup [1; 2; 3]%nat ∧
  reconcile [1; 2; 3]%nat (begin_pass [1; 2; 3]%nat) =
  Returned {| index := 3; old_data_items := [1; 2; 3]%nat;
              __data_items := [1; 2; 3]%nat; notified := [] |}.
Proof.
  split; [compute_done|].
  apply (reconcile_same_list_is_silent [1; 2; 3]%nat). compute_done.
Defined.

Lemma reconcile_one_more_is_one_insert_witness :
  NoDup [1; 2; 3]%nat ∧
  notified (state_of (reconcile [1; 2; 3]%nat (begin_pass [1; 3]%nat))) =
  [Notification (Event op_insert 2%nat 1) [1; 2; 3]%nat].
Proof.
  split; [compute_done|].
  rewrite (reconcile_one_more_is_one_insert [1%nat] [3%nat] 2%nat)
    by compute_done.
  reflexivity.
Defined.

Lemma reconcile_one_less_is_one_remove_witness :
  NoDup [1; 2; 3]%nat ∧
  notified (state_of (reconcile [1; 3]%nat (begin_pass [1; 2; 3]%nat))) =
  [Notification (Event op_remove 2%nat 1) [1; 3]%nat].
Proof.
  split; [compute_done|].
  rewrite (reconcile_one_less_is_one_remove [1%nat] [3%nat] 2%nat)
    by compute_done.
  reflexivity.
Defined.

(** * More about the pass of a binding *)

Section settle_facts.
Context `{Countable item}.
Context {Sub Container : Type}.
Variable _get_master_data_items : Sub → list item.
Variable container : Sub → option Container.
Import DataItemsBinding.
Local Abbreviation Binding :=
  (DataItemsBinding.Binding (item := item) (Sub := Sub)
     (Container := Container)).
Local Abbreviation _update_data_items :=
  (DataItemsBinding._update_data_items _get_master_data_items container).
Local Abbreviation proposed :=
  (λ w b, expand w b <$>
          sorted_master_data_items _get_master_data_items container w b).
Implicit Types b : Binding.

(** What a pass does when it returns and when it raises. *)
Lemma _update_data_items_all_or_nothing w b :
  NoDup (data_items b) → __change_level b ≤ 0 →
  match _update_data_items w b with
  | Returned b' =>
    proposed w b = Some (data_items b') ∧
    NoDup (data_items b') ∧
    ∃ ns, notifications b' = notifications b ++ ns ∧
          lockstep (data_items b) ns ∧
          replay (note_event <$> ns) (data_items b) = Some (data_items b')
  | Raised b' =>
    data_items b' = data_items b ∧ notifications b' = notifications b
  end.
Proof.
  intros Hnd Hlevel. unfold DataItemsBinding._update_data_items.
  rewrite bool_decide_eq_false_2 by lia.
  change (sorted_master_data_items _get_master_data_items container w
            (count_pass b))
    with (sorted_master_data_items _get_master_data_items container w b).
  destruct (sorted_master_data_items _ _ w b) as [master|]; [|done].
  change (expand w (count_pass b) master) with (expand w b master).
  unfold assert.
  do 2 (match goal with |- context [if ?c then _ else _] => destruct c end;
    cbn [and_then]; [|done]).
  destruct (all_distinct (expand w b master)) eqn:Hnew; cbn [and_then];
    [|done].
  apply bool_decide_eq_true in Hnew.
  destruct (reconcile_in_step _ _ Hnd Hnew)
    as (p & Hp & (_ & Hlock & Hseen & _) & Hl & _).
  cbn [data_items count_pass]. rewrite Hp. cbn [end_pass data_items
    notifications count_pass]. rewrite Hl.
  split_and!; [done..|]. exists (notified p). split_and!; [done..|].
  rewrite (lockstep_replay _ _ Hlock). congruence.
Qed.

(** X5. A second pass right after a pass that returned, in the same
    world, returns too, calls no listener and leaves the list as it
    is. *)
Theorem second_pass_is_silent w b b1 :
  NoDup (data_items b) → __change_level b ≤ 0 →
  _update_data_items w b = Returned b1 →
  ∃ b2, _update_data_items w b1 = Returned b2 ∧
        data_items b2 = data_items b1 ∧
        notifications b2 = notifications b1.
Proof.
  intros Hnd Hlevel Hfirst.
  pose proof (_update_data_items_all_or_nothing w b Hnd Hlevel) as Hall.
  rewrite Hfirst in Hall. destruct Hall as (Hprop & Hnd1 & _).
  pose proof (_update_data_items_frame _get_master_data_items container w b)
    as Hframe.
  rewrite Hfirst in Hframe. simpl in Hframe.
  destruct Hframe as (Hsub & Hlevel1 & Hfilter & Hsort & _).
  revert Hfirst. unfold DataItemsBinding._update_data_items.
  rewrite !bool_decide_eq_false_2 by lia.
  change (sorted_master_data_items _get_master_data_items container w
            (count_pass b))
    with (sorted_master_data_items _get_master_data_items container w b).
  assert (sorted_master_data_items _get_master_data_items container w
            (count_pass b1) =
          sorted_master_data_items _get_master_data_items container w b)
    as ->.
  { unfold sorted_master_data_items, master_data_items. simpl.
    by rewrite Hsub, Hsort. }
  destruct (sorted_master_data_items _ _ w b) as [master|]; [|done].
  assert (expand w (count_pass b1) master = expand w b master) as ->.
  { unfold expand. simpl. by rewrite Hfilter. }
  change (expand w (count_pass b) master) with (expand w b master).
  simpl in Hprop. injection Hprop as Hprop.
  cbn [sub count_pass]. rewrite Hsub. unfold assert.
  do 3 (match goal with |- context [if ?c then _ else _] => destruct c end;
    cbn [and_then]; [|done]).
  intros _. cbn [data_items count_pass]. rewrite Hprop.
  rewrite reconcile_same_list by done.
  eexists. split; [done|]. cbn [end_pass data_items notifications count_pass].
  split; [done|]. apply (right_id_L [] (++)).
Qed.

(** What a data item must be to be in the proposed list. *)
Lemma elem_of_proposed w b l x :
  proposed w b = Some l →
  x ∈ l ↔
  ∃ master_data_item,
    master_data_item ∈ _get_master_data_items (sub b) ∧
    has_master_data w master_data_item = true ∧
    match __filter b with
    | Some f => f master_data_item = true
    | None => True
    end ∧
    (x = master_data_item ∨
     x ∈ get_flat_data_item_generator_in_container w master_data_item).
Proof.
  unfold sorted_master_data_items. intros Hprop.
  assert (∃ master, l = expand w b master ∧
                    master ≡ₚ master_data_items _get_master_data_items w b)
    as (master & -> & Hperm).
  { destruct (__sort b) as [sort|]; simpl in Hprop.
    - destruct (container (sub b)) as [c|]; [|done].
      destruct (sort c) as [sort_key reverse]. simpl in Hprop.
      injection Hprop as <-. eexists. split; [done|].
      apply list_sort_Permutation.
    - injection Hprop as <-. by eexists. }
  unfold expand. rewrite list_elem_of_In, in_flat_map. split.
  - intros (m & Hm & Hx). apply list_elem_of_In in Hm, Hx.
    rewrite Hperm in Hm. apply list_elem_of_filter in Hm as [Hmd Hm].
    exists m. destruct (__filter b) as [f|].
    + destruct (f m); [|by apply elem_of_nil in Hx].
      apply elem_of_cons in Hx. naive_solver.
    + apply elem_of_cons in Hx. naive_solver.
  - intros (m & Hm & Hmd & Hf & Hx). exists m. split.
    + apply list_elem_of_In. rewrite Hperm. by apply list_elem_of_filter.
    + apply list_elem_of_In.
      assert (match __filter b with Some f => f m | None => true end = true)
        as -> by by destruct (__filter b).
      apply elem_of_cons. naive_solver.
Qed.

End settle_facts.

Lemma second_pass_is_silent_witness :
  let w := World (λ x : nat, bool_decide (x ≠ 2%nat)) (λ _, []) in
  let b := DataItemsBinding.set_sub (DataItemsFilterBinding.Fields [3; 2; 1]%nat)
             (DataItemsFilterBinding.__init__ (Container := unit)) in
  let b1 := state_of (DataItemsFilterBinding._update_data_items None w b) in
  NoDup (DataItemsBinding.data_items b) ∧
  DataItemsBinding.__change_level b ≤ 0 ∧
  DataItemsFilterBinding._update_data_items None w b = Returned b1 ∧
  ∃ b2, DataItemsFilterBinding._update_data_items None w b1 = Returned b2 ∧
        DataItemsBinding.data_items b2 = DataItemsBinding.data_items b1 ∧
        DataItemsBinding.notifications b2 = DataItemsBinding.notifications b1.
Proof.
  intros w b b1. split; [apply NoDup_nil_2|]. split; [simpl; lia|].
  split; [reflexivity|].
  apply (second_pass_is_silent
    DataItemsFilterBinding._get_master_data_items
    (DataItemsFilterBinding.container None) w b b1).
  - apply NoDup_nil_2.
  - simpl. lia.
  - reflexivity.
Defined.

Section listed_items.
Context `{Countable item}.

(** X6. After a pass of a container binding that returned, a data item
    is in the list exactly if it is, or is a dependent data item of, a
    key of the counter that has master data and passes the filter; the
    count of the key plays no part, so a key that [update] left with
    count zero or below is listed like any other. *)
Theorem container_binding_lists_keys {ContainerObject} (w : world item)
  (b b' : DataItemsInContainerBinding.Binding
            (ContainerObject := ContainerObject)) :
  NoDup (DataItemsBinding.data_items b) →
  DataItemsBinding.__change_level b ≤ 0 →
  DataItemsInContainerBinding._update_data_items w b = Returned b' →
  ∀ x, x ∈ DataItemsBinding.data_items b' ↔
    ∃ key count,
      DataItemsInContainerBinding.__counted_data_items
        (DataItemsBinding.sub b) !! key = Some count ∧
      has_master_data w key = true ∧
      match DataItemsBinding.__filter b with
      | Some f => f key = true
      | None => True
      end ∧
      (x = key ∨ x ∈ get_flat_data_item_generator_in_container w key).
Proof.
  intros Hnd Hlevel Hpass x.
  pose proof (_update_data_items_all_or_nothing
    DataItemsInContainerBinding._get_master_data_items
    DataItemsInContainerBinding.container w b Hnd Hlevel) as Hall.
  unfold DataItemsInContainerBinding._update_data_items in Hpass.
  rewrite Hpass in Hall. destruct Hall as (Hprop & _).
  rewrite (elem_of_proposed _ _ w b _ x Hprop).
  unfold DataItemsInContainerBinding._get_master_data_items.
  split.
  - intros (key & Hkey & Hrest).
    apply list_elem_of_fmap in Hkey as ([k count] & -> & Hkey).
    apply elem_of_map_to_list in Hkey. by exists k, count.
  - intros (key & count & Hkey & Hrest). exists key. split; [|done].
    apply list_elem_of_fmap. exists (key, count). split; [done|].
    by apply elem_of_map_to_list.
Qed.

End listed_items.

Lemma container_binding_lists_keys_witness :
  let w := World (λ _ : nat, true) (λ _, []) in
  let b := DataItemsBinding.set_sub
    (DataItemsInContainerBinding.Fields {[1%nat := 0]} (None : option unit))
    DataItemsInContainerBinding.__init__ in
  let b' := state_of (DataItemsInContainerBinding._update_data_items w b) in
  DataItemsBinding.data_items b' = [1%nat] ∧
  ∀ x, x ∈ DataItemsBinding.data_items b' ↔
    ∃ key count,
      DataItemsInContainerBinding.__counted_data_items
        (DataItemsBinding.sub b) !! key = Some count ∧
      has_master_data w key = true ∧
      match DataItemsBinding.__filter b with
      | Some f => f key = true
      | None => True
      end ∧
      (x = key ∨ x ∈ get_flat_data_item_generator_in_container w key).
Proof.
  intros w b b'. split; [reflexivity|].
  apply (container_binding_lists_keys w b b').
  - apply NoDup_nil_2.
  - simpl. lia.
  - reflexivity.
Defined.

(** * A filter binding behind another binding *)

Section chain_facts.
Context `{Countable item} {Container : Type}.
Variable inherited_container : option Container.
Import DataItemsBinding.
Local Abbreviation Binding :=
  (DataItemsFilterBinding.Binding (item := item) (Container := Container)).
Local Abbreviation master :=
  (λ b : Binding, DataItemsFilterBinding.__master_data_items (sub b)).
Local Abbreviation proposed :=
  (λ (w : world item) (b : Binding),
     expand w b <$>
     sorted_master_data_items DataItemsFilterBinding._get_master_data_items
       (DataItemsFilterBinding.container inherited_container) w b).
Implicit Types b : Binding.

(** Without dependent data items the proposed list of a duplicate-free
    master list is duplicate-free. *)
Lemma expand_NoDup (w : world item) b l :
  (∀ x, get_flat_data_item_generator_in_container w x = []) →
  NoDup l → NoDup (expand w b l).
Proof.
  intros Hw. unfold expand. induction 1 as [|x l Hx Hl IH]; simpl.
  - constructor.
  - rewrite Hw. destruct (match __filter b with
                          | Some f => f x | None => true end); [|done].
    simpl. constructor; [|done]. intros Hin. apply Hx.
    apply list_elem_of_In, in_flat_map in Hin as (y & Hy & Hin).
    rewrite Hw in Hin. destruct (match __filter b with
                                 | Some f => f y | None => true end);
      [|done].
    destruct Hin as [->|[]]. by apply list_elem_of_In.
Qed.

(** The pass of a filter binding whose master list is duplicate-free
    cannot raise when there are no dependent data items and the sort,
    if any, finds a container. *)
Lemma filter_binding_pass_returns (w : world item) b :
  (∀ x, get_flat_data_item_generator_in_container w x = []) →
  (__sort b = None ∨ is_Some inherited_container) →
  NoDup (master b) → NoDup (data_items b) →
  ∃ b', DataItemsFilterBinding._update_data_items inherited_container w b
          = Returned b' ∧
        sub b' = sub b ∧ __sort b' = __sort b ∧ __filter b' = __filter b ∧
        __change_level b' = __change_level b ∧
        NoDup (data_items b') ∧
        (__change_level b ≤ 0 → proposed w b' = Some (data_items b')).
Proof.
  intros Hw Hsort Hmaster Hnd.
  pose proof (_update_data_items_frame
    DataItemsFilterBinding._get_master_data_items
    (DataItemsFilterBinding.container inherited_container) w b) as Hframe.
  unfold DataItemsFilterBinding._update_data_items in *.
  destruct (decide (__change_level b > 0)) as [Hpos|Hneg].
  { unfold DataItemsBinding._update_data_items.
    rewrite bool_decide_eq_true_2 by done. exists b.
    split_and!; [done..|]. lia. }
  pose proof (_update_data_items_all_or_nothing
    DataItemsFilterBinding._get_master_data_items
    (DataItemsFilterBinding.container inherited_container) w b Hnd) as Hall.
  assert (∃ b', DataItemsBinding._update_data_items
                  DataItemsFilterBinding._get_master_data_items
                  (DataItemsFilterBinding.container inherited_container) w b
                = Returned b') as [b' Hb'].
  { unfold DataItemsBinding._update_data_items.
    rewrite bool_decide_eq_false_2 by done.
    unfold sorted_master_data_items, master_data_items,
      DataItemsFilterBinding.container,
      DataItemsFilterBinding._get_master_data_items.
    cbn [sub __sort count_pass].
    assert (∃ l, match __sort b with
                 | Some sort =>
                   match inherited_container with
                   | Some c =>
                     let '(sort_key, reverse) := sort c in
                     Some (list_sort sort_key reverse
                             (filter (λ x, has_master_data w x = true)
                                (master b)))
                   | None => None
                   end
                 | None =>
                   Some (filter (λ x, has_master_data w x = true) (master b))
                 end = Some l ∧ NoDup l) as (l & -> & Hl).
    { destruct (__sort b) as [sort|].
      - destruct Hsort as [|[c ->]]; [done|].
        destruct (sort c) as [sort_key reverse]. eexists. split; [done|].
        rewrite list_sort_Permutation. by apply NoDup_filter.
      - eexists. split; [done|]. by apply NoDup_filter. }
    unfold assert, all_distinct.
    rewrite (bool_decide_eq_true_2 _ Hmaster). cbn [and_then].
    rewrite (bool_decide_eq_true_2 _ Hl). cbn [and_then].
    rewrite bool_decide_eq_true_2 by by apply expand_NoDup.
    cbn [and_then]. destruct (reconcile _ _) eqn:Hrec; [by eexists|].
    exfalso.
    destruct (reconcile_in_step (data_items (count_pass b))
                (expand w (count_pass b) l)) as (p & Hp & _);
      [done|by apply expand_NoDup|].
    congruence. }
  rewrite Hb' in Hall, Hframe. simpl in Hframe.
  destruct Hframe as (? & ? & ? & ? & _).
  exists b'. split_and!; [done..| |].
  - apply Hall. lia.
  - intros Hlevel. destruct (Hall Hlevel) as (Hprop & _).
    rewrite <- Hprop. unfold sorted_master_data_items, master_data_items,
      expand. by repeat match goal with Heq : _ b' = _ b |- _ =>
                          rewrite Heq; clear Heq end.
Qed.

(** One call of the watched binding. *)
Lemma listen_step (w : world item) b n l :
  (∀ x, get_flat_data_item_generator_in_container w x = []) →
  (__sort b = None ∨ is_Some inherited_container) →
  master b = l → NoDup l → NoDup (data_items b) →
  apply_event (note_event n) l = Some (note_data_items n) →
  NoDup (note_data_items n) →
  ∃ b', Chain.listen inherited_container n w b = Returned b' ∧
        master b' = note_data_items n ∧
        __sort b' = __sort b ∧ __filter b' = __filter b ∧
        __change_level b' = __change_level b ∧
        NoDup (data_items b') ∧
        (__change_level b ≤ 0 → proposed w b' = Some (data_items b')).
Proof.
  intros Hw Hsort Hmaster Hl Hnd Hevent Hl'.
  destruct n as [[op x i] l']. unfold Chain.listen, apply_event in *.
  simpl in *. destruct op.
  - (* inserted *)
    case_decide as Hi; [|done]. injection Hevent as <-.
    assert (x ∉ l) as Hx.
    { unfold list_insert_at in Hl'.
      rewrite <- Permutation_middle, take_drop in Hl'.
      by apply NoDup_cons in Hl' as []. }
    unfold DataItemsFilterBinding.data_item_inserted, sub_method.
    rewrite Hmaster, (proj2 (contains_false _ _) Hx). simpl.
    set (b1 := set_sub _ b).
    destruct (filter_binding_pass_returns w b1 Hw)
      as (b' & Hb' & Hsub & Hs & Hf & Hlevel & Hnd' & Hprop);
      [done|by subst b1; simpl; rewrite Hmaster|done|].
    exists b'. unfold DataItemsFilterBinding._update_data_items in Hb'.
    rewrite Hb', Hsub. subst b1. simpl. by rewrite Hmaster.
  - (* removed *)
    case_decide as Hi; [|done]. injection Hevent as <-.
    unfold DataItemsFilterBinding.data_item_removed, sub_method.
    rewrite Hmaster.
    rewrite (proj2 (contains_true l x))
      by by eapply list_elem_of_lookup_2.
    simpl. rewrite Hmaster, (list_del_Some _ _ _ Hi).
    set (b1 := set_sub _ b).
    destruct (filter_binding_pass_returns w b1 Hw)
      as (b' & Hb' & Hsub & Hs & Hf & Hlevel & Hnd' & Hprop);
      [done|by subst b1|done|].
    exists b'. unfold DataItemsFilterBinding._update_data_items in Hb'.
    rewrite Hb', Hsub. by subst b1.
Qed.

Lemma feed_cons n ns (w : world item) b :
  Chain.feed inherited_container (n :: ns) w b =
  Chain.listen inherited_container n w b >>>
  Chain.feed inherited_container ns w.
Proof.
  unfold Chain.feed. simpl.
  generalize (Chain.listen inherited_container n w b). intros o.
  destruct o as [b'|b']; simpl; [done|].
  induction ns as [|n' ns IH]; simpl; [done|]. apply IH.
Qed.

(** The calls of a pass of the watched binding, one after the other. *)
Lemma feed_follows (w : world item) ns : ∀ b start,
  (∀ x, get_flat_data_item_generator_in_container w x = []) →
  (__sort b = None ∨ is_Some inherited_container) →
  master b = start → NoDup start → NoDup (data_items b) →
  lockstep start ns → seen_distinct ns →
  ∃ b', Chain.feed inherited_container ns w b = Returned b' ∧
        master b' = seen start ns ∧
        __sort b' = __sort b ∧ __filter b' = __filter b ∧
        NoDup (data_items b') ∧
        (ns ≠ [] → __change_level b ≤ 0 →
         proposed w b' = Some (data_items b')).
Proof.
  induction ns as [|n ns IH];
    intros b start Hw Hsort Hmaster Hstart Hnd Hlock Hdistinct.
  - exists b. by split_and!.
  - destruct Hlock as [Hevent Hlock].
    apply Forall_cons in Hdistinct as [Hn Hdistinct].
    destruct (listen_step w b n start Hw Hsort Hmaster Hstart Hnd Hevent Hn)
      as (b1 & Hb1 & Hmaster1 & Hsort1 & Hfilter1 & Hlevel1 & Hnd1 & Hprop1).
    rewrite feed_cons, Hb1. cbn [and_then].
    destruct (IH b1 (note_data_items n) Hw)
      as (b' & Hfeed & Hm & Hs & Hf & Hnd' & Hprop');
      [by rewrite Hsort1|done..|].
    rewrite Hfeed. exists b'.
    split_and!; [done|done|congruence|congruence|done|].
    intros _ Hlevel. destruct ns as [|n' ns].
    + injection Hfeed as <-. by apply Hprop1.
    + apply Hprop'; [done|lia].
Qed.

Lemma expand_filter (w : world item) b l :
  (∀ x, get_flat_data_item_generator_in_container w x = []) →
  expand w b l =
  filter (λ x, match __filter b with Some f => f x | None => true end = true)
    l.
Proof.
  intros Hw. unfold expand. induction l as [|x l IH]; simpl; [done|].
  rewrite Hw, IH.
  destruct (match __filter b with Some f => f x | None => true end) eqn:Hx.
  - by rewrite filter_cons_True by done.
  - by rewrite filter_cons_False by (by rewrite Hx).
Qed.

(** X7. A filter binding whose master list is the list of the binding
    it watches follows it: given the listener calls of a pass of the
    watched binding, in lockstep and duplicate-free as that pass makes
    them, every [data_item_inserted] and [data_item_removed] passes its
    asserts and returns, and the master list ends as the list of the
    watched binding.  This is for data items without dependent data
    items and a sort that finds its container; the own list of the
    filter binding stays duplicate-free, and at change level zero it is
    the list proposed for the new master list. *)
Theorem filter_binding_follows (w : world item) ns : ∀ b start,
  (∀ x, get_flat_data_item_generator_in_container w x = []) →
  (__sort b = None ∨ is_Some inherited_container) →
  master b = start → NoDup start → NoDup (data_items b) →
  lockstep start ns → seen_distinct ns →
  ∃ b', Chain.feed inherited_container ns w b = Returned b' ∧
        master b' = seen start ns ∧
        NoDup (data_items b') ∧
        (ns ≠ [] → __change_level b ≤ 0 →
         proposed w b' = Some (data_items b')).
Proof.
  intros b start Hw Hsort Hmaster Hstart Hnd Hlock Hdistinct.
  destruct (feed_follows w ns b start Hw Hsort Hmaster Hstart Hnd Hlock
              Hdistinct) as (b' & Hfeed & Hm & _ & _ & Hnd' & Hprop).
  by exists b'.
Qed.

(** X26. A filter binding without a sort shows the filtered list of
    the binding it watches: after the listener calls of a pass of the
    watched binding, its own list is the list of the watched binding
    without the data items that have no master data or do not pass its
    filter, in the same order.  This is for data items without
    dependent data items, at change level zero. *)
Theorem filter_binding_shows_filtered_list (w : world item) ns b start :
  (∀ x, get_flat_data_item_generator_in_container w x = []) →
  __sort b = None → __change_level b ≤ 0 →
  master b = start → NoDup start → NoDup (data_items b) →
  lockstep start ns → seen_distinct ns → ns ≠ [] →
  ∃ b', Chain.feed inherited_container ns w b = Returned b' ∧
        data_items b' =
          filter
            (λ x, match __filter b with Some f => f x | None => true end
                  = true)
            (filter (λ x, has_master_data w x = true) (seen start ns)).
Proof.
  intros Hw Hsort Hlevel Hmaster Hstart Hnd Hlock Hdistinct Hns.
  destruct (feed_follows w ns b start Hw (or_introl Hsort) Hmaster Hstart
              Hnd Hlock Hdistinct)
    as (b' & Hfeed & Hm & Hs & Hf & Hnd' & Hprop).
  exists b'. split; [done|].
  specialize (Hprop Hns Hlevel).
  unfold sorted_master_data_items, master_data_items in Hprop.
  rewrite Hs, Hsort in Hprop. simpl in Hprop. injection Hprop as Hprop.
  rewrite <-Hprop, (expand_filter w b' _ Hw), Hf.
  unfold DataItemsFilterBinding._get_master_data_items. by rewrite Hm.
Qed.

End chain_facts.

Lemma filter_binding_follows_witness :
  let w := World (λ _ : nat, true) (λ _, []) in
  let b := DataItemsBinding.set_sub
             (DataItemsFilterBinding.Fields [1; 2; 3]%nat)
             (DataItemsFilterBinding.__init__ (Container := unit)) in
  let ns := notified (state_of (reconcile [3; 1; 4]%nat
                                  (begin_pass [1; 2; 3]%nat))) in
  ∃ b', Chain.feed None ns w b = Returned b' ∧
        DataItemsFilterBinding.__master_data_items (DataItemsBinding.sub b')
        = seen [1; 2; 3]%nat ns ∧
        NoDup (DataItemsBinding.data_items b') ∧
        (ns ≠ [] → DataItemsBinding.__change_level b ≤ 0 →
         DataItemsBinding.expand w b' <$>
           DataItemsBinding.sorted_master_data_items
             DataItemsFilterBinding._get_master_data_items
             (DataItemsFilterBinding.container None) w b'
         = Some (DataItemsBinding.data_items b')).
Proof.
  intros w b ns.
  apply (filter_binding_follows None w ns b [1; 2; 3]%nat).
  - intros x. reflexivity.
  - left. reflexivity.
  - reflexivity.
  - compute_done.
  - apply NoDup_nil_2.
  - vm_compute. repeat split.
  - unfold seen_distinct. compute_done.
Defined.

Lemma filter_binding_shows_filtered_list_witness :
  let w := World (λ x : nat, bool_decide (x ≠ 3%nat)) (λ _, []) in
  let b := DataItemsBinding.MkBinding [] (Some (λ x, bool_decide (x ≠ 4%nat)))
             None 0 (DataItemsFilterBinding.Fields [1; 2; 3]%nat) [] 0 in
  let ns := notified (state_of (reconcile [3; 1; 4; 5]%nat
                                  (begin_pass [1; 2; 3]%nat))) in
  ∃ b', Chain.feed (None : option unit) ns w b = Returned b' ∧
        DataItemsBinding.data_items b' = [1; 5]%nat.
Proof.
  intros w b ns.
  destruct (filter_binding_shows_filtered_list None w ns b [1; 2; 3]%nat)
    as (b' & Hfeed & Hitems).
  - intros x. reflexivity.
  - reflexivity.
  - simpl. lia.
  - reflexivity.
  - compute_done.
  - apply NoDup_nil_2.
  - vm_compute. repeat split.
  - unfold seen_distinct. compute_done.
  - discriminate.
  - exists b'. split; [exact Hfeed|]. rewrite Hitems. reflexivity.
Defined.

(** * The two sorts *)

Section sort_facts.
Context `{Countable item}.
Context {Sub Container : Type}.
Variable _get_master_data_items : Sub → list item.
Variable container : Sub → option Container.
Import DataItemsBinding.
Local Abbreviation Binding :=
  (DataItemsBinding.Binding (item := item) (Sub := Sub)
     (Container := Container)).
Local Abbreviation sorted :=
  (sorted_master_data_items _get_master_data_items container).
Local Abbreviation unsorted := (master_data_items _get_master_data_items).
Implicit Types b : Binding.

Lemma StronglySorted_filter {A} (R : relation A) (P : A → Prop)
  `{∀ x, Decision (P x)} (l : list A) :
  StronglySorted R l → StronglySorted R (filter P l).
Proof.
  induction 1 as [|x l Hl IH Hx]; [constructor|].
  rewrite filter_cons. destruct (decide (P x)); [|done].
  constructor; [done|]. rewrite Forall_forall in Hx |- *.
  intros y [_ Hy]%list_elem_of_filter. by apply Hx.
Qed.

Lemma StronglySorted_weaken {A} (R1 R2 : relation A) (l : list A) :
  (∀ x y, R1 x y → R2 x y) → StronglySorted R1 l → StronglySorted R2 l.
Proof.
  intros HR. induction 1 as [|x l Hl IH Hx]; constructor; [done|].
  eapply Forall_impl; [done|]. intros y. apply HR.
Qed.

(** A duplicate-free list is sorted by the positions of its items. *)
Lemma NoDup_sorted_by_index (flat : list item) :
  NoDup flat →
  StronglySorted
    (λ x y, default (-1) (Z.of_nat <$> list_index x flat) ≤
            default (-1) (Z.of_nat <$> list_index y flat)) flat.
Proof.
  intros Hnd.
  enough (∀ pre t, flat = pre ++ t →
    StronglySorted
      (λ x y, default (-1) (Z.of_nat <$> list_index x flat) ≤
              default (-1) (Z.of_nat <$> list_index y flat)) t) as Hgen.
  { by apply (Hgen []). }
  intros pre t. revert pre. induction t as [|x t IH]; intros pre Hflat.
  - constructor.
  - constructor.
    + apply (IH (pre ++ [x])). by rewrite <- (assoc_L (++)).
    + apply Forall_forall. intros y Hy.
      apply list_elem_of_split in Hy as (t1 & t2 & ->).
      assert (x ∉ pre) as Hx.
      { subst flat. apply NoDup_app in Hnd as (_ & Hnd & _).
        intros Hin. apply (Hnd x Hin). by left. }
      assert (pre ++ x :: t1 ++ y :: t2 = (pre ++ x :: t1) ++ y :: t2)
        as Hassoc by by rewrite <- (assoc_L (++)).
      assert (y ∉ pre ++ x :: t1) as Hy.
      { subst flat. rewrite Hassoc in Hnd.
        apply NoDup_app in Hnd as (_ & Hnd & _).
        intros Hin. apply (Hnd y Hin). by left. }
      rewrite Hflat, (list_index_middle pre _ x Hx).
      rewrite Hassoc, (list_index_middle _ _ y Hy), length_app. simpl. lia.
Qed.

(** X8. With [sort_natural], when the data items of the container are
    duplicate-free and every master data item with master data is among
    them, the sorted master data items are those data items of the
    container that are master data items with master data, in the order
    of the container. *)
Theorem sort_natural_is_container_order (w : world item) b
  (flat_data_items : Container → list item) c :
  __sort b = Some (Sorts.sort_natural flat_data_items) →
  container (sub b) = Some c →
  NoDup (flat_data_items c) → NoDup (unsorted w b) →
  (∀ x, x ∈ unsorted w b → x ∈ flat_data_items c) →
  sorted w b =
    Some (filter (λ x, x ∈ unsorted w b) (flat_data_items c)).
Proof.
  intros Hsort Hc Hflat Hnd Hin.
  unfold sorted_master_data_items. rewrite Hsort, Hc.
  unfold Sorts.sort_natural. cbv beta iota. f_equal.
  set (key := λ x : item,
         match list_index x (flat_data_items c) with
         | Some i => Z.of_nat i
         | None => -1
         end).
  assert (∀ x, key x = default (-1)
                         (Z.of_nat <$> list_index x (flat_data_items c)))
    as Hkey.
  { intros x. unfold key. by destruct (list_index _ _). }
  apply (StronglySorted_unique_strong (λ x y, key x ≤ key y)).
  - intros x1 x2 Hx1 Hx2 H12 H21.
    rewrite list_sort_Permutation in Hx1. apply Hin in Hx1.
    apply list_elem_of_filter in Hx2 as [_ Hx2].
    assert (key x1 = key x2) as Heq by lia. unfold key in Heq.
    destruct (list_index x1 _) as [i1|] eqn:H1;
      [|by apply list_index_None in H1].
    destruct (list_index x2 _) as [i2|] eqn:H2;
      [|by apply list_index_None in H2].
    apply list_index_Some in H1 as [H1 _], H2 as [H2 _].
    assert (i1 = i2) as -> by lia. congruence.
  - apply (list_sort_sorted key false).
  - apply StronglySorted_filter.
    eapply StronglySorted_weaken; [|by apply NoDup_sorted_by_index].
    intros x y. by rewrite !Hkey.
  - rewrite list_sort_Permutation. apply NoDup_Permutation.
    + done.
    + by apply NoDup_filter.
    + intros x. rewrite list_elem_of_filter.
      split; [intros Hx; split; [done|by apply Hin]|by intros []].
Qed.

(** X9. With [sort_by_date_desc] the sorted master data items are the
    master data items with master data, rearranged so that no date is
    followed by a later one, and data items of one date keep the order
    they had. *)
Theorem sort_by_date_desc_is_stable (w : world item) b (date : item → Z) c :
  __sort b = Some (Sorts.sort_by_date_desc date) →
  container (sub b) = Some c →
  ∃ l, sorted w b = Some l ∧ l ≡ₚ unsorted w b ∧
       StronglySorted (λ x y, date y ≤ date x) l ∧
       ∀ d, filter (λ x, date x = d) l = filter (λ x, date x = d)
                                           (unsorted w b).
Proof.
  intros Hsort Hc. unfold sorted_master_data_items. rewrite Hsort, Hc.
  unfold Sorts.sort_by_date_desc. cbv beta iota.
  eexists. split; [done|]. split_and!.
  - apply list_sort_Permutation.
  - apply (list_sort_sorted date true).
  - intros d. apply list_sort_filter.
Qed.

End sort_facts.

Lemma sort_natural_is_container_order_witness :
  let w := World (λ _ : nat, true) (λ _, []) in
  let b := DataItemsBinding.MkBinding [] None
             (Some (Sorts.sort_natural (λ _ : unit, [5; 3; 1; 2]%nat))) 0
             (DataItemsFilterBinding.Fields [1; 2; 3]%nat) [] 0 in
  DataItemsBinding.sorted_master_data_items
    DataItemsFilterBinding._get_master_data_items
    (DataItemsFilterBinding.container (Some tt)) w b
  = Some [3; 1; 2]%nat.
Proof.
  intros w b.
  rewrite (sort_natural_is_container_order
    DataItemsFilterBinding._get_master_data_items
    (DataItemsFilterBinding.container (Some tt)) w b
    (λ _ : unit, [5; 3; 1; 2]%nat) tt).
  - reflexivity.
  - reflexivity.
  - reflexivity.
  - compute_done.
  - compute_done.
  - intros x Hx. vm_compute in Hx.
    apply elem_of_cons in Hx as [->|Hx]; [compute_done|].
    apply elem_of_cons in Hx as [->|Hx]; [compute_done|].
    apply list_elem_of_singleton in Hx as ->. compute_done.
Defined.

Lemma sort_by_date_desc_is_stable_witness :
  let w := World (λ _ : nat, true) (λ _, []) in
  let date := λ x : nat, Z.of_nat x `mod` 2 in
  let b := DataItemsBinding.MkBinding [] None
             (Some (Sorts.sort_by_date_desc date)) 0
             (DataItemsFilterBinding.Fields [4; 1; 2; 3]%nat) [] 0 in
  ∃ l, DataItemsBinding.sorted_master_data_items
         DataItemsFilterBinding._get_master_data_items
         (DataItemsFilterBinding.container (Some tt)) w b = Some l ∧
       l ≡ₚ DataItemsBinding.master_data_items
              DataItemsFilterBinding._get_master_data_items w b ∧
       StronglySorted (λ x y, date y ≤ date x) l ∧
       ∀ d, filter (λ x, date x = d) l =
            filter (λ x, date x = d)
              (DataItemsBinding.master_data_items
                 DataItemsFilterBinding._get_master_data_items w b).
Proof.
  intros w date b.
  apply (sort_by_date_desc_is_stable
    DataItemsFilterBinding._get_master_data_items
    (DataItemsFilterBinding.container (Some tt)) w b date tt).
  - reflexivity.
  - reflexivity.
Defined.

(** * The display items of a data group *)

Section fromkeys_facts.
Context {A : Type} `{EqDecision A}.
Implicit Types l keys : list A.

Lemma fromkeys_snoc l x :
  DataGroupItems.fromkeys (l ++ [x]) =
    if contains (DataGroupItems.fromkeys l) x
    then DataGroupItems.fromkeys l
    else DataGroupItems.fromkeys l ++ [x].
Proof. unfold DataGroupItems.fromkeys. by rewrite foldl_app. Qed.

Lemma elem_of_fromkeys l x : x ∈ DataGroupItems.fromkeys l ↔ x ∈ l.
Proof.
  induction l as [|y l IH] using rev_ind; [done|].
  rewrite fromkeys_snoc. destruct (contains _ y) eqn:Hy.
  - apply contains_true in Hy. rewrite elem_of_app, list_elem_of_singleton.
    split; [tauto|]. intros [Hx| ->]; [tauto|done].
  - rewrite !elem_of_app. tauto.
Qed.

Lemma fromkeys_NoDup l : NoDup (DataGroupItems.fromkeys l).
Proof.
  induction l as [|y l IH] using rev_ind; [constructor|].
  rewrite fromkeys_snoc. destruct (contains _ y) eqn:Hy; [done|].
  apply contains_false in Hy. apply NoDup_app. split_and!; [done| |].
  - intros x Hx ->%list_elem_of_singleton. done.
  - apply NoDup_singleton.
Qed.

Lemma fromkeys_sublist l : DataGroupItems.fromkeys l `sublist_of` l.
Proof.
  induction l as [|y l IH] using rev_ind; [done|].
  rewrite fromkeys_snoc. destruct (contains _ y) eqn:Hy.
  - by apply sublist_inserts_r.
  - by apply sublist_app.
Qed.

Lemma fromkeys_id l : NoDup l → DataGroupItems.fromkeys l = l.
Proof.
  induction l as [|y l IH] using rev_ind; [done|].
  intros [Hl [Hy _]]%NoDup_app. rewrite fromkeys_snoc, IH by done.
  rewrite (proj2 (contains_false l y)); [done|].
  intros Hin. apply (Hy y); [done|]. by apply list_elem_of_singleton.
Qed.

End fromkeys_facts.

Section validate_facts.
Context {Uuid : Type} `{EqDecision Uuid}.

(** X10. [__validate_display_item_references] removes the repeats of a
    list of references and nothing else: the result has no repeats, the
    same members in the order of the given list, and validating it
    again changes nothing. *)
Theorem validate_references_drops_repeats (references : list Uuid) :
  let validated :=
    DataGroupItems.__validate_display_item_references references in
  NoDup validated ∧
  (∀ u, u ∈ validated ↔ u ∈ references) ∧
  validated `sublist_of` references ∧
  DataGroupItems.__validate_display_item_references validated = validated.
Proof.
  unfold DataGroupItems.__validate_display_item_references. simpl.
  split_and!.
  - apply fromkeys_NoDup.
  - intros u. apply elem_of_fromkeys.
  - apply fromkeys_sublist.
  - apply fromkeys_id, fromkeys_NoDup.
Qed.

End validate_facts.

Section display_item_facts.
Context `{Countable item} {Uuid : Type} `{EqDecision Uuid}.
Variable uuid : item → Uuid.
Implicit Types g : DataGroupItems.Group (item := item) (Uuid := Uuid).

Local Abbreviation display_items_of g :=
  (DataGroup.__display_items (DataGroupItems.items g)).
Local Abbreviation counted_of g :=
  (DataGroup.__counted_display_items (DataGroupItems.items g)).

Lemma list_index_insert_at {B} `{EqDecision B} (l : list B) i x :
  x ∉ l → list_index x (list_insert_at i x l) = Some (i `min` length l)%nat.
Proof.
  intros Hx. unfold list_insert_at. apply list_index_Some. split.
  - rewrite <-(length_take l i). apply list_lookup_middle. done.
  - intros j Hj Hl. rewrite lookup_app_l in Hl by (by rewrite length_take).
    apply Hx. eapply list_elem_of_lookup_2. eapply lookup_take_Some. done.
Qed.

Lemma delete_insert_at {B} `{EqDecision B} (l : list B) i x :
  delete (i `min` length l)%nat (list_insert_at i x l) = l.
Proof.
  unfold list_insert_at. rewrite <-(length_take l i).
  rewrite delete_middle. apply take_drop.
Qed.

Lemma list_insert_at_Permutation {B} `{EqDecision B} (l : list B) i x :
  list_insert_at i x l ≡ₚ x :: l.
Proof.
  unfold list_insert_at. rewrite <-Permutation_middle.
  by rewrite take_drop.
Qed.

Lemma list_insert_at_fmap (l : list item) i x :
  uuid <$> list_insert_at i x l = list_insert_at i (uuid x) (uuid <$> l).
Proof.
  unfold list_insert_at. by rewrite fmap_app, fmap_cons, fmap_take, fmap_drop.
Qed.

Lemma mirror_snoc es (e : event (item := item)) :
  DataGroupItems.mirror (es ++ [e]) =
    match ev_op e with
    | op_insert =>
      list_insert_at (ev_index e) (ev_item e) (DataGroupItems.mirror es)
    | op_remove => delete (ev_index e) (DataGroupItems.mirror es)
    end.
Proof. unfold DataGroupItems.mirror. by rewrite foldl_app. Qed.

Local Abbreviation coherent := (DataGroupItems.coherent uuid).

Lemma insert_display_item_coherent i x g :
  coherent g →
  coherent (state_of (DataGroupItems.insert_display_item uuid i x g)).
Proof.
  intros Hg. unfold DataGroupItems.insert_display_item, assert.
  destruct (contains (display_items_of g) x) eqn:Hx; [done|].
  simpl. destruct (contains (DataGroupItems.display_item_references g) _)
    eqn:Hu; [done|].
  simpl. apply contains_false in Hx, Hu.
  destruct Hg as (Hnd & Hndr & Href & Hcount & Hmirror).
  assert (NoDup (list_insert_at i (uuid x)
            (DataGroupItems.display_item_references g))) as Hndr'.
  { rewrite list_insert_at_Permutation. by constructor. }
  unfold DataGroupItems.coherent, DataGroupItems.set_display_item_references,
    DataGroupItems.__validate_display_item_references. simpl.
  rewrite fromkeys_id by done. split_and!.
  - rewrite list_insert_at_Permutation. by constructor.
  - done.
  - by rewrite list_insert_at_fmap, Href.
  - intros y. rewrite lookup_update, Hcount.
    destruct (decide (y = x)) as [->|Hy].
    + rewrite lookup_singleton_eq.
      rewrite decide_False by done. simpl.
      rewrite decide_True; [done|].
      rewrite list_insert_at_Permutation. by left.
    + rewrite lookup_singleton_ne by done.
      destruct (decide (y ∈ display_items_of g)) as [Hin|Hin].
      * rewrite decide_True; [done|].
        rewrite list_insert_at_Permutation. by right.
      * rewrite decide_False; [done|].
        rewrite list_insert_at_Permutation.
        intros [->|?]%elem_of_cons; done.
  - by rewrite mirror_snoc, Hmirror.
Qed.

Lemma remove_display_item_coherent x g :
  coherent g →
  coherent (state_of (DataGroupItems.remove_display_item uuid x g)).
Proof.
  intros Hg. unfold DataGroupItems.remove_display_item.
  destruct (list_index x (display_items_of g)) as [i|] eqn:Hi; [|done].
  destruct Hg as (Hnd & Hndr & Href & Hcount & Hmirror).
  apply list_index_Some in Hi as [Hi _].
  assert (list_index (uuid x) (DataGroupItems.display_item_references g)
          = Some i) as Hiu.
  { apply list_index_Some. rewrite Href. split.
    - by rewrite list_lookup_fmap, Hi.
    - intros j Hj Hl. rewrite <-Href in Hl.
      assert (DataGroupItems.display_item_references g !! i
              = Some (uuid x)) as Hl'
        by (by rewrite Href, list_lookup_fmap, Hi).
      pose proof (NoDup_lookup _ _ _ _ Hndr Hl Hl'). lia. }
  unfold list_remove. simpl. rewrite Hiu. simpl.
  unfold DataGroupItems.coherent, DataGroupItems.set_display_item_references,
    DataGroupItems.__validate_display_item_references. simpl.
  assert (NoDup (delete i (DataGroupItems.display_item_references g)))
    as Hndr'.
  { eapply sublist_NoDup; [done|]. apply sublist_delete. }
  assert (NoDup (delete i (display_items_of g))) as Hnd'.
  { eapply sublist_NoDup; [done|]. apply sublist_delete. }
  assert (x ∉ delete i (display_items_of g)) as Hx.
  { apply list_elem_of_split_length in Hi as (pre & post & Hl & ->).
    rewrite Hl in Hnd |- *. rewrite delete_middle.
    apply NoDup_app in Hnd as (_ & Hpre & [Hpost _]%NoDup_cons).
    intros [Hin|Hin]%elem_of_app; [|done].
    apply (Hpre x Hin). by left. }
  rewrite fromkeys_id by done. split_and!.
  - done.
  - done.
  - rewrite Href. by rewrite list_fmap_delete.
  - intros y. rewrite lookup_subtract_strip, Hcount.
    destruct (decide (y = x)) as [->|Hy].
    + rewrite lookup_singleton_eq.
      rewrite decide_True by (by eapply list_elem_of_lookup_2).
      simpl. rewrite decide_False by done. done.
    + rewrite lookup_singleton_ne by done.
      destruct (decide (y ∈ display_items_of g)) as [Hin|Hin].
      * simpl. rewrite decide_True; [done|].
        apply list_elem_of_split_length in Hi as (pre & post & Hl & ->).
        rewrite Hl in Hin |- *. rewrite delete_middle.
        apply elem_of_app in Hin as [Hin|[->|Hin]%elem_of_cons];
          [apply elem_of_app; by left|done|apply elem_of_app; by right].
      * rewrite decide_False; [done|].
        intros Hin'. apply Hin.
        by eapply list_elem_of_delete_inv.
  - by rewrite mirror_snoc, Hmirror.
Qed.

(** X11. Whatever is asked of a data group, and whichever of the
    requests raise, its display items stay without repeats, its
    references are the uuids of its display items in the same order, its
    counter holds each display item once, and a listener that follows
    the two events holds the same list. *)
Theorem display_items_stay_coherent
  (history : list (DataGroupItems.request (item := item))) :
  DataGroupItems.coherent uuid (DataGroupItems.after uuid history).
Proof.
  induction history as [|r history IH] using rev_ind.
  - unfold DataGroupItems.coherent. simpl. split_and!; try done; try constructor.
  - unfold DataGroupItems.after in *. rewrite foldl_app. simpl.
    destruct r as [i x|x|x]; simpl.
    + by apply insert_display_item_coherent.
    + by apply insert_display_item_coherent.
    + by apply remove_display_item_coherent.
Qed.

(** X12. Inserting a display item that the group and its references do
    not have and removing it again gives the group back: display items,
    counter and references are as before, and the two events carry the
    index that was asked for and the index the item was given. *)
Theorem insert_then_remove_display_item i x g :
  x ∉ display_items_of g →
  uuid x ∉ DataGroupItems.display_item_references g →
  NoDup (DataGroupItems.display_item_references g) →
  map_Forall (λ _ count, 0 < count) (counted_of g) →
  DataGroupItems.insert_display_item uuid i x g >>>
    DataGroupItems.remove_display_item uuid x =
  Returned
    {| DataGroupItems.items := DataGroupItems.items g;
       DataGroupItems.display_item_references :=
         DataGroupItems.display_item_references g;
       DataGroupItems.fired :=
         DataGroupItems.fired g ++
         [Event op_insert x i;
          Event op_remove x (i `min` length (display_items_of g))%nat] |}.
Proof.
  intros Hx Hu Hnd Hpos.
  unfold DataGroupItems.insert_display_item, assert.
  rewrite (proj2 (contains_false _ _) Hx). simpl.
  rewrite (proj2 (contains_false _ _) Hu). simpl.
  unfold DataGroupItems.remove_display_item,
    DataGroupItems.set_display_item_references,
    DataGroupItems.__validate_display_item_references. simpl.
  rewrite list_index_insert_at by done.
  assert (NoDup (list_insert_at i (uuid x)
            (DataGroupItems.display_item_references g))) as Hnd'.
  { rewrite list_insert_at_Permutation. by constructor. }
  rewrite (fromkeys_id (list_insert_at _ _ _)) by done.
  unfold list_remove.
  rewrite list_index_insert_at by done.
  rewrite !delete_insert_at, fromkeys_id by done.
  rewrite <-app_assoc. simpl.
  destruct g as [[l counted] refs fired]. simpl in *. do 2 f_equal.
  unfold DataGroup.subtract_counted_display_items,
    DataGroup.update_counted_display_items. simpl. f_equal.
  apply map_eq. intros y.
  rewrite lookup_subtract_strip, lookup_update.
  destruct (decide (y = x)) as [->|Hy].
  - rewrite !lookup_singleton_eq. simpl.
    destruct (counted !! x) as [c|] eqn:Hc; simpl.
    + apply Hpos in Hc. simpl in Hc.
      case_bool_decide; [f_equal; lia|lia].
    + done.
  - rewrite !lookup_singleton_ne by done.
    destruct (counted !! y) as [c|] eqn:Hc; [|done].
    apply Hpos in Hc. simpl in Hc. case_bool_decide; [done|lia].
Qed.

End display_item_facts.

Lemma insert_then_remove_display_item_witness :
  let uuid := λ x : nat, x in
  let g := DataGroupItems.after uuid
             [DataGroupItems.do_append_display_item 1%nat;
              DataGroupItems.do_append_display_item 2%nat] in
  DataGroupItems.insert_display_item uuid 5 7%nat g >>>
    DataGroupItems.remove_display_item uuid 7%nat =
  Returned
    {| DataGroupItems.items := DataGroupItems.items g;
       DataGroupItems.display_item_references :=
         DataGroupItems.display_item_references g;
       DataGroupItems.fired :=
         DataGroupItems.fired g ++
         [Event op_insert 7%nat 5; Event op_remove 7%nat 2] |}.
Proof.
  intros uuid g.
  apply (insert_then_remove_display_item uuid 5 7%nat g).
  - compute_done.
  - compute_done.
  - compute_done.
  - compute_done.
Defined.

(** * The flat generators of DataGroup.py *)

Section container_facts.
Context {item : Type}.
Import DataGroupItems.

Lemma Container_rose_ind (P : Container item → Prop) :
  (∀ items groups,
     (∀ gs, groups = Some gs → Forall P gs) →
     P (MkContainer items groups)) →
  ∀ c, P c.
Proof.
  intros Hstep. fix IH 1. intros [items [gs|]].
  - assert (Forall P gs) as Hgs.
    { induction gs as [|g gs IHgs]; constructor; [apply IH|apply IHgs]. }
    apply Hstep. intros gs' [= <-]. exact Hgs.
  - apply Hstep. intros gs' [=].
Qed.

(** X13. When the generator of the data groups of a container returns,
    the flat display items of the container are its own display items
    followed by the own display items of each of those data groups, in
    the order the data groups are generated. *)
Theorem flat_display_items_follow_flat_data_groups (c : Container item)
  groups :
  get_flat_data_group_generator_in_container c = Some groups →
  get_flat_display_item_generator_in_container c =
    default [] (display_items c) ++
    flat_map (λ g, default [] (display_items g)) groups.
Proof.
  revert groups. induction c as [items gs0 IH] using Container_rose_ind.
  intros groups. destruct gs0 as [gs0|]; [|done].
  specialize (IH gs0 eq_refl). simpl. intros Hgroups. f_equal.
  revert groups Hgroups.
  induction IH as [|g gs0 Hg _ IHgs]; intros groups Hgroups.
  - by injection Hgroups as <-.
  - destruct (get_flat_data_group_generator_in_container g)
      as [below|] eqn:Hbelow; [|done].
    match type of Hgroups with
    | match ?e with _ => _ end = _ => destruct e as [rest|] eqn:Hrest
    end; [|done].
    injection Hgroups as <-.
    simpl. rewrite (Hg below eq_refl), (IHgs rest eq_refl).
    rewrite flat_map_app. destruct g as [items' gs']. simpl.
    by rewrite app_assoc.
Qed.

End container_facts.

Lemma flat_display_items_follow_flat_data_groups_witness :
  let leaf := λ l : list nat, DataGroupItems.MkContainer (Some l) (Some []) in
  let c := DataGroupItems.MkContainer (Some [1%nat])
             (Some [leaf [2; 3]%nat;
                    DataGroupItems.MkContainer None (Some [leaf [4%nat]])]) in
  DataGroupItems.get_flat_display_item_generator_in_container c =
  [1; 2; 3; 4]%nat.
Proof.
  intros leaf c.
  rewrite (flat_display_items_follow_flat_data_groups c
    [leaf [2; 3]%nat;
     DataGroupItems.MkContainer None (Some [leaf [4%nat]]);
     leaf [4%nat]]).
  - reflexivity.
  - reflexivity.
Defined.

(** * Batched change notification *)

Section source_changes.
Context {Thread : Type} `{EqDecision Thread}.
Import BufferedDataSourceChanges.
Implicit Types s : state (Thread := Thread).
Implicit Types a : action.
Implicit Types body : list action.

Lemma source_action_rose_ind (P : action → Prop) :
  P do_r_value_changed → P do_metadata_changed → P do_raise →
  (∀ body, Forall P body → P (do_changes body)) →
  ∀ a, P a.
Proof.
  intros Hr Hm Hx Hc. fix IH 1. intros [| | |body]; [done..|].
  apply Hc. induction body as [|a body IHbody]; constructor;
    [apply IH|apply IHbody].
Qed.

Lemma run_do_changes t body s :
  run t (do_changes body) s = _changes t (run_each t body) s.
Proof.
  simpl. unfold _changes.
  assert (∀ s',
    (fix each (body : list action) (s : state) : outcome state :=
       match body with
       | [] => Returned s
       | a :: body' => run t a s >>> each body'
       end) body s' = run_each t body s') as ->; [|done].
  induction body as [|a body IH]; intros s'; simpl; [done|].
  destruct (run t a s'); simpl; [apply IH|done].
Qed.

Lemma reach_do_changes body : reach (do_changes body) = reach_each body.
Proof.
  simpl. induction body as [|a body IH]; simpl; [done|]. by rewrite IH.
Qed.

Lemma mark_inside t s :
  1 ≤ __change_count s → __change_thread s = Some t →
  inside t (true, false) s
    (_changes t (λ s, Returned (set_change_changed true s)) s).
Proof.
  destruct s as [th c f n m w]. simpl. intros Hc ->.
  unfold inside, _changes, _begin_changes, _end_changes. simpl.
  rewrite (bool_decide_eq_false_2 (c = 0)) by lia.
  rewrite (bool_decide_eq_false_2 (Some t ≠ Some t)) by (by intros []).
  simpl.
  rewrite (bool_decide_eq_false_2 (c + 1 = 1)) by lia.
  rewrite (bool_decide_eq_false_2 (Some t ≠ Some t)) by (by intros []).
  simpl.
  rewrite (bool_decide_eq_false_2 (c + 1 - 1 = 0)) by lia.
  simpl. split_and!; try done; [lia|by rewrite orb_true_r].
Qed.

Lemma run_each_inside t body s :
  Forall (λ a, ∀ s, 1 ≤ __change_count s → __change_thread s = Some t →
                    inside t (reach a) s (run t a s)) body →
  1 ≤ __change_count s → __change_thread s = Some t →
  inside t (reach_each body) s (run_each t body s).
Proof.
  intros Hbody. revert s.
  induction Hbody as [|a body Ha _ IH]; intros s Hc Ht.
  - unfold inside. simpl. by rewrite orb_false_r.
  - simpl. destruct (Ha s Hc Ht) as (Hret & Hc1 & Ht1 & Hf1 & Hw1 & He1).
    destruct (reach a) as [reached raised]. simpl in *.
    destruct (run t a s) as [s1|s1]; simpl in *.
    + destruct raised; [done|]. simpl.
      destruct (IH s1) as (Hret2 & Hc2 & Ht2 & Hf2 & Hw2 & He2);
        [lia|congruence|].
      unfold inside. simpl. split_and!; try congruence.
      rewrite Hf2, Hf1. by rewrite orb_assoc.
    + destruct raised; [|done]. unfold inside. simpl. by split_and!.
Qed.

Lemma changes_inside t (run_body : state → outcome state) reached s :
  (∀ s, 1 ≤ __change_count s → __change_thread s = Some t →
        inside t reached s (run_body s)) →
  1 ≤ __change_count s → __change_thread s = Some t →
  inside t reached s (_changes t run_body s).
Proof.
  intros Hbody Hc Ht. unfold _changes.
  assert (_begin_changes t s = set_change_count (__change_count s + 1) s)
    as ->.
  { unfold _begin_changes.
    rewrite (bool_decide_eq_false_2 (__change_count s = 0)) by lia.
    rewrite Ht.
    by rewrite (bool_decide_eq_false_2 (Some t ≠ Some t))
      by (by intros []). }
  destruct (Hbody (set_change_count (__change_count s + 1) s))
    as (Hret & Hc1 & Ht1 & Hf1 & Hw1 & He1); [simpl; lia|done|].
  simpl in *.
  assert (∀ s1, __change_count s1 = __change_count s + 1 →
                __change_thread s1 = __change_thread s →
                _end_changes t s1 = set_change_count (__change_count s) s1)
    as Hend.
  { intros s1 Hc' Ht'. unfold _end_changes.
    rewrite (bool_decide_eq_false_2 (__change_count s1 = 1)) by lia.
    rewrite Ht', Ht.
    rewrite (bool_decide_eq_false_2 (Some t ≠ Some t)) by (by intros []).
    simpl. rewrite Hc'.
    rewrite (bool_decide_eq_false_2 (__change_count s + 1 - 1 = 0)) by lia.
    simpl. f_equal. lia. }
  destruct (run_body _) as [s1|s1]; simpl in *;
    rewrite (Hend s1 Hc1 Ht1); unfold inside; simpl; by split_and!.
Qed.

Lemma run_inside t a :
  ∀ s, 1 ≤ __change_count s → __change_thread s = Some t →
       inside t (reach a) s (run t a s).
Proof.
  induction a as [| | |body IH] using source_action_rose_ind; intros s Hc Ht.
  - by apply mark_inside.
  - simpl. unfold __metadata_changed.
    destruct (mark_inside t s Hc Ht) as (Hret & Hc1 & Ht1 & Hf1 & Hw1 & He1).
    destruct (_changes t _ s) as [s1|s1]; simpl in *; [|done].
    unfold inside. simpl. by split_and!.
  - unfold inside. simpl. split_and!; try done. by rewrite orb_false_r.
  - rewrite run_do_changes, reach_do_changes.
    apply changes_inside; [|done..].
    intros s' Hc' Ht'. by apply run_each_inside.
Qed.

(** An outermost block, from its beginning to its end. *)
Lemma changes_from_idle (t : Thread) body s :
  __change_count s = 0 → __change_changed s = false →
  let o := run t (do_changes body) s in
  returns o = negb (reach_each body).2 ∧
  __change_count (state_of o) = 0 ∧
  __change_thread (state_of o) = None ∧
  __change_changed (state_of o) = false ∧
  warned (state_of o) = warned s ∧
  data_item_changed_events (state_of o) =
    (data_item_changed_events s + if (reach_each body).1 then 1 else 0)%nat.
Proof.
  intros Hc Hf. rewrite run_do_changes. unfold _changes.
  assert (_begin_changes t s =
          set_change_count 1 (set_change_thread (Some t) s)) as ->.
  { unfold _begin_changes.
    rewrite (bool_decide_eq_true_2 (__change_count s = 0)) by done.
    simpl. rewrite Hc. done. }
  destruct (run_each_inside t body
              (set_change_count 1 (set_change_thread (Some t) s)))
    as (Hret & Hc1 & Ht1 & Hf1 & Hw1 & He1); [|simpl; lia|done|].
  { apply Forall_forall. intros a _. apply run_inside. }
  simpl in *. rewrite Hf in Hf1. simpl in Hf1.
  assert (∀ s1, __change_count s1 = 1 →
            _end_changes t s1 =
            (if __change_changed s1 then fire_data_item_changed_event
             else λ s, s)
              (set_change_changed false
                 (set_change_count 0 (set_change_thread None s1))))
    as Hend.
  { intros s1 Hc'. unfold _end_changes.
    rewrite (bool_decide_eq_true_2 (__change_count s1 = 1)) by done.
    simpl. rewrite Hc'. simpl.
    by destruct (__change_changed s1). }
  destruct (run_each t body _) as [s1|s1]; simpl in *;
    rewrite (Hend s1 Hc1), Hf1;
    destruct (reach_each body).1; simpl; split_and!; try done; lia.
Qed.

(** X14. A [with self._changes():] block that is opened while no block
    is open and no change is pending ends with no block open and no
    change pending, whether its body raises or not; it fires
    [data_item_changed_event] once, at its end, when the body has
    reached a change at any depth of nested blocks, and not at all
    otherwise; and nothing is warned about. *)
Theorem changes_block_fires_once_at_its_end (t : Thread) body s :
  __change_count s = 0 → __change_changed s = false →
  let o := run t (do_changes body) s in
  returns o = negb (reach_each body).2 ∧
  __change_count (state_of o) = 0 ∧
  __change_thread (state_of o) = None ∧
  __change_changed (state_of o) = false ∧
  warned (state_of o) = warned s ∧
  data_item_changed_events (state_of o) =
    (data_item_changed_events s + if (reach_each body).1 then 1 else 0)%nat.
Proof. by apply changes_from_idle. Qed.

End source_changes.

Lemma changes_block_fires_once_at_its_end_witness :
  let body :=
    [BufferedDataSourceChanges.do_changes
       [BufferedDataSourceChanges.do_r_value_changed;
        BufferedDataSourceChanges.do_changes
          [BufferedDataSourceChanges.do_metadata_changed]];
     BufferedDataSourceChanges.do_r_value_changed;
     BufferedDataSourceChanges.do_raise;
     BufferedDataSourceChanges.do_r_value_changed] in
  let o := BufferedDataSourceChanges.run 0%nat
             (BufferedDataSourceChanges.do_changes body)
             BufferedDataSourceChanges.__init__ in
  returns o = false ∧
  BufferedDataSourceChanges.__change_count (state_of o) = 0 ∧
  BufferedDataSourceChanges.__change_thread (state_of o) = None ∧
  BufferedDataSourceChanges.__change_changed (state_of o) = false ∧
  BufferedDataSourceChanges.warned (state_of o) = 0%nat ∧
  BufferedDataSourceChanges.data_item_changed_events (state_of o) = 1%nat.
Proof.
  intros body o.
  apply (changes_block_fires_once_at_its_end 0%nat body
           BufferedDataSourceChanges.__init__); reflexivity.
Defined.

Section item_changes.
Import DataItemChanges.
Implicit Types s : state.
Implicit Types a : action.
Implicit Types body : list action.

Lemma item_action_rose_ind (P : action → Prop) :
  P do_notify_data_item_content_changed → P do_raise →
  (∀ body, Forall P body → P (do_data_item_changes body)) →
  ∀ a, P a.
Proof.
  intros Hn Hx Hc. fix IH 1. intros [| |body]; [done..|].
  apply Hc. induction body as [|a body IHbody]; constructor;
    [apply IH|apply IHbody].
Qed.

Lemma run_do_data_item_changes body s :
  run (do_data_item_changes body) s = data_item_changes (run_each body) s.
Proof.
  simpl. unfold data_item_changes.
  assert (∀ s',
    (fix each (body : list action) (s : state) : outcome state :=
       match body with
       | [] => Returned s
       | a :: body' => run a s >>> each body'
       end) body s' = run_each body s') as ->; [|done].
  induction body as [|a body IH]; intros s'; simpl; [done|].
  destruct (run a s'); simpl; [apply IH|done].
Qed.

Lemma reach_do_data_item_changes body :
  reach (do_data_item_changes body) = reach_each body.
Proof.
  simpl. induction body as [|a body IH]; simpl; [done|]. by rewrite IH.
Qed.

Lemma run_each_inside_item body s :
  Forall (λ a, ∀ s, 1 ≤ __data_item_change_count s →
                    inside_item (reach a) s (run a s)) body →
  1 ≤ __data_item_change_count s →
  inside_item (reach_each body) s (run_each body s).
Proof.
  intros Hbody. revert s.
  induction Hbody as [|a body Ha _ IH]; intros s Hc.
  - unfold inside_item. simpl. by rewrite orb_false_r.
  - simpl. destruct (Ha s Hc) as (Hret & Hc1 & Hf1 & He1).
    destruct (reach a) as [reached raised]. simpl in *.
    destruct (run a s) as [s1|s1]; simpl in *.
    + destruct raised; [done|]. simpl.
      destruct (IH s1) as (Hret2 & Hc2 & Hf2 & He2); [lia|].
      unfold inside_item. simpl. split_and!; try congruence.
      rewrite Hf2, Hf1. by rewrite orb_assoc.
    + destruct raised; [|done]. unfold inside_item. simpl. by split_and!.
Qed.

Lemma data_item_changes_inside (run_body : state → outcome state) reached s :
  (∀ s, 1 ≤ __data_item_change_count s →
        inside_item reached s (run_body s)) →
  1 ≤ __data_item_change_count s →
  inside_item reached s (data_item_changes run_body s).
Proof.
  intros Hbody Hc. unfold data_item_changes.
  destruct (Hbody (begin_data_item_changes s)) as (Hret & Hc1 & Hf1 & He1);
    [simpl; lia|].
  simpl in *.
  destruct (run_body _) as [s1|s1]; simpl in *;
    unfold inside_item; simpl; rewrite Hc1;
    rewrite (bool_decide_eq_false_2
               (__data_item_change_count s + 1 - 1 = 0)) by lia;
    simpl; split_and!; try done; lia.
Qed.

Lemma run_inside_item a :
  ∀ s, 1 ≤ __data_item_change_count s → inside_item (reach a) s (run a s).
Proof.
  induction a as [| |body IH] using item_action_rose_ind; intros s Hc.
  - simpl. unfold notify_data_item_content_changed.
    apply data_item_changes_inside; [|done].
    intros s' _. unfold inside_item. simpl. split_and!; try done.
    by rewrite orb_true_r.
  - unfold inside_item. simpl. split_and!; try done. by rewrite orb_false_r.
  - rewrite run_do_data_item_changes, reach_do_data_item_changes.
    apply data_item_changes_inside; [|done].
    intros s' Hc'. by apply run_each_inside_item.
Qed.

(** X15. A [with self.data_item_changes():] block that is opened while
    no block is open ends with no block open, whether its body raises
    or not; it fires [data_item_content_changed_event] once, at its
    end, when the body has reached a notification at any depth of
    nested blocks or the flag was up already, and not at all otherwise.
    The flag is never lowered: once a notification was made, every
    later outermost block fires at its end. *)
Theorem data_item_changes_block_fires_at_its_end body s :
  __data_item_change_count s = 0 →
  let o := run (do_data_item_changes body) s in
  let changed := __data_item_content_changed s || (reach_each body).1 in
  returns o = negb (reach_each body).2 ∧
  __data_item_change_count (state_of o) = 0 ∧
  __data_item_content_changed (state_of o) = changed ∧
  data_item_content_changed_events (state_of o) =
    (data_item_content_changed_events s + if changed then 1 else 0)%nat.
Proof.
  intros Hc. rewrite run_do_data_item_changes. unfold data_item_changes.
  destruct (run_each_inside_item body (begin_data_item_changes s))
    as (Hret & Hc1 & Hf1 & He1); [|simpl; lia|].
  { apply Forall_forall. intros a _. apply run_inside_item. }
  simpl in *. rewrite Hc in Hc1. simpl in Hc1.
  destruct (run_each body _) as [s1|s1]; simpl in *;
    rewrite Hc1, Hf1, He1; simpl;
    destruct (_ || _); simpl; split_and!; try done; lia.
Qed.

End item_changes.

Lemma data_item_changes_block_fires_at_its_end_witness :
  let s := DataItemChanges.MkState 0 true 1 in
  let o := DataItemChanges.run (DataItemChanges.do_data_item_changes []) s in
  returns o = true ∧
  DataItemChanges.__data_item_change_count (state_of o) = 0 ∧
  DataItemChanges.__data_item_content_changed (state_of o) = true ∧
  DataItemChanges.data_item_content_changed_events (state_of o) = 2%nat.
Proof.
  intros s o.
  apply (data_item_changes_block_fires_at_its_end [] s). reflexivity.
Defined.

(** * The data reference counts of a data item *)

Section ref_count_facts.
Import BufferedDataSource DataItem.
Implicit Types s : BufferedDataSource.
Implicit Types d : DataItem.

Lemma state_of_and_then {S} (P : S → Prop) (o : outcome S) k :
  P (state_of o) → (∀ x, P x → P (state_of (k x))) → P (state_of (o >>> k)).
Proof. destruct o as [x|x]; simpl; [|done]. intros Hx Hk. by apply Hk. Qed.

Lemma foldl_and_then_state_of {S A} (P : S → Prop) (Q : A → Prop)
  (f : A → S → outcome S) l o :
  (∀ x y, Q x → P y → P (state_of (f x y))) →
  Forall Q l → P (state_of o) →
  P (state_of (foldl (λ o x, o >>> f x) o l)).
Proof.
  intros Hf Hl. revert o. induction Hl as [|x l Hx _ IH]; intros o Ho.
  - done.
  - simpl. apply IH. apply state_of_and_then; [done|]. intros y. by apply Hf.
Qed.

Lemma for_each_data_source_Forall (P : BufferedDataSource → Prop) method l :
  (∀ s, P s → P (state_of (method s))) →
  Forall P l → Forall P (state_of (for_each_data_source method l)).
Proof.
  intros Hm. induction 1 as [|s l Hs Hl IH]; simpl; [done|].
  specialize (Hm s Hs). destruct (method s) as [s'|s']; simpl in *.
  - destruct (for_each_data_source method l); simpl in *; by constructor.
  - by constructor.
Qed.

Lemma increment_nonneg s :
  0 ≤ __data_ref_count s →
  0 ≤ __data_ref_count (state_of (increment_data_ref_count s)).
Proof.
  intros Hs. destruct (increment_data_ref_count_spec s) as (s' & -> & Hs' & _).
  simpl. lia.
Qed.

Lemma decrement_nonneg s :
  0 ≤ __data_ref_count s →
  0 ≤ __data_ref_count (state_of (decrement_data_ref_count s)).
Proof.
  intros Hs. unfold decrement_data_ref_count, assert.
  case_bool_decide; simpl; [|done].
  destruct (__data_and_metadata s) as [d|]; [|simpl; lia].
  case_bool_decide; [|simpl; lia].
  unfold on_data_and_metadata.
  destruct (DataAndMetadata.decrement_data_ref_count d); simpl; lia.
Qed.

Local Abbreviation nonneg :=
  (λ d, Forall (λ s, 0 ≤ __data_ref_count s) (data_sources d)).

Lemma append_data_source_nonneg s d :
  0 ≤ __data_ref_count s → nonneg d →
  nonneg (state_of (append_data_source s d)).
Proof.
  intros Hs Hd. unfold append_data_source.
  destruct (__in_transaction_state d).
  - pose proof (increment_nonneg s Hs).
    destruct (increment_data_ref_count s); simpl in *;
      apply Forall_app; split; try done; by constructor.
  - simpl. apply Forall_app. split; [done|]. by constructor.
Qed.

Lemma remove_data_source_nonneg i d :
  nonneg d → nonneg (state_of (remove_data_source i d)).
Proof.
  intros Hd. unfold remove_data_source.
  destruct (data_sources d !! i) as [s|]; [|done].
  assert (Forall (λ s, 0 ≤ __data_ref_count s) (delete i (data_sources d))).
  { by apply Forall_delete. }
  destruct (__in_transaction_state d); [|done].
  by destruct (decrement_data_ref_count s).
Qed.

Lemma serve_nonneg r d :
  match r with
  | do_append_data_source s => 0 ≤ __data_ref_count s
  | do_read_from_dict described =>
    Forall (λ s, 0 ≤ __data_ref_count s) described
  | _ => True
  end →
  nonneg d → nonneg (state_of (serve r d)).
Proof.
  intros Hr Hd.
  destruct r as [| |c| | |_is_reading|s|i|described|i|i]; simpl.
  - destruct (_enter_transaction_state_spec d) as (-> & _).
    apply for_each_data_source_Forall; [apply increment_nonneg|done].
  - destruct (_exit_transaction_state_spec d) as (-> & _).
    apply for_each_data_source_Forall; [apply decrement_nonneg|done].
  - unfold set_context, persistent_object_context_changed,
      __enter_write_delay_state.
    by destruct d as [[|] ? ? ? ? ? ? ? ? ?], c as [[[?|]]|].
  - done.
  - done.
  - unfold data_item_changed. by destruct _is_reading.
  - by apply append_data_source_nonneg.
  - by apply remove_data_source_nonneg.
  - unfold read_from_dict.
    apply (state_of_and_then nonneg); [|done].
    apply (state_of_and_then nonneg).
    + apply (foldl_and_then_state_of nonneg (λ _, True)); [| |done].
      * intros _ d' _. apply remove_data_source_nonneg.
      * by apply Forall_true.
    + intros d' Hd'.
      apply (foldl_and_then_state_of nonneg
               (λ s, 0 ≤ __data_ref_count s)); [|done..].
      intros s d''. apply append_data_source_nonneg.
  - rewrite on_data_source_data_sources.
    destruct (data_sources d !! i) as [s|] eqn:Hi; [|done].
    apply Forall_insert; [exact Hd|]. apply increment_nonneg.
    exact (proj1 (Forall_lookup _ _) Hd i s Hi).
  - rewrite on_data_source_data_sources.
    destruct (data_sources d !! i) as [s|] eqn:Hi; [|done].
    apply Forall_insert; [exact Hd|]. apply decrement_nonneg.
    exact (proj1 (Forall_lookup _ _) Hd i s Hi).
Qed.

(** X16. No history of requests brings the data reference count of a
    data source of a data item below zero, given that the counts of its
    data sources, and of those appended or read in, are not negative to
    begin with.  This holds whichever requests raise, and whatever the
    payload holders do. *)
Theorem data_ref_counts_never_negative history d :
  Forall (λ s, 0 ≤ __data_ref_count s) (data_sources d) →
  Forall (λ r,
    match r with
    | do_append_data_source s => 0 ≤ __data_ref_count s
    | do_read_from_dict described =>
      Forall (λ s, 0 ≤ __data_ref_count s) described
    | _ => True
    end) history →
  Forall (λ s, 0 ≤ __data_ref_count s) (data_sources (run history d)).
Proof.
  intros Hd Hh. revert d Hd. unfold run.
  induction Hh as [|r history Hr _ IH]; intros d Hd; [done|].
  simpl. apply IH. by apply serve_nonneg.
Qed.

End ref_count_facts.

Lemma data_ref_counts_never_negative_witness :
  let s := BufferedDataSource.MkBufferedDataSource 0
             (Some (DataAndMetadata.MkDataAndMetadata 0 false 0)) in
  let history :=
    [DataItem.do_append_data_source s;
     DataItem.do_decrement_data_ref_count 0;
     DataItem.do_enter_transaction_state;
     DataItem.do_exit_transaction_state;
     DataItem.do_exit_transaction_state;
     DataItem.do_read_from_dict [s; s];
     DataItem.do_remove_data_source 1;
     DataItem.do_decrement_data_ref_count 0] in
  Forall (λ s, 0 ≤ BufferedDataSource.__data_ref_count s)
    (DataItem.data_sources (DataItem.run history DataItem.__init__)).
Proof.
  intros s history.
  apply (data_ref_counts_never_negative history DataItem.__init__).
  - constructor.
  - repeat first [apply Forall_nil_2 | apply Forall_cons_2];
      simpl; try exact I; lia.
Defined.

(** * A transaction and the data reference counts *)

Section transaction_facts.
Import BufferedDataSource DataItem.
Implicit Types s : BufferedDataSource.
Implicit Types d : DataItem.

Local Abbreviation ref_counts :=
  (λ s, (__data_ref_count s,
         DataAndMetadata.data_ref_count <$> __data_and_metadata s)).
Local Abbreviation sound :=
  (λ s, 0 ≤ __data_ref_count s ∧
        ∀ payload, __data_and_metadata s = Some payload →
                   0 ≤ DataAndMetadata.data_ref_count payload).
Local Abbreviation held :=
  (λ s' s, increment_data_ref_count s = Returned s').

Lemma increment_then_decrement s s' :
  sound s → held s' s →
  ∃ s'', decrement_data_ref_count s' = Returned s'' ∧
         ref_counts s'' = ref_counts s.
Proof.
  intros [Hs Hp] Hs'.
  destruct s as [count [[pcount valid loads]|]]; simpl in *.
  - specialize (Hp _ eq_refl). simpl in Hp.
    unfold increment_data_ref_count in Hs'. simpl in Hs'.
    unfold decrement_data_ref_count, assert.
    destruct (decide (count = 0)) as [->|Hcount].
    + simpl in Hs'. unfold on_data_and_metadata,
        DataAndMetadata.increment_data_ref_count in Hs'. simpl in Hs'.
      destruct (bool_decide (pcount = 0)); injection Hs' as <-; simpl;
        unfold on_data_and_metadata,
          DataAndMetadata.decrement_data_ref_count, assert; simpl;
        rewrite (bool_decide_eq_true_2 (pcount + 1 > 0)) by lia; simpl;
        destruct (bool_decide (pcount + 1 - 1 = 0)); simpl;
        eexists; (split; [reflexivity|]); simpl; do 2 f_equal; lia.
    + rewrite (bool_decide_eq_false_2 (count = 0)) in Hs' by done.
      injection Hs' as <-. simpl.
      rewrite (bool_decide_eq_true_2 (count + 1 > 0)) by lia. simpl.
      rewrite (bool_decide_eq_false_2 (count + 1 - 1 = 0)) by lia.
      eexists. split; [reflexivity|]. simpl. f_equal. lia.
  - unfold increment_data_ref_count in Hs'. simpl in Hs'.
    injection Hs' as <-. unfold decrement_data_ref_count, assert. simpl.
    rewrite (bool_decide_eq_true_2 (count + 1 > 0)) by lia. simpl.
    eexists. split; [reflexivity|]. simpl. f_equal. lia.
Qed.

Lemma for_each_increment l :
  ∃ l', for_each_data_source increment_data_ref_count l = Returned l' ∧
        Forall2 held l' l.
Proof.
  induction l as [|s l (l' & IH & Hl')]; simpl; [by eexists|].
  destruct (increment_data_ref_count_spec s) as (s' & Hs' & _).
  rewrite Hs', IH. eexists. split; [done|]. by constructor.
Qed.

Lemma for_each_decrement l' l :
  Forall2 held l' l → Forall sound l →
  ∃ l'', for_each_data_source decrement_data_ref_count l' = Returned l'' ∧
         ref_counts <$> l'' = ref_counts <$> l.
Proof.
  induction 1 as [|s' s l' l Hs' _ IH]; intros Hl; simpl; [by eexists|].
  apply Forall_cons in Hl as [Hs Hl].
  destruct (increment_then_decrement s s' Hs Hs') as (s'' & -> & Hs'').
  destruct (IH Hl) as (l'' & -> & Hl'').
  eexists. split; [done|]. rewrite !fmap_cons.
  f_equal; [exact Hs''|exact Hl''].
Qed.

Lemma _enter_transaction_state_holds d :
  ∃ d', _enter_transaction_state d = Returned d' ∧
        __in_transaction_state d' = true ∧
        Forall2 held (data_sources d') (data_sources d).
Proof.
  unfold _enter_transaction_state, __enter_write_delay_state.
  cbn [and_then]. unfold on_data_sources.
  destruct (for_each_increment (data_sources d)) as (l' & Hl' & Hheld).
  destruct d as [? ? ? ? [[[?|]]|] ? l [|] ? ?]; simpl in *;
    rewrite Hl'; by eexists.
Qed.

Lemma append_data_sources_hold appended : ∀ d l,
  __in_transaction_state d = true → Forall2 held (data_sources d) l →
  ∃ d', foldl (λ o s, o >>> append_data_source s) (Returned d) appended
        = Returned d' ∧
        __in_transaction_state d' = true ∧
        Forall2 held (data_sources d') (l ++ appended).
Proof.
  induction appended as [|s appended IH]; intros d l Ht Hl; simpl.
  - exists d. by rewrite app_nil_r.
  - unfold append_data_source at 2. rewrite Ht.
    destruct (increment_data_ref_count_spec s) as (s' & Hs' & _).
    rewrite Hs'.
    destruct (IH (set_data_sources (data_sources d ++ [s']) d) (l ++ [s]))
      as (d' & Hd' & Ht' & Hl').
    + by destruct d.
    + destruct d; simpl in *. apply Forall2_app; [done|]. by constructor.
    + exists d'. by rewrite <-app_assoc in Hl'.
Qed.

(** X17. A transaction gives back what it takes: when a data item
    enters the transaction state, has data sources appended, and
    leaves the transaction state, all three return, and every data
    source, the appended ones included, has the data reference count it
    came with, and so has its payload holder.  This is for data sources
    and payload holders whose counts are not negative; the payload
    holder is the model of DataAndMetadata. *)
Theorem transaction_gives_back_every_count d appended :
  Forall (λ s, 0 ≤ __data_ref_count s ∧
               ∀ payload, __data_and_metadata s = Some payload →
                          0 ≤ DataAndMetadata.data_ref_count payload)
    (data_sources d ++ appended) →
  ∃ d', _enter_transaction_state d >>>
          (λ d, foldl (λ o s, o >>> append_data_source s) (Returned d)
                  appended) >>>
          _exit_transaction_state = Returned d' ∧
        __in_transaction_state d' = false ∧
        (λ s, (__data_ref_count s,
               DataAndMetadata.data_ref_count <$> __data_and_metadata s))
          <$> data_sources d' =
        (λ s, (__data_ref_count s,
               DataAndMetadata.data_ref_count <$> __data_and_metadata s))
          <$> (data_sources d ++ appended).
Proof.
  intros Hsound.
  destruct (_enter_transaction_state_holds d) as (d1 & -> & Ht1 & Hl1).
  cbn [and_then].
  destruct (append_data_sources_hold appended d1 _ Ht1 Hl1)
    as (d2 & -> & Ht2 & Hl2).
  cbn [and_then]. unfold _exit_transaction_state. cbn [and_then].
  match goal with |- context [__exit_write_delay_state ?x] =>
    destruct (__exit_write_delay_state_spec x)
      as (d3 & -> & Hs3 & _ & _ & Ht3 & _) end.
  cbn [and_then]. unfold on_data_sources.
  assert (data_sources d3 = data_sources d2) as Hs3'.
  { rewrite Hs3. by destruct d2 as [? ? ? ? ? ? ? [|] ? ?]. }
  assert (__in_transaction_state d3 = false) as Ht3'.
  { rewrite Ht3. by destruct d2 as [? ? ? ? ? ? ? [|] ? ?]. }
  rewrite Hs3'.
  destruct (for_each_decrement _ _ Hl2 Hsound) as (l'' & -> & Hl'').
  eexists. split; [done|]. split; [by destruct d3|]. by destruct d3.
Qed.

End transaction_facts.

Lemma transaction_gives_back_every_count_witness :
  let s0 := BufferedDataSource.MkBufferedDataSource 0
              (Some (DataAndMetadata.MkDataAndMetadata 0 false 0)) in
  let s2 := BufferedDataSource.MkBufferedDataSource 2 None in
  let d := DataItem.set_data_sources [s0; s2] DataItem.__init__ in
  ∃ d', DataItem._enter_transaction_state d >>>
          (λ d, foldl (λ o s, o >>> DataItem.append_data_source s)
                  (Returned d) [s0]) >>>
          DataItem._exit_transaction_state = Returned d' ∧
        DataItem.__in_transaction_state d' = false ∧
        (λ s, (BufferedDataSource.__data_ref_count s,
               DataAndMetadata.data_ref_count <$>
                 BufferedDataSource.__data_and_metadata s))
          <$> DataItem.data_sources d' =
        [(0, Some 0); (2, None); (0, Some 0)].
Proof.
  intros s0 s2 d.
  apply (transaction_gives_back_every_count d [s0]).
  repeat first [apply Forall_nil_2 | apply Forall_cons_2]; simpl;
    (split; [lia|]); intros payload [= <-] || intros payload [=]; simpl; lia.
Defined.

(** * The data items of a data item *)

Section data_item_items_facts.
Context {item : Type} `{EqDecision item} {Uuid : Type} `{EqDecision Uuid}.
Variable uuid : item → Uuid.
Import DataItemItems.
Implicit Types s : state (item := item) (Uuid := Uuid).

Lemma list_index_fmap_inj (l : list item) x i :
  (∀ x y, uuid x = uuid y → x = y) →
  list_index x l = Some i → list_index (uuid x) (uuid <$> l) = Some i.
Proof.
  intros Hinj [Hl Hmin]%list_index_Some. apply list_index_Some. split.
  - by rewrite list_lookup_fmap, Hl.
  - intros j Hj. rewrite list_lookup_fmap.
    destruct (l !! j) as [y|] eqn:Hy; [|done]. simpl.
    intros [= Hu]. apply Hinj in Hu as ->. by apply (Hmin j).
Qed.

Lemma serve_data_item_uuids r s :
  (∀ x y, uuid x = uuid y → x = y) →
  data_item_uuids s = uuid <$> __data_items s ∧ NoDup (__data_items s) →
  let s' := state_of (serve uuid r s) in
  data_item_uuids s' = uuid <$> __data_items s' ∧ NoDup (__data_items s').
Proof.
  intros Hinj [Hu Hnd].
  assert (∀ i x,
    let s' := state_of (insert_data_item uuid i x s) in
    data_item_uuids s' = uuid <$> __data_items s' ∧ NoDup (__data_items s'))
    as Hinsert.
  { intros i x. unfold insert_data_item, assert.
    destruct (contains (__data_items s) x) eqn:Hx; simpl; [done|].
    apply contains_false in Hx. split.
    - by rewrite list_insert_at_fmap, Hu.
    - rewrite list_insert_at_Permutation. by constructor. }
  destruct r as [i x|x|x]; simpl; [apply Hinsert..|].
  unfold remove_data_item, list_remove.
  destruct (list_index x (__data_items s)) as [i|] eqn:Hi; [|done].
  simpl. rewrite Hu, (list_index_fmap_inj _ _ _ Hinj Hi). simpl. split.
  - by rewrite list_fmap_delete.
  - eapply sublist_NoDup; [done|]. apply sublist_delete.
Qed.

(** X18. When different data items have different uuids, then after
    any history of [insert_data_item], [append_data_item] and
    [remove_data_item] on a new data item, raising ones included, the
    uuids it keeps are the uuids of its data items, in the same order,
    and no data item is held twice. *)
Theorem data_item_uuids_follow_data_items
  (history : list (request (item := item))) :
  (∀ x y, uuid x = uuid y → x = y) →
  data_item_uuids (after uuid history) =
    uuid <$> __data_items (after uuid history) ∧
  NoDup (__data_items (after uuid history)).
Proof.
  intros Hinj. induction history as [|r history IH] using rev_ind.
  - split; [done|constructor].
  - unfold after in *. rewrite foldl_app. simpl.
    by apply serve_data_item_uuids.
Qed.

End data_item_items_facts.

Lemma data_item_uuids_follow_data_items_witness :
  let uuid := λ x : nat, (x + 100)%nat in
  let history :=
    [DataItemItems.do_append_data_item 1%nat;
     DataItemItems.do_insert_data_item 0 2%nat;
     DataItemItems.do_insert_data_item 7 3%nat;
     DataItemItems.do_append_data_item 2%nat;
     DataItemItems.do_remove_data_item 1%nat;
     DataItemItems.do_remove_data_item 5%nat] in
  DataItemItems.data_item_uuids (DataItemItems.after uuid history) =
    uuid <$> DataItemItems.__data_items (DataItemItems.after uuid history) ∧
  NoDup (DataItemItems.__data_items (DataItemItems.after uuid history)).
Proof.
  intros uuid history.
  apply (data_item_uuids_follow_data_items uuid history).
  intros x y. unfold uuid. lia.
Defined.

(** * The date for sorting and the description *)

Section date_facts.
Import Dates.

Lemma list_max_spec first rest :
  first ≤ list_max first rest ∧
  Forall (λ t, t ≤ list_max first rest) rest ∧
  list_max first rest ∈ first :: rest.
Proof.
  unfold list_max. revert first.
  induction rest as [|t rest IH]; intros first; simpl.
  - split_and!; [lia|constructor|by left].
  - destruct (IH (first `max` t)) as (Hfirst & Hrest & Hin).
    split_and!; [lia|constructor; [lia|done]|].
    apply elem_of_cons in Hin as [Hin|Hin].
    + rewrite Hin. destruct (Z.max_spec first t) as [[_ ->]|[_ ->]].
      * right. by left.
      * by left.
    + right. by right.
Qed.

(** X19. [date_for_sorting] is the latest of the dates of the data
    sources, where the date of a data source is its
    [source_data_modified], failing that its [data_modified], failing
    that the creation date of the data item; without data sources it is
    the creation date. *)
Theorem date_for_sorting_is_the_latest created data_sources :
  Forall (λ s, date_of created s ≤ date_for_sorting created data_sources)
    data_sources ∧
  match data_sources with
  | [] => date_for_sorting created data_sources = created
  | _ => ∃ s, s ∈ data_sources ∧
              date_for_sorting created data_sources = date_of created s
  end.
Proof.
  unfold date_for_sorting.
  destruct data_sources as [|s data_sources]; [by split|].
  rewrite fmap_cons.
  destruct (list_max_spec (date_of created s)
              (date_of created <$> data_sources)) as (Hfirst & Hrest & Hin).
  split.
  - constructor; [done|]. apply Forall_forall. intros s' Hs'.
    rewrite Forall_forall in Hrest. apply Hrest.
    apply list_elem_of_fmap. by exists s'.
  - apply elem_of_cons in Hin as [Hin|Hin].
    + exists s. split; [by left|done].
    + apply list_elem_of_fmap in Hin as (s' & Hs' & Hin).
      exists s'. split; [by right|done].
Qed.

End date_facts.

Section description_facts.
Import Description.
Implicit Types m : metadata.

Lemma get_set_description key otherwise v m :
  get_description key otherwise (set_description key v m) = v.
Proof.
  unfold get_description, set_description, metadata in *.
  rewrite (lookup_insert_eq m). cbn [from_option id].
  by rewrite lookup_insert_eq.
Qed.

Lemma get_set_description_ne key key' otherwise v m :
  key ≠ key' →
  get_description key otherwise (set_description key' v m) =
  get_description key otherwise m.
Proof.
  intros Hkey. unfold get_description, set_description, metadata in *.
  rewrite (lookup_insert_eq m). cbn [from_option id].
  by rewrite lookup_insert_ne.
Qed.

(** X20. Each of the four setters changes what its own getter returns
    and nothing of what the other three return: after setting the
    title or the caption the getter returns the string given, the empty
    string for [None]; after setting the flag it returns the number
    given cut to the range from -1 to 1, after setting the rating the
    number given cut to the range from 0 to 5. *)
Theorem description_setters_keep_apart r m :
  title (serve r m) =
    match r with
    | do_set_title value => str (default EmptyString value)
    | _ => title m
    end ∧
  caption (serve r m) =
    match r with
    | do_set_caption value => str (default EmptyString value)
    | _ => caption m
    end ∧
  flag (serve r m) =
    match r with
    | do_set_flag value => int (Z.max (Z.min value 1) (-1))
    | _ => flag m
    end ∧
  rating (serve r m) =
    match r with
    | do_set_rating value => int (Z.min (Z.max value 0) 5)
    | _ => rating m
    end.
Proof.
  unfold title, caption, flag, rating.
  destruct r as [value|value|value|value]; simpl;
    unfold set_title, set_caption, set_flag, set_rating;
    rewrite ?get_set_description;
    rewrite ?get_set_description_ne by done; done.
Qed.

(** X21. Whatever is set on a new data item, in whatever order, the
    flag read back is a number from -1 to 1 and the rating read back a
    number from 0 to 5. *)
Theorem flag_and_rating_stay_in_range (history : list request) :
  (∃ z, flag (after history) = int z ∧ -1 ≤ z ≤ 1) ∧
  (∃ z, rating (after history) = int z ∧ 0 ≤ z ≤ 5).
Proof.
  induction history as [|r history [(f & Hf & Hfr) (g & Hg & Hgr)]]
    using rev_ind.
  - split; exists 0; (split; [done|lia]).
  - unfold after in *. rewrite foldl_app. simpl.
    unfold flag, rating in *.
    destruct r as [value|value|value|value]; simpl;
      unfold set_title, set_caption, set_flag, set_rating;
      rewrite ?get_set_description;
      rewrite ?get_set_description_ne by done;
      split;
      try (exists f; split; [done|lia]);
      try (exists g; split; [done|lia]);
      eexists; (split; [reflexivity|lia]).
Qed.

End description_facts.

(** * The inspector panel *)

Section inspector_facts.
Context {item : Type} `{EqDecision item}.
Import InspectorPanelBase.
Implicit Types p : Panel (item := item).

Local Abbreviation open_inspector :=
  (λ p, match __data_item_inspector p, __data_item p with
        | Some inspector, Some data_item => Some (inspector, data_item)
        | _, _ => None
        end).

(** The panel has an inspector exactly when it has a data item, the
    column holds the widget of that inspector and nothing else, and the
    calls made so far keep to the rule and leave that inspector open. *)
Local Abbreviation in_order :=
  (λ p, check_calls (calls p) = Some (open_inspector p, created_count p) ∧
        (__data_item_inspector p = None ↔ __data_item p = None) ∧
        column p = option_list (__data_item_inspector p)).

Lemma check_calls_snoc (log : list (call (item := item))) c :
  check_calls (log ++ [c]) = check_calls log ≫= check_call c.
Proof. unfold check_calls. by rewrite foldl_app. Qed.

Lemma __update_data_item_inspector_in_order p st :
  check_calls (calls p) = Some (st, created_count p) →
  fst <$> st = __data_item_inspector p →
  column p = option_list (__data_item_inspector p) →
  in_order (__update_data_item_inspector p).
Proof.
  intros Hcalls Hst Hcolumn. unfold __update_data_item_inspector.
  destruct p as [data_item inspector changed pending col n log l c].
  simpl in *. subst col.
  destruct inspector as [i|], st as [[i' x']|]; simplify_eq/=.
  - assert (filter (λ widget : nat, widget ≠ i) [i] = []) as Hf.
    { rewrite filter_cons_False by (intros Hne; by apply Hne).
      apply filter_nil. }
    destruct data_item as [x|]; simpl; rewrite Hf.
    + rewrite !check_calls_snoc, Hcalls. simpl.
      rewrite (decide_True (P := i = i)) by done. simpl.
      rewrite (decide_True (P := n = n)) by done. by split_and!.
    + rewrite !check_calls_snoc, Hcalls. simpl.
      rewrite (decide_True (P := i = i)) by done. by split_and!.
  - destruct data_item as [x|]; simpl.
    + rewrite !check_calls_snoc, Hcalls. simpl.
      rewrite (decide_True (P := n = n)) by done. by split_and!.
    + by split_and!.
Qed.

Lemma __set_data_item_in_order v p :
  in_order p → in_order (__set_data_item v p).
Proof.
  intros (Hcalls & Hiff & Hcolumn). unfold __set_data_item.
  destruct (decide (__data_item p ≠ v)); [|done].
  eapply __update_data_item_inspector_in_order; simpl; [done| |done].
  destruct (__data_item_inspector p) as [i|] eqn:Hi; simpl.
  - destruct (__data_item p); [done|].
    pose proof (proj2 Hiff eq_refl). congruence.
  - done.
Qed.

Lemma periodic_in_order p : in_order p → in_order (periodic p).
Proof.
  intros (Hcalls & Hiff & Hcolumn). unfold periodic.
  set (p1 := match __data_item_inspector p with
             | Some inspector => _
             | None => p
             end).
  assert (in_order p1) as (Hcalls1 & Hiff1 & Hcolumn1).
  { subst p1. destruct (__data_item_inspector p) as [i|] eqn:Hi.
    2: { rewrite Hi. by split_and!. }
    simpl.
    destruct (__data_item p) as [x|] eqn:Hx;
      [|pose proof (proj2 Hiff eq_refl); congruence].
    rewrite check_calls_snoc, Hcalls. simpl.
    rewrite decide_True by done. by split_and!. }
  destruct (__update_data_item_changed p1); [|done].
  simpl. destruct (decide _); [|done].
  by apply __set_data_item_in_order.
Qed.

Lemma close_in_order p :
  in_order p →
  in_order (close p) ∧ __data_item_inspector (close p) = None ∧
  listening (close p) = false.
Proof.
  intros Hp. unfold close.
  set (p1 := MkPanel _ _ _ _ _ _ _ false true).
  assert (in_order p1) as Hp1 by done.
  pose proof (__set_data_item_in_order None p1 Hp1) as Hp2.
  assert (__data_item (__set_data_item None p1) = None) as Hnone.
  { unfold __set_data_item. destruct (decide (__data_item p1 ≠ None));
      [|by destruct (__data_item p1) eqn:E; [destruct n; congruence|]].
    unfold __update_data_item_inspector. simpl.
    by destruct (__data_item_inspector p). }
  assert (listening (__set_data_item None p1) = false) as Hl.
  { unfold __set_data_item. destruct (decide _); [|done].
    unfold __update_data_item_inspector. simpl.
    by destruct (__data_item_inspector p). }
  destruct Hp2 as (Hcalls & Hiff & Hcolumn).
  pose proof (proj2 Hiff Hnone) as Hi. rewrite Hi in Hcalls, Hcolumn |- *.
  cbv iota. rewrite Hi. by split_and!.
Qed.

Lemma after_in_order (history : list (request (item := item))) :
  in_order (after history).
Proof.
  induction history as [|r history IH] using rev_ind; [done|].
  unfold after in *. rewrite foldl_app. simpl.
  destruct r as [v|v| |]; simpl.
  - by apply __set_data_item_in_order.
  - done.
  - by apply periodic_in_order.
  - by apply close_in_order.
Qed.

(** X22. After any history of requests the panel has a data item
    inspector exactly when it has a data item, that inspector was
    created for that data item, the column holds its widget and no
    other, and in the calls made so far an inspector was created only
    while none was open and only the open inspector was ticked or
    closed: no inspector is closed twice, used after it was closed, or
    left open when another is created. *)
Theorem inspectors_are_opened_and_closed_in_order
  (history : list (request (item := item))) :
  let p := after history in
  check_calls (calls p) =
    Some (match __data_item_inspector p, __data_item p with
          | Some inspector, Some data_item => Some (inspector, data_item)
          | _, _ => None
          end, created_count p) ∧
  (__data_item_inspector p = None ↔ __data_item p = None) ∧
  column p = option_list (__data_item_inspector p).
Proof. apply after_in_order. Qed.

(** X23. After [close] the panel has no data item and no inspector,
    the column is empty, the panel listens no more, and every inspector
    that was created has been closed, once. *)
Theorem close_leaves_no_inspector_open
  (history : list (request (item := item))) :
  let p := after (history ++ [do_close]) in
  __data_item p = None ∧ __data_item_inspector p = None ∧
  column p = [] ∧ listening p = false ∧
  check_calls (calls p) = Some (None, created_count p).
Proof.
  unfold after. rewrite foldl_app. simpl.
  destruct (close_in_order _ (after_in_order history))
    as ((Hcalls & Hiff & Hcolumn) & Hnone & Hl).
  unfold after in *. rewrite Hnone in *.
  split_and!; [by apply Hiff|done..].
Qed.

Lemma data_item_changed_overwrites vs : ∀ p v,
  foldl (λ p v, data_item_binding_data_item_changed v p) p (vs ++ [v]) =
  data_item_binding_data_item_changed v p.
Proof.
  induction vs as [|u vs IH]; intros p v; simpl; [done|].
  by rewrite IH.
Qed.

(** X24. However many times the binding reports a changed data item
    between two calls of [periodic], the second [periodic] does what
    setting the data item reported last does, once: with nothing
    pending before, it leaves the panel as [periodic] followed by
    setting that data item would. *)
Theorem periodic_takes_the_last_report p vs v :
  __update_data_item_changed p = false →
  periodic
    (foldl (λ p v, data_item_binding_data_item_changed v p) p (vs ++ [v])) =
  __set_data_item v (periodic p).
Proof.
  intros Hp. rewrite data_item_changed_overwrites.
  destruct p as [data_item inspector changed pending col n log l c].
  simpl in Hp. subst changed. unfold periodic. simpl.
  destruct inspector as [i|]; simpl.
  - destruct (decide (data_item ≠ v)) as [Hv|Hv]; [done|].
    unfold __set_data_item. simpl. by rewrite decide_False.
  - destruct (decide (data_item ≠ v)) as [Hv|Hv]; [done|].
    unfold __set_data_item. simpl. by rewrite decide_False.
Qed.

End inspector_facts.

Lemma periodic_takes_the_last_report_witness :
  let p := InspectorPanelBase.after
             [InspectorPanelBase.do_set_data_item (Some 1%nat)] in
  let p' := InspectorPanelBase.periodic
    (foldl (λ p v, InspectorPanelBase.data_item_binding_data_item_changed v p)
       p [Some 2%nat; None; Some 3%nat]) in
  InspectorPanelBase.__update_data_item_changed p = false ∧
  InspectorPanelBase.calls p' =
    [InspectorPanelBase.created 0 1%nat; InspectorPanelBase.ticked 0;
     InspectorPanelBase.closed 0; InspectorPanelBase.created 1 3%nat].
Proof.
  intros p p'. split; [reflexivity|]. subst p'.
  rewrite (periodic_takes_the_last_report p [Some 2%nat; None] (Some 3%nat))
    by reflexivity.
  reflexivity.
Defined.

(** * Adding and taking back counted display items *)

Section counter_round_trip.
Context `{Countable K}.

Lemma update_then_subtract_strip (self other : gmap K Z) :
  map_Forall (λ _ count, 0 < count) self →
  Counter.__iadd__ (Counter.subtract (Counter.update self other) other) ∅
  = self.
Proof.
  intros Hpos. apply map_eq. intros k.
  rewrite lookup_subtract_strip, lookup_update.
  destruct (other !! k) as [count|] eqn:Hk; simpl.
  - destruct (self !! k) as [v|] eqn:Hv; simpl.
    + apply Hpos in Hv. simpl in Hv.
      case_bool_decide; [f_equal; lia|lia].
    + case_bool_decide; [lia|done].
  - destruct (self !! k) as [v|] eqn:Hv; [|done].
    apply Hpos in Hv. simpl in Hv. case_bool_decide; [done|lia].
Qed.

End counter_round_trip.

Section data_group_round_trip.
Context `{Countable item}.
Import DataGroup.

(** X25. Adding counted display items to a data group, as when a data
    group is inserted into it, and subtracting the same counted display
    items, as when that data group is removed again, gives back the
    counter the group had, whatever the counts added and subtracted
    are, provided the counter held positive counts only. *)
Theorem update_then_subtract_counted_display_items
  (g : DataGroup (item := item)) counted_display_items :
  map_Forall (λ _ count, 0 < count) (__counted_display_items g) →
  subtract_counted_display_items counted_display_items
    (update_counted_display_items counted_display_items g) = g.
Proof.
  intros Hpos. destruct g as [l counted].
  unfold subtract_counted_display_items, update_counted_display_items.
  simpl in *. f_equal. by apply update_then_subtract_strip.
Qed.

End data_group_round_trip.

Lemma update_then_subtract_counted_display_items_witness :
  let g := DataGroup.MkDataGroup [1%nat] {[1%nat := 1]} in
  let counted := ({[1%nat := 2; 2%nat := -3; 3%nat := 0]} : gmap nat Z) in
  DataGroup.subtract_counted_display_items counted
    (DataGroup.update_counted_display_items counted g) = g.
Proof.
  intros g counted.
  apply (update_then_subtract_counted_display_items g counted).
  compute_done.
Defined.

(** * What a transaction rewrites at its exit *)

Section transaction_rewrites.
Context {Thread : Type} `{EqDecision Thread}.
Import BufferedDataSource DataItem.
Implicit Types d : DataItem.
Implicit Types s : BufferedDataSourceChanges.state (Thread := Thread).

Local Abbreviation idle :=
  (λ s, BufferedDataSourceChanges.__change_count s = 0 ∧
        BufferedDataSourceChanges.__change_changed s = false).

(** Whatever a caller does to a data source with no block open leaves
    it with no block open, and makes it fire [data_item_changed_event]
    once if a change was reached and not at all otherwise. *)
Lemma run_from_idle (t : Thread) a s :
  idle s →
  idle (state_of (BufferedDataSourceChanges.run t a s)) ∧
  BufferedDataSourceChanges.data_item_changed_events
    (state_of (BufferedDataSourceChanges.run t a s)) =
  (BufferedDataSourceChanges.data_item_changed_events s +
   if (BufferedDataSourceChanges.reach a).1 then 1 else 0)%nat.
Proof.
  intros [Hc Hf]. destruct a as [| | |body].
  - destruct s as [th c f n m w]. simpl in *. subst c f.
    unfold BufferedDataSourceChanges.r_value_changed,
      BufferedDataSourceChanges._changes,
      BufferedDataSourceChanges._begin_changes,
      BufferedDataSourceChanges._end_changes. simpl.
    split_and!; [done|done|lia].
  - destruct s as [th c f n m w]. simpl in *. subst c f.
    unfold BufferedDataSourceChanges.__metadata_changed,
      BufferedDataSourceChanges._changes,
      BufferedDataSourceChanges._begin_changes,
      BufferedDataSourceChanges._end_changes. simpl.
    split_and!; [done|done|lia].
  - simpl. split_and!; [done|done|lia].
  - destruct (changes_from_idle t body s Hc Hf)
      as (_ & Hc' & _ & Hf' & _ & He').
    rewrite reach_do_changes. by split_and!.
Qed.

Lemma hear_flag _is_reading fired d :
  let d' := DataItemSource.hear _is_reading fired d in
  __write_delay_data_changed d' =
    __write_delay_data_changed d ||
    (negb _is_reading && negb (Nat.eqb fired 0)) ∧
  modified_count d' = modified_count d ∧
  __write_delay_modified_count d' = __write_delay_modified_count d ∧
  storage_calls d' = storage_calls d ∧
  __pending_write d' = __pending_write d ∧
  persistent_object_context d' = persistent_object_context d.
Proof.
  unfold DataItemSource.hear. induction fired as [|fired IH]; simpl.
  - split_and!; try done. by rewrite andb_false_r, orb_false_r.
  - destruct IH as (Hf & Hm & Hw & Hs & Hp & Hc).
    unfold data_item_changed at 1 3 5 7 9 11.
    destruct _is_reading; simpl in *.
    + rewrite orb_false_r in *. by split_and!.
    + rewrite Hm, Hw, Hs, Hp, Hc. split_and!; try done.
      by rewrite orb_true_r.
Qed.

(** What the steps of a transaction leave in the data item. *)
Lemma run_steps (t : Thread) (steps : list DataItemSource.step) :
  ∀ d s, idle s →
  let ds := DataItemSource.run t steps (d, s) in
  modified_count d ≤ modified_count ds.1 ∧
  (existsb DataItemSource.changes_property steps =
   bool_decide (modified_count ds.1 > modified_count d)) ∧
  __write_delay_modified_count ds.1 = __write_delay_modified_count d ∧
  __write_delay_data_changed ds.1 =
    __write_delay_data_changed d ||
    existsb DataItemSource.reports_change steps ∧
  storage_calls ds.1 = storage_calls d ∧
  __pending_write ds.1 = __pending_write d ∧
  persistent_object_context ds.1 = persistent_object_context d.
Proof.
  induction steps as [|st steps IH]; intros d s Hs.
  - simpl. rewrite orb_false_r, bool_decide_eq_false_2 by lia.
    split_and!; try done.
  - unfold DataItemSource.run in *. cbn [foldl].
    destruct st as [|_is_reading a]; cbn [DataItemSource.serve fst snd].
    + destruct (IH (state_of (property_changed d)) s Hs)
        as (Hle & Hex & Hw & Hf & Hc & Hp & Hx).
      simpl in *. rewrite Hw, Hf, Hc, Hp, Hx.
      rewrite bool_decide_eq_true_2 by lia.
      split_and!; try done. lia.
    + destruct (run_from_idle t a s Hs) as (Hidle & Hevents).
      set (s' := state_of (BufferedDataSourceChanges.run t a s)) in *.
      set (fired :=
        (BufferedDataSourceChanges.data_item_changed_events s' -
         BufferedDataSourceChanges.data_item_changed_events s)%nat).
      destruct (hear_flag _is_reading fired d)
        as (Hf1 & Hm1 & Hw1 & Hc1 & Hp1 & Hx1).
      destruct (IH (DataItemSource.hear _is_reading fired d) s' Hidle)
        as (Hle & Hex & Hw & Hf & Hc & Hp & Hx).
      rewrite Hm1 in Hle, Hex.
      rewrite Hw, Hf, Hc, Hp, Hx, Hw1, Hf1, Hc1, Hp1, Hx1.
      split_and!; try done. simpl. rewrite <-orb_assoc.
      do 2 f_equal. subst fired. rewrite Hevents.
      destruct (BufferedDataSourceChanges.reach a).1; simpl.
      * by replace (_ + 1 - _)%nat with 1%nat by lia.
      * by replace (_ + 0 - _)%nat with 0%nat by lia.
Qed.

(** C6, as the code has it. For a data item that has a persistent
    object context and no pending write: [_exit_transaction_state] calls
    [rewrite_data_item_properties] once if the modification counter is
    above its value recorded on entering the write-delay state, and not
    otherwise, then [rewrite_data_item_data] once if the flag
    [__write_delay_data_changed] is up, and not otherwise, and makes no
    other call on the context; so a transaction with any number of
    property changes, ten for one, ends with exactly one call of
    [rewrite_data_item_properties], made at its exit, and a transaction
    without property changes with none.  The flag is raised by the
    listener of the [data_item_changed_event] of a data source: whatever
    the steps of a transaction are, the data item makes no call on the
    context during them, and at the exit it calls
    [rewrite_data_item_properties] once if and only if a property was
    changed, and [rewrite_data_item_data] once if and only if the data
    source has fired its event while the data item was not reading,
    which the data source does at the end of every outermost block of
    changes, of its r-value and of its metadata as of its data. *)
Theorem exit_transaction_rewrites_once :
  (∀ d c,
     persistent_object_context d = Some c → __pending_write d = false →
     storage_calls (state_of (_exit_transaction_state d)) =
       storage_calls d ++
       (if bool_decide (modified_count d > __write_delay_modified_count d)
        then [rewrite_data_item_properties] else []) ++
       (if __write_delay_data_changed d
        then [rewrite_data_item_data] else [])) ∧
  (∀ d c n,
     persistent_object_context d = Some c → __pending_write d = false →
     storage_calls
       (run (replicate n do_property_changed)
          (state_of (_enter_transaction_state d))) = storage_calls d ∧
     storage_calls
       (run (do_enter_transaction_state ::
             replicate n do_property_changed ++
             [do_exit_transaction_state]) d) =
       storage_calls d ++
       (if bool_decide (n = 0%nat) then []
        else [rewrite_data_item_properties])) ∧
  (∀ d c,
     persistent_object_context d = Some c → __pending_write d = false →
     storage_calls
       (run (do_enter_transaction_state ::
             replicate 10 do_property_changed ++
             [do_exit_transaction_state]) d) =
       storage_calls d ++ [rewrite_data_item_properties]) ∧
  (∀ (t : Thread) d c s steps,
     persistent_object_context d = Some c → __pending_write d = false →
     BufferedDataSourceChanges.__change_count s = 0 →
     BufferedDataSourceChanges.__change_changed s = false →
     let inside :=
       (DataItemSource.run t steps
          (state_of (_enter_transaction_state d), s)).1 in
     storage_calls inside = storage_calls d ∧
     storage_calls (state_of (_exit_transaction_state inside)) =
       storage_calls d ++
       (if existsb DataItemSource.changes_property steps
        then [rewrite_data_item_properties] else []) ++
       (if existsb DataItemSource.reports_change steps
        then [rewrite_data_item_data] else [])).
Proof.
  destruct exit_transaction_storage_calls as (Hexit & Hn & Hten).
  split_and!; [done..|].
  intros t d c s steps Hc Hp Hcount Hchanged inside.
  destruct (_enter_transaction_state_spec d)
    as (_ & Hcalls & Hpending & _ & Hm & Hw & Hflag & Hctx).
  destruct (run_steps t steps (state_of (_enter_transaction_state d)) s)
    as (Hle & Hex & Hw' & Hf' & Hc' & Hp' & Hx'); [done|].
  fold inside in Hle, Hex, Hw', Hf', Hc', Hp', Hx'.
  split; [congruence|].
  assert (is_Some (persistent_object_context inside)) as [c' Hctx'].
  { rewrite Hx'. apply Hctx. by rewrite Hc. }
  rewrite (Hexit inside c' Hctx') by congruence.
  rewrite Hc', Hcalls, Hf', Hflag, Hw', Hw, Hex, <-Hm. done.
Qed.

End transaction_rewrites.

(** C6 as stated fails, in both halves.  A new data item is given a
    persistent object context, enters the transaction state, has ten
    properties changed and leaves the transaction state: the
    modification counter is above its recorded value, yet the exit
    calls [write_data_item] and no [rewrite_data_item_properties].  A
    data item read from a dictionary and without a context makes no
    call at all at the exit of such a transaction.  And a data item
    that was read before and has a context, in a transaction during
    which nothing happens but [r_value_changed] of its data source, in
    which no data is set, calls [rewrite_data_item_data] at the
    exit. *)
Lemma exit_transaction_rewrites_not_as_claimed :
  let c := DataItem.MkPersistentObjectContext
             (Some (DataItem.MkPersistentStorage false)) in
  let inside :=
    DataItem.run (DataItem.do_set_context (Some c) ::
                  DataItem.do_enter_transaction_state ::
                  replicate 10 DataItem.do_property_changed)
      DataItem.__init__ in
  let outside := state_of (DataItem._exit_transaction_state inside) in
  let detached :=
    DataItem.run (DataItem.do_read_from_dict [] ::
                  DataItem.do_enter_transaction_state ::
                  replicate 10 DataItem.do_property_changed ++
                  [DataItem.do_exit_transaction_state]) DataItem.__init__ in
  let written :=
    DataItem.run [DataItem.do_read_from_dict [];
                  DataItem.do_set_context (Some c)] DataItem.__init__ in
  let renamed :=
    DataItemSource.run 0%nat
      [DataItemSource.do_data_source false
         BufferedDataSourceChanges.do_r_value_changed]
      (state_of (DataItem._enter_transaction_state written),
       BufferedDataSourceChanges.__init__) in
  (DataItem.modified_count inside >
     DataItem.__write_delay_modified_count inside ∧
   DataItem.storage_calls inside = [] ∧
   DataItem.storage_calls outside = [DataItem.write_data_item] ∧
   DataItem.count_calls DataItem.rewrite_data_item_properties
     (DataItem.storage_calls outside) = 0%nat) ∧
  (DataItem.__pending_write detached = false ∧
   DataItem.modified_count detached >
     DataItem.__write_delay_modified_count detached ∧
   DataItem.storage_calls detached = []) ∧
  (DataItem.__pending_write written = false ∧
   DataItem.storage_calls renamed.1 = [] ∧
   DataItem.storage_calls
     (state_of (DataItem._exit_transaction_state renamed.1)) =
   [DataItem.rewrite_data_item_data]).
Proof. vm_compute. split_and!; reflexivity. Qed.

Lemma exit_transaction_rewrites_once_witness :
  let c := DataItem.MkPersistentObjectContext
             (Some (DataItem.MkPersistentStorage false)) in
  let d := DataItem.run [DataItem.do_read_from_dict [];
                         DataItem.do_set_context (Some c)]
             DataItem.__init__ in
  let inside :=
    DataItem.run (DataItem.do_enter_transaction_state ::
                  replicate 10 DataItem.do_property_changed ++
                  [DataItem.do_data_item_changed false]) d in
  let steps :=
    [DataItemSource.do_property_changed;
     DataItemSource.do_data_source true
       BufferedDataSourceChanges.do_r_value_changed;
     DataItemSource.do_data_source false
       (BufferedDataSourceChanges.do_changes
          [BufferedDataSourceChanges.do_metadata_changed;
           BufferedDataSourceChanges.do_r_value_changed]);
     DataItemSource.do_property_changed] in
  DataItem.storage_calls
    (state_of (DataItem._exit_transaction_state inside)) =
    DataItem.storage_calls inside ++
    [DataItem.rewrite_data_item_properties] ++
    [DataItem.rewrite_data_item_data] ∧
  DataItem.storage_calls
    (DataItem.run (DataItem.do_enter_transaction_state ::
                   replicate 3 DataItem.do_property_changed ++
                   [DataItem.do_exit_transaction_state]) d) =
    DataItem.storage_calls d ++ [DataItem.rewrite_data_item_properties] ∧
  DataItem.storage_calls
    (DataItem.run (DataItem.do_enter_transaction_state ::
                   replicate 10 DataItem.do_property_changed ++
                   [DataItem.do_exit_transaction_state]) d) =
    DataItem.storage_calls d ++ [DataItem.rewrite_data_item_properties] ∧
  DataItem.storage_calls
    (state_of (DataItem._exit_transaction_state
       (DataItemSource.run 0%nat steps
          (state_of (DataItem._enter_transaction_state d),
           BufferedDataSourceChanges.__init__)).1)) =
    DataItem.storage_calls d ++
    [DataItem.rewrite_data_item_properties] ++
    [DataItem.rewrite_data_item_data].
Proof.
  intros c d inside steps.
  pose proof (exit_transaction_rewrites_once (Thread := nat))
    as (H1 & H2 & H3 & H4).
  split_and!.
  - apply (H1 inside (DataItem.MkPersistentObjectContext
                        (Some (DataItem.MkPersistentStorage true))));
      reflexivity.
  - apply (H2 d c 3%nat); reflexivity.
  - apply (H3 d c); reflexivity.
  - apply (H4 0%nat d c BufferedDataSourceChanges.__init__ steps);
      reflexivity.
Defined.

(** * A pass whose listeners raise *)

Section raising_listener_facts.
Context `{Countable item}.
Variable listeners_return : list (notification (item := item)) → bool.
Implicit Types p q r start : pass (item := item).
Implicit Types o : outcome (pass (item := item)).

Local Abbreviation cut_short := (RaisingListeners.cut_short listeners_return).

Lemma and_then_Returned {S} (oc : outcome S) k (y : S) :
  oc >>> k = Returned y → ∃ x, oc = Returned x ∧ k x = Returned y.
Proof. destruct oc as [x|x]; simpl; [by exists x|done]. Qed.

Lemma take_prefix {A} (l1 l2 : list A) n :
  l1 `prefix_of` l2 → (n ≤ length l1)%nat → take n l2 = take n l1.
Proof. intros [k ->] Hn. by apply take_app_le. Qed.

Lemma cut_short_same p q :
  notified q = notified p → cut_short p q (Returned q).
Proof.
  intros Hq. split; [by rewrite Hq|]. left. split; [|done].
  intros k Hk. rewrite Hq in Hk. lia.
Qed.

Lemma cut_short_call p q n :
  notified q = notified p ++ [n] → __data_items q = note_data_items n →
  cut_short p q (RaisingListeners.call_listeners listeners_return q).
Proof.
  intros Hq Hn. split; [rewrite Hq; by apply prefix_app_r|].
  unfold RaisingListeners.call_listeners.
  assert (take (S (length (notified p))) (notified q) = notified q) as Htake.
  { apply take_ge. rewrite Hq, length_app. simpl. lia. }
  destruct (listeners_return (notified q)) eqn:Hl.
  - left. split; [|done]. intros k Hk.
    rewrite Hq, length_app in Hk. simpl in Hk.
    replace k with (length (notified p)) by lia. by rewrite Htake.
  - right. exists (length (notified p)), n, q. split_and!; try done.
    + rewrite Hq. by apply list_lookup_middle.
    + intros j Hj. lia.
    + by rewrite Htake.
Qed.

Lemma cut_short_and_then p q r o g :
  cut_short p q o → cut_short q r (g q) → cut_short p r (o >>> g).
Proof.
  intros [Hpq Ho] [Hqr Hg]. split; [by etrans|].
  pose proof (prefix_length _ _ Hpq) as Hlpq.
  pose proof (prefix_length _ _ Hqr) as Hlqr.
  destruct Ho as [[Hheard ->]|(k & n & p' & Hk & Hn & Hbefore & Hat & -> &
                               Hnote & Hitems)].
  - simpl. destruct Hg as [[Hheard' ->]|(k & n & p' & Hk & Hn & Hbefore &
                                         Hat & -> & Hnote & Hitems)].
    + left. split; [|done]. intros k Hk.
      destruct (decide (k < length (notified q))%nat) as [Hlt|Hge].
      * rewrite (take_prefix _ _ _ Hqr) by lia. apply Hheard. lia.
      * apply Hheard'. lia.
    + right. exists k, n, p'. split_and!; try done; [lia|].
      intros j Hj.
      destruct (decide (j < length (notified q))%nat) as [Hlt|Hge].
      * rewrite (take_prefix _ _ _ Hqr) by lia. apply Hheard. lia.
      * apply Hbefore. lia.
  - simpl. right. exists k, n, p'.
    pose proof (lookup_lt_Some _ _ _ Hn) as Hlt.
    split_and!; try done.
    + by eapply prefix_lookup_Some.
    + intros j Hj. rewrite (take_prefix _ _ _ Hqr) by lia. by apply Hbefore.
    + by rewrite (take_prefix _ _ _ Hqr) by lia.
    + by rewrite (take_prefix _ _ _ Hqr) by lia.
Qed.

Lemma remove_at_cut_short x i p q :
  remove_at x i p = Returned q →
  cut_short p q (RaisingListeners.remove_at listeners_return x i p).
Proof.
  unfold remove_at, RaisingListeners.remove_at.
  destruct (list_del (old_data_items p) i); [|done].
  destruct (list_del (__data_items p) i) as [cur'|]; [|done].
  intros [= <-]. by eapply cut_short_call.
Qed.

Lemma insert_at_cut_short x i p q :
  insert_at x i p = Returned q →
  cut_short p q (RaisingListeners.insert_at listeners_return x i p).
Proof.
  unfold insert_at, RaisingListeners.insert_at.
  intros [= <-]. by eapply cut_short_call.
Qed.

Lemma assert_Returned {S} c (s s' : S) :
  assert c s = Returned s' → c = true ∧ s' = s.
Proof. unfold assert. destruct c; [|done]. by intros [= <-]. Qed.

Lemma remove_stale_cut_short new p q :
  remove_stale new p = Returned q →
  cut_short p q (RaisingListeners.remove_stale listeners_return new p).
Proof.
  unfold remove_stale, RaisingListeners.remove_stale.
  destruct (old_data_items p !! index p) as [x|];
    [|intros [= <-]; by apply cut_short_same].
  destruct (contains new x); [intros [= <-]; by apply cut_short_same|].
  intros (p1 & [Hc ->]%assert_Returned & Hq)%and_then_Returned.
  rewrite Hc. simpl. by apply remove_at_cut_short.
Qed.

Lemma assert_that_notified (c : pass (item := item) → bool) p q :
  assert_that c p = Returned q → q = p.
Proof. unfold assert_that. destruct (c p); [|done]. by intros [= <-]. Qed.

Lemma place_cut_short x p q :
  place x p = Returned q →
  cut_short p q (RaisingListeners.place listeners_return x p).
Proof.
  unfold place, RaisingListeners.place.
  destruct (list_index x (old_data_items p)) as [old_index|].
  - intros (p1 & [Hc ->]%assert_Returned & Hq)%and_then_Returned.
    rewrite Hc. cbn [assert and_then].
    destruct (bool_decide (index p < old_index)%nat);
      [|injection Hq as <-; by apply cut_short_same].
    apply and_then_Returned in Hq as (p3 & Hq & Hinsert).
    apply and_then_Returned in Hq as (p2 & Hq & Hthat).
    apply and_then_Returned in Hq as (p1 & [Hc1 ->]%assert_Returned & Hrem).
    rewrite Hc1. cbn [assert and_then].
    apply (cut_short_and_then p p3 q); [|by apply insert_at_cut_short].
    apply (cut_short_and_then p p2 p3);
      [by apply remove_at_cut_short|].
    rewrite Hthat. apply cut_short_same.
    by rewrite (assert_that_notified _ _ _ Hthat).
  - intros (p1 & [Hc ->]%assert_Returned & Hq)%and_then_Returned.
    rewrite Hc. cbn [assert and_then]. by apply insert_at_cut_short.
Qed.

Lemma visit_cut_short new p x q :
  visit new p x = Returned q →
  cut_short p q (RaisingListeners.visit listeners_return new p x).
Proof.
  unfold visit, RaisingListeners.visit.
  intros (p2 & (p1 & Hstale & Hplace)%and_then_Returned & Hadvance)
    %and_then_Returned.
  apply (cut_short_and_then p p2 q).
  - apply (cut_short_and_then p p1 p2);
      [by apply remove_stale_cut_short|by apply place_cut_short].
  - rewrite Hadvance. apply cut_short_same.
    unfold advance in Hadvance. by injection Hadvance as <-.
Qed.

Lemma for_each_cut_short new todo : ∀ p q,
  for_each new todo p = Returned q →
  cut_short p q (RaisingListeners.for_each listeners_return new todo p).
Proof.
  induction todo as [|x todo IH]; intros p q; simpl.
  - intros [= <-]. by apply cut_short_same.
  - intros (p1 & Hvisit & Hrest)%and_then_Returned.
    apply (cut_short_and_then p p1 q);
      [by apply visit_cut_short|by apply IH].
Qed.

Lemma drain_loop_cut_short rounds : ∀ p q,
  drain_loop rounds p = Returned q →
  cut_short p q (RaisingListeners.drain_loop listeners_return rounds p).
Proof.
  induction rounds as [|rounds IH]; intros p q; simpl.
  - intros [= <-]. by apply cut_short_same.
  - destruct (old_data_items p !! index p) as [x|];
      [|intros [= <-]; by apply cut_short_same].
    intros (p2 & (p1 & [Hc ->]%assert_Returned & Hrem)%and_then_Returned
            & Hrest)%and_then_Returned.
    rewrite Hc. cbn [assert and_then].
    apply (cut_short_and_then p p2 q);
      [by apply remove_at_cut_short|by apply IH].
Qed.

Lemma reconcile_cut_short new p q :
  reconcile new p = Returned q →
  cut_short p q (RaisingListeners.reconcile listeners_return new p).
Proof.
  unfold reconcile, RaisingListeners.reconcile.
  intros (p1 & Heach & Hdrain)%and_then_Returned.
  apply (cut_short_and_then p p1 q); [by apply for_each_cut_short|].
  unfold drain, RaisingListeners.drain in *. by apply drain_loop_cut_short.
Qed.

Lemma lockstep_take (l : list item) ns n :
  lockstep l ns → lockstep l (take n ns).
Proof.
  intros Hns. rewrite <-(take_drop n ns) in Hns.
  by apply lockstep_app in Hns as [? _].
Qed.

Context {Sub Container : Type}.
Variable _get_master_data_items : Sub → list item.
Variable container : Sub → option Container.
Import DataItemsBinding.
Local Abbreviation Binding :=
  (DataItemsBinding.Binding (item := item) (Sub := Sub)
     (Container := Container)).
Local Abbreviation proposed :=
  (λ w b, expand w b <$>
          sorted_master_data_items _get_master_data_items container w b).
Implicit Types b : Binding.

(** X4. A pass on a binding whose list is duplicate-free and whose
    change level is not positive ends in one of three ways.  Every
    round of listener calls returns: then the pass returns, and the list
    is the proposed list (the master data items with master data,
    sorted, filtered, each followed by its dependent data items),
    reached by listener calls in lockstep.  Or a listener raises: then
    the pass raises in that round, and the list of the binding is left
    as that round found it, the end of the rounds made so far, which
    are in lockstep.  Or the pass raises before the first round, and
    then the list is untouched and no listener has been called. *)
Theorem pass_raises_early_or_in_a_round w b :
  NoDup (data_items b) → __change_level b ≤ 0 →
  match RaisingListeners._update_data_items listeners_return
          _get_master_data_items container w b with
  | Returned b' =>
    proposed w b = Some (data_items b') ∧
    NoDup (data_items b') ∧
    ∃ ns, notifications b' = notifications b ++ ns ∧
          lockstep (data_items b) ns ∧
          replay (note_event <$> ns) (data_items b) = Some (data_items b') ∧
          ∀ k, (k < length ns)%nat → listeners_return (take (S k) ns) = true
  | Raised b' =>
    (data_items b' = data_items b ∧ notifications b' = notifications b) ∨
    ∃ ns n, notifications b' = notifications b ++ ns ++ [n] ∧
            lockstep (data_items b) (ns ++ [n]) ∧
            replay (note_event <$> ns ++ [n]) (data_items b)
              = Some (data_items b') ∧
            data_items b' = note_data_items n ∧
            (∀ k, (k < length ns)%nat →
                  listeners_return (take (S k) ns) = true) ∧
            listeners_return (ns ++ [n]) = false
  end.
Proof.
  intros Hnd Hlevel. unfold RaisingListeners._update_data_items.
  rewrite bool_decide_eq_false_2 by lia.
  change (sorted_master_data_items _get_master_data_items container w
            (count_pass b))
    with (sorted_master_data_items _get_master_data_items container w b).
  destruct (sorted_master_data_items _ _ w b) as [master|]; [|by left].
  change (expand w (count_pass b) master) with (expand w b master).
  unfold assert.
  do 2 (match goal with |- context [if ?c then _ else _] => destruct c end;
    cbn [and_then]; [|by left]).
  destruct (all_distinct (expand w b master)) eqn:Hnew; cbn [and_then];
    [|by left].
  apply bool_decide_eq_true in Hnew.
  destruct (reconcile_in_step _ _ Hnd Hnew)
    as (q & Hq & (_ & Hlock & Hseen & _) & Hl & _).
  cbn [data_items count_pass].
  destruct (reconcile_cut_short _ _ _ Hq) as [_ Hcut].
  destruct Hcut as [[Hheard ->]|(k & n & p & _ & Hn & Hbefore & Hat & -> &
                                 Hnote & Hitems)].
  - cbn [end_pass data_items notifications count_pass]. rewrite Hl.
    split_and!; [done..|]. exists (notified q). split_and!; [done..| |].
    + rewrite (lockstep_replay _ _ Hlock). congruence.
    + intros j Hj. apply Hheard. simpl. lia.
  - cbn [end_pass data_items notifications count_pass]. right.
    pose proof (lookup_lt_Some _ _ _ Hn) as Hlt.
    assert (take (S k) (notified q) = take k (notified q) ++ [n]) as Htake.
    { by apply take_S_r. }
    assert (lockstep (data_items b) (take k (notified q) ++ [n])) as Hlock'.
    { rewrite <-Htake. by apply lockstep_take. }
    exists (take k (notified q)), n. rewrite Hnote, Htake.
    split_and!; [done|done| |done| |by rewrite <-Htake].
    + rewrite (lockstep_replay _ _ Hlock'), seen_app, Hitems. done.
    + intros j Hj. rewrite length_take in Hj.
      rewrite take_take. replace (S j `min` k)%nat with (S j) by lia.
      apply Hbefore. simpl. lia.
Qed.

End raising_listener_facts.

(** With listeners that return, the pass is the pass of
    [DataItemsBinding]. *)
Lemma _update_data_items_returning `{Countable item} {Sub Container : Type}
  (_get_master_data_items : Sub → list item)
  (container : Sub → option Container) (w : world item) b :
  RaisingListeners._update_data_items (λ _, true) _get_master_data_items
    container w b =
  DataItemsBinding._update_data_items _get_master_data_items container w b.
Proof. reflexivity. Qed.

Lemma pass_raises_early_or_in_a_round_witness :
  let w := World (λ _ : nat, true) (λ _, []) in
  let b := DataItemsBinding.MkBinding [1; 2; 3]%nat None
             (None : option (unit → (nat → Z) * bool)) 0
             (DataItemsFilterBinding.Fields [3%nat]) [] 0 in
  let listeners_return := λ _ : list (notification (item := nat)), false in
  let removed := Notification (Event op_remove 1%nat 0) [2; 3]%nat in
  NoDup (DataItemsBinding.data_items b) ∧
  DataItemsBinding.__change_level b ≤ 0 ∧
  ∃ b', RaisingListeners._update_data_items listeners_return
          DataItemsFilterBinding._get_master_data_items
          (DataItemsFilterBinding.container None) w b = Raised b' ∧
        DataItemsBinding.data_items b' = [2; 3]%nat ∧
        DataItemsBinding.notifications b' = [removed] ∧
        ∃ ns n, DataItemsBinding.notifications b' =
                  DataItemsBinding.notifications b ++ ns ++ [n] ∧
                lockstep (DataItemsBinding.data_items b) (ns ++ [n]) ∧
                DataItemsBinding.data_items b' = note_data_items n ∧
                listeners_return (ns ++ [n]) = false.
Proof.
  intros w b listeners_return removed.
  split; [compute_done|]. split; [simpl; lia|].
  pose proof (pass_raises_early_or_in_a_round listeners_return
    DataItemsFilterBinding._get_master_data_items
    (DataItemsFilterBinding.container None) w b) as Hpass.
  destruct (RaisingListeners._update_data_items listeners_return
    DataItemsFilterBinding._get_master_data_items
    (DataItemsFilterBinding.container None) w b) as [b'|b'] eqn:Hb'.
  - vm_compute in Hb'. discriminate Hb'.
  - exists b'. split; [reflexivity|].
    assert (DataItemsBinding.data_items b' = [2; 3]%nat) as Hitems.
    { vm_compute in Hb'. injection Hb' as <-. reflexivity. }
    assert (DataItemsBinding.notifications b' = [removed]) as Hnotes.
    { vm_compute in Hb'. injection Hb' as <-. reflexivity. }
    split; [exact Hitems|]. split; [exact Hnotes|].
    destruct Hpass as [[Hsame _]|(ns & n & Hn & Hlock & _ & Hnote & _ & Hl)];
      [compute_done|simpl; lia| |].
    + rewrite Hitems in Hsame. discriminate Hsame.
    + exists ns, n. split_and!; done.
Defined.
